(** * Symptom-intake wizard: schema validation and step controller

    A shallow embedding of the multi-step symptom form
    ([src/components/symptom-form.tsx] and the step components
    [profile-info-step], [symptoms-step], [medical-image-step],
    [medical-history-step]) together with the parts of the two libraries
    the form is written against: zod (schema parsing, statuses
    valid / dirty / aborted, refinements) and react-hook-form (resolver,
    [trigger], [setValue], [clearErrors], [handleSubmit], field arrays). *)

From Stdlib Require Import ZArith NArith QArith List String Ascii Bool Lia Btauto.
From stdpp Require Import base gmap strings list.

Local Open Scope Z_scope.

(** ** JavaScript values used by the form *)

Module JS.

(** A JavaScript string is a sequence of UTF-16 code units. *)
Definition jsstring := list N.

(** String literals of the source, written in the ASCII range. *)
Definition str (s : string) : jsstring :=
  map N_of_ascii (list_ascii_of_string s).

(** A JavaScript number: a double is NaN, an infinity, or a finite value,
    and every finite double is a rational.  Negative zero is identified
    with zero; the two agree on every operation used here. *)
Inductive number :=
| NaN
| PInf
| NInf
| Fin (q : Q).

Definition num (z : Z) : number := Fin (inject_Z z).

(** [x < y] and [x <= y] on numbers; any comparison with NaN is false. *)
Definition num_lt (x y : number) : bool :=
  match x, y with
  | NaN, _ | _, NaN => false
  | PInf, _ => false
  | _, NInf => false
  | NInf, _ => true
  | Fin _, PInf => true
  | Fin a, Fin b => negb (Qle_bool b a)
  end.

Definition num_le (x y : number) : bool :=
  match x, y with
  | NaN, _ | _, NaN => false
  | NInf, _ => true
  | _, PInf => true
  | PInf, _ => false
  | Fin _, NInf => false
  | Fin a, Fin b => Qle_bool a b
  end.

Definition isNaN (x : number) : bool :=
  match x with
  | NaN => true
  | _ => false
  end.

(** An optional number that is present and NaN. *)
Definition presentNaN (v : option number) : bool :=
  match v with
  | Some NaN => true
  | _ => false
  end.

(** [Number.isInteger]. *)
Definition isInteger (x : number) : bool :=
  match x with
  | Fin q => (Qnum q mod Zpos (Qden q) =? 0)
  | _ => false
  end.

(** [Number(v)] for a value that is [undefined] or already a number. *)
Definition Number_ (v : option number) : number :=
  match v with
  | None => NaN
  | Some x => x
  end.

(** Truthiness ([!!v], [v ? a : b]) of the value kinds the form holds. *)
Definition truthy_number (v : option number) : bool :=
  match v with
  | None | Some NaN => false
  | Some (Fin q) => negb (Qeq_bool q 0)
  | Some _ => true
  end.

Definition truthy_string (v : option jsstring) : bool :=
  match v with
  | None | Some [] => false
  | Some (_ :: _) => true
  end.

(** WhiteSpace and LineTerminator code units, the ones [trim] strips. *)
Definition isWhiteSpace (c : N) : bool :=
  ((9 <=? c) && (c <=? 13) || (c =? 32) || (c =? 160) || (c =? 5760)
   || (8192 <=? c) && (c <=? 8202) || (c =? 8232) || (c =? 8233)
   || (c =? 8239) || (c =? 8287) || (c =? 12288) || (c =? 65279))%N.

Fixpoint trimStart (s : jsstring) : jsstring :=
  match s with
  | [] => []
  | c :: s' => if isWhiteSpace c then trimStart s' else s
  end.

Definition trimEnd (s : jsstring) : jsstring := rev (trimStart (rev s)).

Definition trim (s : jsstring) : jsstring := trimEnd (trimStart s).

(** [s.split(sep)] for a one-unit separator: never empty; the pieces are
    the maximal separator-free runs, in order. *)
Fixpoint split (sep : N) (s : jsstring) : list jsstring :=
  match s with
  | [] => [[]]
  | c :: s' =>
      if (c =? sep)%N then [] :: split sep s'
      else match split sep s' with
           | [] => [[c]]
           | piece :: rest => (c :: piece) :: rest
           end
  end.

(** [pieces.join(sep)], the inverse direction, used to state what
    [split] computes. *)
Fixpoint join (sep : N) (pieces : list jsstring) : jsstring :=
  match pieces with
  | [] => []
  | [p] => p
  | p :: rest => p ++ sep :: join sep rest
  end.

Definition comma : N := 44%N.

End JS.
Import JS.

(** ** The record behind the form *)

Record Symptom := mkSymptom {
  symptom_name : jsstring;
  symptom_severity : jsstring
}.

(** [medicalHistory] as the form holds it: raw text. *)
Record MedicalHistoryText := mkMedicalHistoryText {
  pastConditions : option jsstring;
  currentMedications : option jsstring
}.

(** A [File] of a [FileList]; only [size] and [type] are inspected. *)
Record File := mkFile {
  file_size : N;
  file_type : jsstring
}.

(** The shape of [formSchema].  [A] is the type of [age]: the form holds
    [undefined] or a number ([option number]); the parsed output holds a
    number.  The keys hold what the TypeScript type and the inputs allow:
    text inputs and selects give strings, number inputs give [undefined]
    or a number, the file input a [FileList]. *)
Record Form (A : Type) := mkForm {
  name : jsstring;
  age : A;
  weight : option number;
  weightUnit : option jsstring;
  height : option number;
  heightUnit : option jsstring;
  gender : jsstring;
  symptoms : list Symptom;
  medicalHistory : MedicalHistoryText;
  medicalImage : option (list File);
  imageDescription : option jsstring
}.
Arguments mkForm {A}.
Arguments name {A}.
Arguments age {A}.
Arguments weight {A}.
Arguments weightUnit {A}.
Arguments height {A}.
Arguments heightUnit {A}.
Arguments gender {A}.
Arguments symptoms {A}.
Arguments medicalHistory {A}.
Arguments medicalImage {A}.
Arguments imageDescription {A}.

(** Values held by the form ([defaultValues], [setValue], inputs). *)
Abbreviation FormValues := (Form (option number)).
(** [z.infer<typeof formSchema>]: what [onSubmit] receives. *)
Abbreviation FormData := (Form number).

(** Assignment to one key of the record. *)
Definition set_name (x : jsstring) (v : FormValues) : FormValues :=
  mkForm x (age v) (weight v) (weightUnit v) (height v) (heightUnit v)
    (gender v) (symptoms v) (medicalHistory v) (medicalImage v)
    (imageDescription v).
Definition set_age (x : option number) (v : FormValues) : FormValues :=
  mkForm (name v) x (weight v) (weightUnit v) (height v) (heightUnit v)
    (gender v) (symptoms v) (medicalHistory v) (medicalImage v)
    (imageDescription v).
Definition set_weight (x : option number) (v : FormValues) : FormValues :=
  mkForm (name v) (age v) x (weightUnit v) (height v) (heightUnit v)
    (gender v) (symptoms v) (medicalHistory v) (medicalImage v)
    (imageDescription v).
Definition set_weightUnit (x : option jsstring) (v : FormValues) : FormValues :=
  mkForm (name v) (age v) (weight v) x (height v) (heightUnit v)
    (gender v) (symptoms v) (medicalHistory v) (medicalImage v)
    (imageDescription v).
Definition set_height (x : option number) (v : FormValues) : FormValues :=
  mkForm (name v) (age v) (weight v) (weightUnit v) x (heightUnit v)
    (gender v) (symptoms v) (medicalHistory v) (medicalImage v)
    (imageDescription v).
Definition set_heightUnit (x : option jsstring) (v : FormValues) : FormValues :=
  mkForm (name v) (age v) (weight v) (weightUnit v) (height v) x
    (gender v) (symptoms v) (medicalHistory v) (medicalImage v)
    (imageDescription v).
Definition set_gender (x : jsstring) (v : FormValues) : FormValues :=
  mkForm (name v) (age v) (weight v) (weightUnit v) (height v) (heightUnit v)
    x (symptoms v) (medicalHistory v) (medicalImage v)
    (imageDescription v).
Definition set_symptoms (x : list Symptom) (v : FormValues) : FormValues :=
  mkForm (name v) (age v) (weight v) (weightUnit v) (height v) (heightUnit v)
    (gender v) x (medicalHistory v) (medicalImage v)
    (imageDescription v).
Definition set_medicalHistory (x : MedicalHistoryText) (v : FormValues)
  : FormValues :=
  mkForm (name v) (age v) (weight v) (weightUnit v) (height v) (heightUnit v)
    (gender v) (symptoms v) x (medicalImage v)
    (imageDescription v).
Definition set_medicalImage (x : option (list File)) (v : FormValues)
  : FormValues :=
  mkForm (name v) (age v) (weight v) (weightUnit v) (height v) (heightUnit v)
    (gender v) (symptoms v) (medicalHistory v) x
    (imageDescription v).
Definition set_imageDescription (x : option jsstring) (v : FormValues)
  : FormValues :=
  mkForm (name v) (age v) (weight v) (weightUnit v) (height v) (heightUnit v)
    (gender v) (symptoms v) (medicalHistory v) (medicalImage v) x.

(** ** zod: parse results, checks, refinements

    Every schema parse returns a status and adds issues to a shared list.
    Status [aborted] ([INVALID]) is returned on a type mismatch; a failing
    check ([min], [max], [int], [positive], [refine]) adds its issue and
    makes the status [dirty] while the value is kept.  An object parses all
    of its keys and is [aborted] as soon as one of them is
    ([ParseStatus.mergeObjectSync]: [if (value.status === "aborted") return
    INVALID]), and a refinement on a schema runs only when the inner parse
    was not [aborted] ([ZodEffects._parse]: [if (inner.status === "aborted")
    return INVALID] comes before the refinement is executed). *)

Module Zod.

Inductive seg :=
| Key (k : string)
| Idx (i : nat).

#[global] Instance seg_eq_dec : EqDecision seg.
Proof. solve_decision. Defined.

#[global] Instance seg_countable : Countable seg.
Proof.
  refine (inj_countable'
            (fun s => match s with Key k => inl k | Idx i => inr i end)
            (fun x => match x with inl k => Key k | inr i => Idx i end) _).
  by intros [].
Defined.

Record ZodIssue := mkIssue {
  path : list seg;
  message : string
}.

#[global] Instance ZodIssue_eq_dec : EqDecision ZodIssue.
Proof. solve_decision. Defined.

Inductive ParseResult (O : Type) :=
| INVALID
| DIRTY (value : O)
| OK (value : O).
Arguments INVALID {O}.
Arguments DIRTY {O}.
Arguments OK {O}.

(** What a [_parse] call leaves behind: the issues it added, in order,
    and its result. *)
Record ParseReturn (O : Type) := mkReturn {
  issues : list ZodIssue;
  result : ParseResult O
}.
Arguments mkReturn {O}.
Arguments issues {O}.
Arguments result {O}.

Definition isAborted {O} (r : ParseReturn O) : bool :=
  match result r with
  | INVALID => true
  | _ => false
  end.

(** [safeParse(...).success]: the status is [valid]. *)
Definition success {O} (r : ParseReturn O) : bool :=
  match result r with
  | OK _ => true
  | _ => false
  end.

(** The value of a result that is not [aborted]. *)
Definition valueOf {O} (r : ParseReturn O) : option O :=
  match result r with
  | INVALID => None
  | DIRTY v | OK v => Some v
  end.

(** All issues of [r] lie at or below the path [p]. *)
Definition within {O} (p : list seg) (r : ParseReturn O) : Prop :=
  Forall (fun i => p `prefix_of` path i) (issues r).

(** A result is [valid] exactly when it added no issue. *)
Definition consistent {O} (r : ParseReturn O) : Prop :=
  success r = true <-> issues r = [].

(** A check of a string or number schema: when it fails and the message
    of its issue. *)
Record Check (A : Type) := mkCheck {
  fails : A -> bool;
  check_message : string
}.
Arguments mkCheck {A}.
Arguments fails {A}.
Arguments check_message {A}.

Definition run_checks {A} (checks : list (Check A)) (p : list seg) (x : A)
  : ParseReturn A :=
  let failed := List.filter (fun c => fails c x) checks in
  mkReturn (map (fun c => mkIssue p (check_message c)) failed)
           (match failed with
            | [] => OK x
            | _ => DIRTY x
            end).

(** [z.string()] with its checks, on a value that is a string. *)
Definition z_string (checks : list (Check jsstring)) (p : list seg)
    (s : jsstring) : ParseReturn jsstring :=
  run_checks checks p s.

(** [.min(n, msg)] and [.max(n, msg)] of a string schema. *)
Definition min_length (n : nat) (msg : string) : Check jsstring :=
  mkCheck (fun s => length s <? n)%nat msg.
Definition max_length (n : nat) (msg : string) : Check jsstring :=
  mkCheck (fun s => n <? length s)%nat msg.

(** [z.coerce.number()] with its checks: the input was coerced with
    [Number]; NaN is a type mismatch ([ZodNumber._parse] adds
    [invalid_type] and returns [INVALID]), so an empty number input,
    [undefined], aborts. *)
Definition z_coerce_number (checks : list (Check number)) (p : list seg)
    (x : number) : ParseReturn number :=
  match x with
  | NaN => mkReturn [mkIssue p "Expected number, received nan"] INVALID
  | _ => run_checks checks p x
  end.

(** [.int()], [.positive(msg)] (exclusive minimum 0), [.min(n, msg)]. *)
Definition int : Check number :=
  mkCheck (fun x => negb (isInteger x)) "Expected integer, received float".
Definition positive (msg : string) : Check number :=
  mkCheck (fun x => num_le x (num 0)) msg.
Definition min (n : Z) (msg : string) : Check number :=
  mkCheck (fun x => num_lt x (num n)) msg.

(** [.optional()]: [undefined] is accepted as it is. *)
Definition z_optional {I O} (inner : list seg -> I -> ParseReturn O)
    (p : list seg) (v : option I) : ParseReturn (option O) :=
  match v with
  | None => mkReturn [] (OK None)
  | Some x =>
      let r := inner p x in
      mkReturn (issues r)
               (match result r with
                | INVALID => INVALID
                | DIRTY o => DIRTY (Some o)
                | OK o => OK (Some o)
                end)
  end.

(** [z.custom<T>()] without a check: anything is accepted. *)
Definition z_custom {T} (p : list seg) (v : T) : ParseReturn T :=
  mkReturn [] (OK v).

(** [.refine(pred, {message, path})] on the result of the inner parse:
    nothing is done on an [aborted] result, otherwise a false [pred] adds
    the issue and makes the status [dirty]; [p] is the path of the
    issue. *)
Definition refine {O} (pred : O -> bool) (msg : string) (p : list seg)
    (inner : ParseReturn O) : ParseReturn O :=
  match result inner with
  | INVALID => inner
  | DIRTY v | OK v =>
      if pred v then inner
      else mkReturn (issues inner ++ [mkIssue p msg]) (DIRTY v)
  end.

(** Merging of the keys of an object, one key at a time
    ([ParseStatus.mergeObjectSync]): issues in key order, [aborted]
    wins over [dirty], [dirty] over [valid]. *)
Definition pure {O} (v : O) : ParseReturn O := mkReturn [] (OK v).

Definition ap {A B} (rf : ParseReturn (A -> B)) (ra : ParseReturn A)
  : ParseReturn B :=
  mkReturn (issues rf ++ issues ra)
           (match result rf, result ra with
            | INVALID, _ | _, INVALID => INVALID
            | OK f, OK a => OK (f a)
            | OK f, DIRTY a | DIRTY f, OK a | DIRTY f, DIRTY a =>
                DIRTY (f a)
            end).

(** [z.array(item).min(1, msg)]: the length check first, then the
    items with their index on the path ([ParseStatus.mergeArray]). *)
Fixpoint parse_items {I O} (item : list seg -> I -> ParseReturn O)
    (p : list seg) (i : nat) (l : list I) : ParseReturn (list O) :=
  match l with
  | [] => pure []
  | x :: l' =>
      ap (ap (pure cons) (item (p ++ [Idx i]) x))
         (parse_items item p (S i) l')
  end.

Definition z_array_min {I O} (item : list seg -> I -> ParseReturn O)
    (n : nat) (msg : string) (p : list seg) (l : list I)
  : ParseReturn (list O) :=
  let len :=
    if (length l <? n)%nat
    then mkReturn [mkIssue p msg] (DIRTY (fun v : list O => v))
    else pure (fun v : list O => v) in
  ap len (parse_items item p 0 l).

End Zod.
Import Zod.

Notation "f <*> x" := (ap f x) (at level 61, left associativity).

(** ** The schemas of [symptom-form.tsx] *)

Definition symptomSchema (p : list seg) (s : Symptom) : ParseReturn Symptom :=
  pure mkSymptom
    <*> z_string [min_length 1 "Symptom name is required."]
          (p ++ [Key "name"]) (symptom_name s)
    <*> z_string [min_length 1 "Severity is required."]
          (p ++ [Key "severity"]) (symptom_severity s).

Definition medicalHistorySchema (p : list seg) (h : MedicalHistoryText)
  : ParseReturn MedicalHistoryText :=
  pure mkMedicalHistoryText
    <*> z_optional (z_string []) (p ++ [Key "pastConditions"])
          (pastConditions h)
    <*> z_optional (z_string []) (p ++ [Key "currentMedications"])
          (currentMedications h).

Definition MAX_FILE_SIZE : N := 10 * 1024 * 1024.

Definition ACCEPTED_IMAGE_TYPES : list jsstring :=
  [str "image/jpeg"; str "image/jpg"; str "image/png"; str "image/webp";
   str "image/dicom"].

(** [files.length === 0 || files[0].size <= MAX_FILE_SIZE] *)
Definition sizeAccepted (files : list File) : bool :=
  match files with
  | [] => true
  | f :: _ => (file_size f <=? MAX_FILE_SIZE)%N
  end.

(** [files.length === 0 || ACCEPTED_IMAGE_TYPES.includes(files[0].type)] *)
Definition typeAccepted (files : list File) : bool :=
  match files with
  | [] => true
  | f :: _ => bool_decide (file_type f ∈ ACCEPTED_IMAGE_TYPES)
  end.

Definition medicalImageSchema (p : list seg) (v : option (list File))
  : ParseReturn (option (list File)) :=
  z_optional
    (fun p files =>
       refine typeAccepted
         "Only .jpg, .jpeg, .png, .webp and .dicom formats are supported." p
         (refine sizeAccepted "Max image size is 10MB." p
            (z_custom p files)))
    p v.

(** [data.medicalImage && data.medicalImage.length > 0] *)
Definition hasFiles (v : option (list File)) : bool :=
  match v with
  | Some (_ :: _) => true
  | _ => false
  end.

(** The three object-level refinements, on the parsed data. *)
Definition weightUnitRule (data : FormData) : bool :=
  if truthy_number (weight data) then truthy_string (weightUnit data)
  else true.

Definition heightUnitRule (data : FormData) : bool :=
  if truthy_number (height data) then truthy_string (heightUnit data)
  else true.

Definition imageDescriptionRule (data : FormData) : bool :=
  if hasFiles (medicalImage data) then truthy_string (imageDescription data)
  else true.

(** The [z.object({...})] of [formSchema], keys in the order written. *)
Definition formObject (v : FormValues) : ParseReturn FormData :=
  pure mkForm
    <*> z_string [min_length 1 "Name is required."] [Key "name"] (name v)
    <*> z_coerce_number
          [int; positive "Age must be a positive number.";
           min 1 "Age is required."]
          [Key "age"] (Number_ (age v))
    <*> z_optional (z_coerce_number [positive "Weight must be positive"])
          [Key "weight"] (weight v)
    <*> z_optional (z_string []) [Key "weightUnit"] (weightUnit v)
    <*> z_optional (z_coerce_number [positive "Height must be positive"])
          [Key "height"] (height v)
    <*> z_optional (z_string []) [Key "heightUnit"] (heightUnit v)
    <*> z_string [min_length 1 "Gender is required."] [Key "gender"]
          (gender v)
    <*> z_array_min symptomSchema 1 "Please add at least one symptom."
          [Key "symptoms"] (symptoms v)
    <*> medicalHistorySchema [Key "medicalHistory"] (medicalHistory v)
    <*> medicalImageSchema [Key "medicalImage"] (medicalImage v)
    <*> z_optional
          (z_string
             [max_length 1000 "Description must be less than 1000 characters"])
          [Key "imageDescription"] (imageDescription v).

Definition formSchema (v : FormValues) : ParseReturn FormData :=
  refine imageDescriptionRule
    "Please provide a description for the uploaded image."
    [Key "imageDescription"]
    (refine heightUnitRule "Height unit is required if height is provided."
       [Key "heightUnit"]
       (refine weightUnitRule
          "Weight unit is required if weight is provided."
          [Key "weightUnit"]
          (formObject v))).

(** The record as the object parse returns it when no key is [aborted]:
    [age] coerced, every other key as it was.  The keys that can abort are
    the three numbers. *)
Definition coerced (v : FormValues) : FormData :=
  mkForm (name v) (Number_ (age v)) (weight v) (weightUnit v) (height v)
    (heightUnit v) (gender v) (symptoms v) (medicalHistory v)
    (medicalImage v) (imageDescription v).

Definition numbersParse (v : FormValues) : bool :=
  negb (isNaN (Number_ (age v)))
  && negb (presentNaN (weight v))
  && negb (presentNaN (height v)).

(** The issues the three refinements add for the parsed data. *)
Definition ruleIssues (data : FormData) : list ZodIssue :=
  (if weightUnitRule data then []
   else [mkIssue [Key "weightUnit"]
           "Weight unit is required if weight is provided."])
  ++ (if heightUnitRule data then []
      else [mkIssue [Key "heightUnit"]
              "Height unit is required if height is provided."])
  ++ (if imageDescriptionRule data then []
      else [mkIssue [Key "imageDescription"]
              "Please provide a description for the uploaded image."]).

(** Full validation of a record: [formSchema.safeParse(v).success]. *)
Definition fullValidation (v : FormValues) : bool := success (formSchema v).

(** An issue is attached to the field [k] when its path starts with it. *)
Definition attachedTo (k : string) (i : ZodIssue) : Prop :=
  [Key k] `prefix_of` path i.

Definition errorOn (k : string) (v : FormValues) : Prop :=
  Exists (attachedTo k) (issues (formSchema v)).

(** A scope, a list of field names, is invalid for a record when full
    validation attaches an issue at or below one of its names. *)
Definition scopeInvalid (names : list (list seg)) (v : FormValues) : Prop :=
  Exists (fun i => Exists (fun n => n `prefix_of` path i) names)
    (issues (formSchema v)).

(** ** The wizard's constants *)

Definition steps : list (string * string) :=
  [("profile", "Your Information");
   ("symptoms", "Symptoms");
   ("medical-image", "Medical Image (Optional)");
   ("medical-history", "Medical History (Optional)");
   ("review", "Review & Submit")].

(** [steps[i].id]; [None] where [steps[i]] is [undefined] and reading
    [.id] throws. *)
Definition stepId (i : Z) : option string :=
  if i <? 0 then None else fst <$> steps !! Z.to_nat i.

Definition lastStep : Z := Z.of_nat (length steps) - 1.

Definition genderOptions : list jsstring :=
  [str "Male"; str "Female"; str "Other"; str "Prefer not to say"].
Definition weightUnits : list jsstring := [str "kg"; str "lbs"].
Definition heightUnits : list jsstring := [str "cm"; str "in"; str "ft"].
Definition severityLevels : list jsstring :=
  [str "Mild"; str "Moderate"; str "Severe"; str "Very Severe"].

Definition defaultValues : FormValues :=
  mkForm [] None None None None None []
    [mkSymptom [] []]
    (mkMedicalHistoryText (Some []) (Some []))
    None (Some []).

(** ** The payload of the analysis collaborator *)

Record MedicalHistory := mkMedicalHistory {
  history_pastConditions : list jsstring;
  history_currentMedications : list jsstring
}.

Record AnalyzeSymptomsInput := mkInput {
  input_name : jsstring;
  input_age : number;
  input_weight : option number;
  input_weightUnit : option jsstring;
  input_height : option number;
  input_heightUnit : option jsstring;
  input_gender : jsstring;
  input_symptoms : list Symptom;
  input_medicalHistory : MedicalHistory;
  imageDataUri : option jsstring
}.

(** [text?.split(',').map(s => s.trim()).filter(s => s) ?? []] *)
Definition commaList (text : option jsstring) : list jsstring :=
  match text with
  | None => []
  | Some s =>
      List.filter (fun piece => truthy_string (Some piece))
        (map trim (split comma s))
  end.

Definition formattedMedicalHistory (h : MedicalHistoryText) : MedicalHistory :=
  mkMedicalHistory (commaList (pastConditions h))
                   (commaList (currentMedications h)).

Definition analysisInput (data : FormData) (uri : option jsstring)
  : AnalyzeSymptomsInput :=
  mkInput (name data) (age data) (weight data) (weightUnit data)
          (height data) (heightUnit data) (gender data) (symptoms data)
          (formattedMedicalHistory (medicalHistory data)) uri.

(** *** The list as the design notes word it

    "An ordered sequence of trimmed non-empty substrings" of the
    comma-separated text, stated without [split], [trim] or [filter]: the
    text is cut at its commas into pieces, each piece loses the white space
    around it, and the pieces with nothing left are dropped. *)

Definition blank (s : jsstring) : Prop :=
  Forall (fun c => isWhiteSpace c = true) s.

Definition startsClean (t : jsstring) : Prop :=
  forall c t', t = c :: t' -> isWhiteSpace c = false.

Definition trimmedFrom (piece t : jsstring) : Prop :=
  exists l r,
    piece = l ++ t ++ r /\ blank l /\ blank r
    /\ startsClean t /\ startsClean (rev t).

Inductive itemsOf : list jsstring -> list jsstring -> Prop :=
| itemsOf_nil : itemsOf [] []
| itemsOf_blank piece pieces items :
    trimmedFrom piece [] -> itemsOf pieces items ->
    itemsOf (piece :: pieces) items
| itemsOf_item piece t pieces items :
    trimmedFrom piece t -> t <> [] -> itemsOf pieces items ->
    itemsOf (piece :: pieces) (t :: items).

Definition commaSeparatedItems (text : jsstring) (items : list jsstring)
  : Prop :=
  exists pieces,
    join comma pieces = text /\ pieces <> []
    /\ Forall (fun piece => comma ∉ piece) pieces
    /\ itemsOf pieces items.

(** The list derived from an optional raw text, and a text with nothing
    in it. *)
Definition derivedFrom (text : option jsstring) (items : list jsstring)
  : Prop :=
  match text with
  | None => items = []
  | Some s => commaSeparatedItems s items
  end.

Definition blankText (text : option jsstring) : Prop :=
  match text with
  | None => True
  | Some s => blank s
  end.

(** ** react-hook-form: the [methods] object of [useForm]

    [formState.errors] is a nested object; it is kept here as the finite
    map from the path of each leaf to its message, so that the subtree at a
    field name is the part of the map whose keys extend the name. *)

Module RHF.

Abbreviation FieldErrors := (gmap (list seg) string).

Record FormState := mkFormState {
  values : FormValues;
  errors : FieldErrors
}.

(** The path of a top-level field name. *)
Definition field (k : string) : list seg := [Key k].

(** [get(errors, name)], [unset(errors, name)], [set(errors, name, e)]. *)
Definition get (errs : FieldErrors) (name : list seg) : FieldErrors :=
  filter (fun kv => name `prefix_of` kv.1) errs.

Definition unset (errs : FieldErrors) (name : list seg) : FieldErrors :=
  filter (fun kv => ¬ name `prefix_of` kv.1) errs.

Definition set (errs : FieldErrors) (name : list seg) (e : FieldErrors)
  : FieldErrors :=
  e ∪ unset errs name.

(** Truthiness of [get(errors, name)] (and of [errors.medicalImage]). *)
Definition hasError (errs : FieldErrors) (name : list seg) : bool :=
  bool_decide (get errs name ≠ ∅).

(** [zodResolver(formSchema)]: the whole record is parsed; on success
    the parsed data and no errors, otherwise the issues by path, the
    first issue of a path kept. *)
Definition toErrors (zodErrors : list ZodIssue) : FieldErrors :=
  list_to_map (map (fun i => (path i, message i)) zodErrors).

Definition zodResolver (v : FormValues) : option FormData * FieldErrors :=
  let r := formSchema v in
  match result r with
  | OK data => (Some data, ∅)
  | _ => (None, toErrors (issues r))
  end.

(** [error ? set(errors, name, error) : unset(errors, name)] for the
    result [new] of the resolver. *)
Definition updateError (new : FieldErrors) (errs : FieldErrors)
    (name : list seg) : FieldErrors :=
  let e := get new name in
  if bool_decide (e = ∅) then unset errs name else set errs name e.

(** [await trigger(names)]: the resolver runs on the whole record, the
    errors of the named fields only are replaced, and the answer is
    whether none of the named fields has an error. *)
Definition trigger (names : list (list seg)) (m : FormState)
  : bool * FormState :=
  let new := (zodResolver (values m)).2 in
  (forallb (fun n => negb (hasError new n)) names,
   mkFormState (values m) (foldl (updateError new) (errors m) names)).

(** A validation started and not awaited ([shouldValidate: true], an
    input's change in mode [onChange]): the resolver has read the record,
    its outcome for the one field is written later. *)
Record Validation := mkValidation {
  validated : list seg;
  outcome : FieldErrors
}.

Definition complete (m : FormState) (v : Validation) : FormState :=
  mkFormState (values m) (updateError (outcome v) (errors m) (validated v)).

(** [setValue(name, value, { shouldValidate: true })]; [assign] is the
    assignment to the key [name]. *)
Definition setValue (name : list seg) (assign : FormValues -> FormValues)
    (m : FormState) : FormState * list Validation :=
  let v := assign (values m) in
  (mkFormState v (errors m), [mkValidation name (zodResolver v).2]).

Definition clearErrors (name : list seg) (m : FormState) : FormState :=
  mkFormState (values m) (unset (errors m) name).

(** [setError(name, { type: "manual", message })] *)
Definition setError (name : list seg) (msg : string) (m : FormState)
  : FormState :=
  mkFormState (values m) (set (errors m) name {[ name := msg ]}).

(** [reset()] *)
Definition reset (m : FormState) : FormState :=
  mkFormState defaultValues ∅.

(** [useFieldArray({ name: 'symptoms' })]: [append(value)] adds at the
    end, [remove(index)] drops the entry at [index] if there is one.  The
    array of the entries' errors is updated the same way: nothing is added
    for a new entry, and on a removal the errors of the entry go with it
    and those of the later entries move down by one.  The validation that
    follows writes an error only if it has a [type]; the errors of entries
    have none, so it writes nothing. *)
Definition append (value : Symptom) (m : FormState)
  : FormState * list Validation :=
  (mkFormState (set_symptoms (symptoms (values m) ++ [value]) (values m))
     (errors m),
   []).

(** Where the error at path [p] is found after [remove(index)]. *)
Definition afterRemove (index : nat) (p : list seg) : option (list seg) :=
  match p with
  | Key k :: Idx j :: rest =>
      if bool_decide (k = "symptoms") then
        if (j =? index)%nat then None
        else if (index <? j)%nat then Some (Key k :: Idx (pred j) :: rest)
        else Some p
      else Some p
  | _ => Some p
  end.

Definition removeErrors (index : nat) (errs : FieldErrors) : FieldErrors :=
  list_to_map
    (omap (fun kv => (fun p => (p, kv.2)) <$> afterRemove index kv.1)
       (map_to_list errs)).

Definition remove (index : nat) (m : FormState)
  : FormState * list Validation :=
  (mkFormState (set_symptoms (delete index (symptoms (values m))) (values m))
     (removeErrors index (errors m)),
   []).

End RHF.

Arguments RHF.get : simpl never.
Arguments RHF.unset : simpl never.
Arguments RHF.set : simpl never.
Arguments RHF.updateError : simpl never.
Arguments RHF.zodResolver : simpl never.
Arguments RHF.removeErrors : simpl never.

(** ** The wizard: [SymptomForm] and its step components

    The analysis service and the file reader are collaborators: any
    function may stand for them, [None] being a rejected promise or a
    read error. *)

Section Wizard.

Context {AnalyzeSymptomsOutput : Type}.
Variable analyzeSymptoms :
  AnalyzeSymptomsInput -> option AnalyzeSymptomsOutput.
Variable readAsDataURL : File -> option jsstring.

(** The [useState] cells of [SymptomForm] and the form's [methods];
    [methods.formState.errors] is read as the errors the form holds at
    that moment. *)
Record State := mkState {
  currentStep : Z;
  isLoading : bool;
  results : option AnalyzeSymptomsOutput;
  error : option string;
  imagePreview : option jsstring;
  methods : RHF.FormState
}.

Definition initial : State :=
  mkState 0 false None None None (RHF.mkFormState defaultValues ∅).

Definition setCurrentStep (f : Z -> Z) (st : State) : State :=
  mkState (f (currentStep st)) (isLoading st) (results st) (error st)
    (imagePreview st) (methods st).
Definition setIsLoading (b : bool) (st : State) : State :=
  mkState (currentStep st) b (results st) (error st) (imagePreview st)
    (methods st).
Definition setResults (r : option AnalyzeSymptomsOutput) (st : State)
  : State :=
  mkState (currentStep st) (isLoading st) r (error st) (imagePreview st)
    (methods st).
Definition setError (e : option string) (st : State) : State :=
  mkState (currentStep st) (isLoading st) (results st) e (imagePreview st)
    (methods st).
Definition setImagePreview (p : option jsstring) (st : State) : State :=
  mkState (currentStep st) (isLoading st) (results st) (error st) p
    (methods st).
Definition withMethods (m : RHF.FormState) (st : State) : State :=
  mkState (currentStep st) (isLoading st) (results st) (error st)
    (imagePreview st) m.

(** The record and the errors the wizard currently shows. *)
Definition record (st : State) : FormValues := RHF.values (methods st).
Definition formErrors (st : State) : RHF.FieldErrors :=
  RHF.errors (methods st).

(** *** Navigation *)

Definition profileFields : list (list seg) :=
  [RHF.field "name"; RHF.field "age"; RHF.field "gender";
   RHF.field "weight"; RHF.field "weightUnit"; RHF.field "height";
   RHF.field "heightUnit"].

(** [setCurrentStep(prev => Math.min(prev + 1, steps.length - 1))] *)
Definition advance (st : State) : State :=
  setCurrentStep (fun prev => Z.min (prev + 1) lastStep) st.

(** [await methods.trigger(names); if (!valid) return; ...advance] *)
Definition validateThenAdvance (names : list (list seg)) (st : State)
  : State :=
  let '(valid, m) := RHF.trigger names (methods st) in
  if valid then advance (withMethods m st) else withMethods m st.

(** [None]: [steps[currentStep]] is [undefined], a TypeError. *)
Definition goToNextStep (st : State) : option State :=
  id ← stepId (currentStep st);
  Some (if bool_decide (id = "profile") then
          validateThenAdvance profileFields st
        else if bool_decide (id = "symptoms") then
          validateThenAdvance [RHF.field "symptoms"] st
        else if bool_decide (id = "medical-image") then
          if RHF.hasError (formErrors st) (RHF.field "medicalImage")
          then st
          else advance st
        else advance st).

Definition goToPreviousStep (st : State) : State :=
  setCurrentStep (fun prev => Z.max (prev - 1) 0) st.

Definition skipStep (st : State) : option State :=
  id ← stepId (currentStep st);
  Some (if bool_decide (id = "medical-image")
           || bool_decide (id = "medical-history")
        then setCurrentStep (fun prev => prev + 1) st
        else st).

(** *** Submission *)

Definition imageFailure : string :=
  "Failed to process the uploaded image. Please try again.".

Definition analysisFailure : string :=
  "An error occurred while analyzing symptoms. The AI model might have limitations with image analysis or the input provided. Please ensure the image is clear and relevant, or try removing it. If the problem persists, contact support.".

(** [onSubmit(data)]: the state when the promise settles and the
    payloads handed to [analyzeSymptoms], in order. *)
Definition onSubmit (data : FormData) (st : State)
  : State * list AnalyzeSymptomsInput :=
  let st := setResults None (setError None (setIsLoading true st)) in
  let converted : option (option jsstring) :=
    match medicalImage data with
    | Some (file :: _) =>
        match readAsDataURL file with
        | Some uri => Some (Some uri)
        | None => None
        end
    | _ => Some None
    end in
  match converted with
  | None => (setIsLoading false (setError (Some imageFailure) st), [])
  | Some uri =>
      let input := analysisInput data uri in
      let st :=
        match analyzeSymptoms input with
        | Some diagnosisResults => setResults (Some diagnosisResults) st
        | None => setError (Some analysisFailure) st
        end in
      (setIsLoading false st, [input])
  end.

(** [methods.handleSubmit(onSubmit)]: the resolver runs on the whole
    record, its errors replace [formState.errors], and [onSubmit] is
    called with the parsed data only when there is none. *)
Definition handleSubmit (st : State) : State * list AnalyzeSymptomsInput :=
  let '(data, errs) := RHF.zodResolver (record st) in
  let st := withMethods (RHF.mkFormState (record st) errs) st in
  match data with
  | Some d => onSubmit d st
  | None => (st, [])
  end.

(** The click on Start New Assessment. *)
Definition startNewAssessment (st : State) : State :=
  setImagePreview None
    (setCurrentStep (fun _ => 0)
       (withMethods (RHF.reset (methods st)) (setResults None st))).

(** *** Handlers of the step components

    A handler runs to its end before the validations it started
    complete; it yields the state it leaves and those validations. *)
Definition Task := State -> State * list RHF.Validation.

Definition now (f : State -> State) : Task := fun st => (f st, []).

Definition onMethods (f : RHF.FormState -> RHF.FormState) (st : State)
  : State :=
  withMethods (f (methods st)) st.

Definition form (f : RHF.FormState -> RHF.FormState * list RHF.Validation)
  : Task :=
  fun st => let '(m, vs) := f (methods st) in (withMethods m st, vs).

Definition andThen (a b : Task) : Task :=
  fun st =>
    let '(st1, vs1) := a st in
    let '(st2, vs2) := b st1 in
    (st2, vs1 ++ vs2).

Notation "a ;; b" := (andThen a b) (at level 100, right associativity).

(** The pending validations complete, in the order they were started. *)
Definition settle (r : State * list RHF.Validation) : State :=
  withMethods (foldl RHF.complete (methods r.1) r.2) r.1.

Definition clearImage : Task :=
  now (setImagePreview None) ;;
  form (RHF.setValue (RHF.field "medicalImage") (set_medicalImage None)).

(** [reader.onloadend], [result] being [reader.result] and [files] what
    [event.target.files] holds by then. *)
Definition onloadend (result : option jsstring) (files : list File) : Task :=
  now (setImagePreview result) ;;
  form (RHF.setValue (RHF.field "medicalImage")
          (set_medicalImage (match files with
                             | [] => None
                             | _ :: _ => Some files
                             end))).

(** [handleImageChange], [files] being [event.target.files].  The
    reader's [loadend] is dispatched after [load] and after [error]; on an
    error [onerror] has emptied the file input by then, and the result is
    [null]. *)
Definition handleImageChange (files : list File) : Task :=
  match files with
  | file :: _ =>
      if (MAX_FILE_SIZE <? file_size file)%N then
        now (onMethods (RHF.setError (RHF.field "medicalImage")
                          "Max image size is 10MB.")) ;;
        clearImage
      else if negb (bool_decide (file_type file ∈ ACCEPTED_IMAGE_TYPES))
      then
        now (onMethods
               (RHF.setError (RHF.field "medicalImage")
                  "Only .jpg, .jpeg, .png, .webp and .dicom formats are supported.")) ;;
        clearImage
      else
        now (onMethods (RHF.clearErrors (RHF.field "medicalImage"))) ;;
        match readAsDataURL file with
        | Some uri => onloadend (Some uri) files
        | None => clearImage ;; onloadend None []
        end
  | [] => clearImage
  end.

Definition removeImage : Task :=
  now (setImagePreview None) ;;
  form (RHF.setValue (RHF.field "medicalImage") (set_medicalImage None)) ;;
  form (RHF.setValue (RHF.field "imageDescription")
          (set_imageDescription None)) ;;
  now (onMethods (RHF.clearErrors (RHF.field "medicalImage"))) ;;
  now (onMethods (RHF.clearErrors (RHF.field "imageDescription"))).

(** A controlled input's [field.onChange] in mode [onChange]. *)
Definition onChange (name : list seg) (assign : FormValues -> FormValues)
  : Task :=
  form (RHF.setValue name assign).

(** *** What the user can do

    The controls the rendered page offers, and what each does. *)
Inductive Action :=
| Next
| Previous
| Skip
| Submit
| StartNew
| ChangeName (x : jsstring)
| ChangeAge (x : option number)
| SelectGender (x : jsstring)
| ChangeWeight (x : option number)
| SelectWeightUnit (x : jsstring)
| ChangeHeight (x : option number)
| SelectHeightUnit (x : jsstring)
| ChangeSymptomName (index : nat) (x : jsstring)
| SelectSeverity (index : nat) (x : jsstring)
| AddSymptom
| RemoveSymptom (index : nat)
| ChooseFile (files : list File)
| RemoveImage
| ChangeImageDescription (x : jsstring)
| ChangePastConditions (x : jsstring)
| ChangeCurrentMedications (x : jsstring).

Definition onStep (id : string) (st : State) : bool :=
  bool_decide (stepId (currentStep st) = Some id).

(** Whether the page in state [st] renders the control, enabled.  For
    [Submit]: whether the form can receive a submit event.  The button of
    the last step is disabled while loading and while [formState.isValid]
    is false, a value react-hook-form brings up to date only while it is
    subscribed to, so that it need not agree with the record; and a form
    may be submitted from the keyboard, whatever the step.  A submit is
    taken as possible whenever the wizard is not loading; [handleSubmit]
    validates the record in any case. *)
Definition offered (a : Action) (st : State) : bool :=
  match results st with
  | Some _ => match a with StartNew => true | _ => false end
  | None =>
      match a with
      | StartNew => false
      | Previous => 0 <? currentStep st
      | Skip => onStep "medical-image" st || onStep "medical-history" st
      | Next => currentStep st <? lastStep
      | Submit => negb (isLoading st)
      | ChangeName _ | ChangeAge _ | ChangeWeight _ | ChangeHeight _ =>
          onStep "profile" st
      | SelectGender x =>
          onStep "profile" st && bool_decide (x ∈ genderOptions)
      | SelectWeightUnit x =>
          onStep "profile" st && bool_decide (x ∈ weightUnits)
          && truthy_number (weight (record st))
      | SelectHeightUnit x =>
          onStep "profile" st && bool_decide (x ∈ heightUnits)
          && truthy_number (height (record st))
      | ChangeSymptomName i _ =>
          onStep "symptoms" st
          && bool_decide (i < length (symptoms (record st)))%nat
      | SelectSeverity i x =>
          onStep "symptoms" st
          && bool_decide (i < length (symptoms (record st)))%nat
          && bool_decide (x ∈ severityLevels)
      | AddSymptom => onStep "symptoms" st
      | RemoveSymptom i =>
          onStep "symptoms" st
          && bool_decide (i < length (symptoms (record st)))%nat
          && negb (length (symptoms (record st)) <=? 1)%nat
      | ChooseFile _ | ChangeImageDescription _ => onStep "medical-image" st
      | RemoveImage =>
          onStep "medical-image" st
          && truthy_string (imagePreview st)
      | ChangePastConditions _ | ChangeCurrentMedications _ =>
          onStep "medical-history" st
      end
  end.

Definition renameSymptom (x : jsstring) (s : Symptom) : Symptom :=
  mkSymptom x (symptom_severity s).
Definition regradeSymptom (x : jsstring) (s : Symptom) : Symptom :=
  mkSymptom (symptom_name s) x.

(** The state once the handler of the control and the validations it
    started are done. *)
Definition perform (a : Action) (st : State) : option State :=
  match a with
  | Next => goToNextStep st
  | Previous => Some (goToPreviousStep st)
  | Skip => skipStep st
  | Submit => Some (handleSubmit st).1
  | StartNew => Some (startNewAssessment st)
  | ChangeName x =>
      Some (settle (onChange (RHF.field "name") (set_name x) st))
  | ChangeAge x =>
      Some (settle (onChange (RHF.field "age") (set_age x) st))
  | SelectGender x =>
      Some (settle (onChange (RHF.field "gender") (set_gender x) st))
  | ChangeWeight x =>
      Some (settle (onChange (RHF.field "weight") (set_weight x) st))
  | SelectWeightUnit x =>
      Some (settle (onChange (RHF.field "weightUnit")
                      (set_weightUnit (Some x)) st))
  | ChangeHeight x =>
      Some (settle (onChange (RHF.field "height") (set_height x) st))
  | SelectHeightUnit x =>
      Some (settle (onChange (RHF.field "heightUnit")
                      (set_heightUnit (Some x)) st))
  | ChangeSymptomName i x =>
      Some (settle
              (onChange [Key "symptoms"; Idx i; Key "name"]
                 (fun v =>
                    set_symptoms (alter (renameSymptom x) i (symptoms v)) v)
                 st))
  | SelectSeverity i x =>
      Some (settle
              (onChange [Key "symptoms"; Idx i; Key "severity"]
                 (fun v =>
                    set_symptoms (alter (regradeSymptom x) i (symptoms v)) v)
                 st))
  | AddSymptom => Some (settle (form (RHF.append (mkSymptom [] [])) st))
  | RemoveSymptom i => Some (settle (form (RHF.remove i) st))
  | ChooseFile files => Some (settle (handleImageChange files st))
  | RemoveImage => Some (settle (removeImage st))
  | ChangeImageDescription x =>
      Some (settle (onChange (RHF.field "imageDescription")
                      (set_imageDescription (Some x)) st))
  | ChangePastConditions x =>
      Some (settle
              (onChange [Key "medicalHistory"; Key "pastConditions"]
                 (fun v =>
                    set_medicalHistory
                      (mkMedicalHistoryText (Some x)
                         (currentMedications (medicalHistory v))) v)
                 st))
  | ChangeCurrentMedications x =>
      Some (settle
              (onChange [Key "medicalHistory"; Key "currentMedications"]
                 (fun v =>
                    set_medicalHistory
                      (mkMedicalHistoryText
                         (pastConditions (medicalHistory v)) (Some x)) v)
                 st))
  end.

(** The states a session can be in. *)
Inductive reachable : State -> Prop :=
| reachable_initial : reachable initial
| reachable_step a st st' :
    reachable st -> offered a st = true -> perform a st = Some st' ->
    reachable st'.

End Wizard.

Arguments State : clear implicits.

(** ** What full validation accepts, key by key

    The conditions on the record itself, without the parser: used to state
    what [formSchema] accepts and what each step lets through. *)

Definition nonEmpty (s : jsstring) : bool :=
  match s with
  | [] => false
  | _ :: _ => true
  end.

(** [age]: a number that is an integer and at least 1. *)
Definition ageAccepted (a : option number) : bool :=
  isInteger (Number_ a) && num_le (num 1) (Number_ a).

(** [weight], [height]: absent, or a number above 0. *)
Definition magnitudeAccepted (w : option number) : bool :=
  match w with
  | None => true
  | Some x => num_lt (num 0) x
  end.

(** A magnitude that counts as provided comes with a non-empty unit. *)
Definition unitGiven (w : option number) (u : option jsstring) : bool :=
  if truthy_number w then truthy_string u else true.

Definition profileAccepted (v : FormValues) : bool :=
  nonEmpty (name v) && ageAccepted (age v)
  && magnitudeAccepted (weight v) && magnitudeAccepted (height v)
  && nonEmpty (gender v)
  && unitGiven (weight v) (weightUnit v)
  && unitGiven (height v) (heightUnit v).

Definition symptomAccepted (s : Symptom) : bool :=
  nonEmpty (symptom_name s) && nonEmpty (symptom_severity s).

Definition symptomsAccepted (v : FormValues) : bool :=
  negb (length (symptoms v) =? 0)%nat && forallb symptomAccepted (symptoms v).

(** [medicalImage]: absent, an empty list, or a list whose first file is
    within the size limit and of an accepted type. *)
Definition imageAccepted (v : FormValues) : bool :=
  match medicalImage v with
  | None => true
  | Some files => sizeAccepted files && typeAccepted files
  end.

(** [imageDescription]: at most 1000 code units, and not empty when there
    is an image. *)
Definition descriptionAccepted (v : FormValues) : bool :=
  match imageDescription v with
  | None => true
  | Some d => (length d <=? 1000)%nat
  end
  && (if hasFiles (medicalImage v) then truthy_string (imageDescription v)
      else true).

(** A unit that is absent or one of the options of its select. *)
Definition unitOffered (options : list jsstring) (u : option jsstring)
  : Prop :=
  match u with
  | None => True
  | Some x => x ∈ options
  end.

(** The message [handleImageChange] attaches for a first file it turns
    down. *)
Definition rejection (file : File) : string :=
  if (MAX_FILE_SIZE <? file_size file)%N then "Max image size is 10MB."
  else "Only .jpg, .jpeg, .png, .webp and .dicom formats are supported.".

(** ** Records and collaborators used as examples *)

(** The record of the end-to-end cases: weight 70, no weight unit. *)
Definition jane : FormValues :=
  mkForm (str "Jane") (Some (num 30)) (Some (num 70)) None None None
    (str "Female") [mkSymptom (str "Headache") (str "Mild")]
    (mkMedicalHistoryText None None) None None.

Definition janeKg : FormValues := set_weightUnit (Some (str "kg")) jane.

(** Weight 0, and weight 70 with the age left empty; no unit either way. *)
Definition janeWeightZero : FormValues := set_weight (Some (num 0)) jane.
Definition janeNoAge : FormValues := set_age None jane.

Definition scan : File := mkFile 2048 (str "image/png").

(** An accepted image without a description, with and without an age. *)
Definition janeScan : FormValues := set_medicalImage (Some [scan]) janeKg.
Definition janeScanNoAge : FormValues := set_age None janeScan.

(** Raw history texts: a list with stray commas and spaces, and a blank. *)
Definition janeHistory : FormValues :=
  set_medicalHistory
    (mkMedicalHistoryText (Some (str " Asthma ,, Type 2 diabetes , "))
       (Some (str "  ")))
    janeKg.

(** A gender that is none of the options. *)
Definition janeRobot : FormValues := set_gender (str "Robot") janeKg.

(** A wizard on step [i] holding the record [v], nothing else set. *)
Definition wizardAt (i : Z) (v : FormValues) : State unit :=
  mkState i false None None None (RHF.mkFormState v ∅).

(** A wizard on the image step holding an image and its description,
    with errors left on both fields. *)
Definition wizardWithImage : State unit :=
  mkState 2 false None None (Some (str "data:image/png;base64,AA=="))
    (RHF.mkFormState
       (set_imageDescription (Some (str "Left knee")) janeScan)
       {[ [Key "medicalImage"] := "Max image size is 10MB.";
          [Key "imageDescription"] :=
            "Please provide a description for the uploaded image." ]}).

(** A session that fills the first two steps, picks an image and asks for
    the next step without describing it. *)
Definition undescribedImageSession : list Action :=
  [ChangeName (str "Jane"); ChangeAge (Some (num 30));
   SelectGender (str "Female"); Next;
   ChangeSymptomName 0 (str "Headache"); SelectSeverity 0 (str "Mild"); Next;
   ChooseFile [scan]; Next].

Definition failingAnalysis : AnalyzeSymptomsInput -> option unit :=
  fun _ => None.

Definition someReader : File -> option jsstring :=
  fun _ => Some (str "data:image/png;base64,AA==").

(** An analysis that answers, a reader that fails. *)
Definition someAnalysis : AnalyzeSymptomsInput -> option unit :=
  fun _ => Some tt.

Definition failingReader : File -> option jsstring := fun _ => None.

(** A file above the size limit. *)
Definition bigScan : File := mkFile (11 * 1024 * 1024) (str "image/png").

(** The record with an image and its description. *)
Definition janeDescribed : FormValues :=
  set_imageDescription (Some (str "Left knee")) janeScan.

(** A session that fills the two required steps and skips the optional
    ones, and one that enters a weight and picks its unit. *)
Definition shortestSession : list Action :=
  [ChangeName (str "Jane"); ChangeAge (Some (num 30));
   SelectGender (str "Female"); Next;
   ChangeSymptomName 0 (str "Headache"); SelectSeverity 0 (str "Mild"); Next;
   Skip; Skip].

Definition unitSession : list Action :=
  [ChangeWeight (Some (num 70)); SelectWeightUnit (str "kg")].

(** The actions, one after the other, each on a control the page offers. *)
Fixpoint run {Output} (analyze : AnalyzeSymptomsInput -> option Output)
    (read : File -> option jsstring) (actions : list Action)
    (st : State Output) : option (State Output) :=
  match actions with
  | [] => Some st
  | a :: rest =>
      if offered a st then
        st' ← perform analyze read a st;
        run analyze read rest st'
      else None
  end.

(** ** Facts about the zod embedding *)

Section ZodFacts.

Context {A B : Type}.

Lemma ap_valueOf (rf : ParseReturn (A -> B)) (ra : ParseReturn A) :
  valueOf (rf <*> ra)
  = match valueOf rf, valueOf ra with
    | Some f, Some a => Some (f a)
    | _, _ => None
    end.
Proof.
  unfold valueOf, ap; simpl.
  destruct (result rf), (result ra); reflexivity.
Qed.

Lemma ap_issues (rf : ParseReturn (A -> B)) (ra : ParseReturn A) :
  issues (rf <*> ra) = issues rf ++ issues ra.
Proof. reflexivity. Qed.

Lemma ap_success (rf : ParseReturn (A -> B)) (ra : ParseReturn A) :
  success (rf <*> ra) = success rf && success ra.
Proof.
  unfold success, ap; simpl.
  destruct (result rf), (result ra); reflexivity.
Qed.

Lemma ap_within p (rf : ParseReturn (A -> B)) (ra : ParseReturn A) :
  within p rf -> within p ra -> within p (rf <*> ra).
Proof. unfold within; rewrite ap_issues; apply Forall_app_2. Qed.

Lemma refine_valueOf (pred : A -> bool) msg p (r : ParseReturn A) :
  valueOf (refine pred msg p r) = valueOf r.
Proof.
  unfold valueOf, refine.
  destruct (result r) eqn:E; rewrite ?E; try reflexivity;
    destruct (pred value); simpl; rewrite ?E; reflexivity.
Qed.

Lemma refine_issues (pred : A -> bool) msg p (r : ParseReturn A) :
  issues (refine pred msg p r)
  = issues r ++ match valueOf r with
                | Some v => if pred v then [] else [mkIssue p msg]
                | None => []
                end.
Proof.
  unfold valueOf, refine.
  destruct (result r); rewrite ?app_nil_r; try reflexivity;
    destruct (pred value); simpl; rewrite ?app_nil_r; reflexivity.
Qed.

Lemma refine_success (pred : A -> bool) msg p (r : ParseReturn A) :
  success (refine pred msg p r)
  = success r && match valueOf r with
                 | Some v => pred v
                 | None => true
                 end.
Proof.
  unfold success, valueOf, refine.
  destruct (result r) eqn:E; rewrite ?E; try reflexivity;
    destruct (pred value); simpl; rewrite ?E; reflexivity.
Qed.

Lemma run_checks_valueOf (checks : list (Check A)) p x :
  valueOf (run_checks checks p x) = Some x.
Proof.
  unfold valueOf, run_checks; simpl.
  destruct (List.filter _ checks); reflexivity.
Qed.

Lemma run_checks_within (checks : list (Check A)) p x :
  within p (run_checks checks p x).
Proof.
  unfold within, run_checks; simpl.
  apply Forall_map, Forall_forall; intros c _; reflexivity.
Qed.

Lemma run_checks_consistent (checks : list (Check A)) p x :
  consistent (run_checks checks p x).
Proof.
  unfold consistent, success, run_checks; simpl.
  destruct (List.filter _ checks); simpl; split; congruence.
Qed.

Lemma ap_consistent (rf : ParseReturn (A -> B)) (ra : ParseReturn A) :
  consistent rf -> consistent ra -> consistent (rf <*> ra).
Proof.
  unfold consistent; intros Hf Ha.
  rewrite ap_success, ap_issues, andb_true_iff, Hf, Ha.
  split.
  - intros [-> ->]; reflexivity.
  - intros H; apply app_eq_nil in H; exact H.
Qed.

Lemma refine_consistent (pred : A -> bool) msg p (r : ParseReturn A) :
  consistent r -> consistent (refine pred msg p r).
Proof.
  unfold consistent; intros Hr.
  rewrite refine_success, refine_issues, andb_true_iff, Hr.
  destruct (valueOf r) as [v|]; [destruct (pred v)|]; split;
    try (intros [-> _]; reflexivity);
    try (intros [_ ?]; discriminate);
    try (intros H; apply app_eq_nil in H; destruct H; split; congruence);
    intros H; destruct (issues r); discriminate.
Qed.

End ZodFacts.

Lemma pure_consistent {O} (v : O) : consistent (pure v).
Proof. split; reflexivity. Qed.

Lemma pure_within {O} p (v : O) : within p (pure v).
Proof. constructor. Qed.

Lemma within_weaken {O} p q (r : ParseReturn O) :
  p `prefix_of` q -> within q r -> within p r.
Proof.
  unfold within; intros Hpq Hq.
  eapply Forall_impl; [exact Hq |]; intros i Hi.
  by transitivity q.
Qed.

Lemma z_coerce_number_consistent checks p x :
  consistent (z_coerce_number checks p x).
Proof.
  destruct x; try apply run_checks_consistent.
  split; discriminate.
Qed.

Lemma z_coerce_number_within checks p x : within p (z_coerce_number checks p x).
Proof.
  destruct x; try apply run_checks_within.
  apply Forall_cons; split; [reflexivity | constructor].
Qed.

Lemma z_coerce_number_valueOf checks p x :
  valueOf (z_coerce_number checks p x) = if isNaN x then None else Some x.
Proof. destruct x; try apply run_checks_valueOf; reflexivity. Qed.

Lemma z_optional_consistent {I O} (inner : list seg -> I -> ParseReturn O) p v :
  (forall x, consistent (inner p x)) -> consistent (z_optional inner p v).
Proof.
  intros H; destruct v as [x|]; [| split; reflexivity].
  specialize (H x); unfold consistent, success in *; simpl.
  destruct (result (inner p x)); exact H.
Qed.

Lemma z_optional_within {I O} (inner : list seg -> I -> ParseReturn O) p v :
  (forall x, within p (inner p x)) -> within p (z_optional inner p v).
Proof. intros H; destruct v as [x|]; [apply H | constructor]. Qed.

Lemma z_optional_valueOf {I O} (inner : list seg -> I -> ParseReturn O) p v :
  valueOf (z_optional inner p v)
  = match v with
    | None => Some None
    | Some x => Some <$> valueOf (inner p x)
    end.
Proof.
  destruct v as [x|]; [| reflexivity].
  unfold valueOf; simpl; destruct (result (inner p x)); reflexivity.
Qed.

Lemma refine_within {O} (pred : O -> bool) msg p q (r : ParseReturn O) :
  p `prefix_of` q -> within p r -> within p (refine pred msg q r).
Proof.
  unfold within; intros Hpq Hr; rewrite refine_issues.
  apply Forall_app_2; [exact Hr |].
  destruct (valueOf r) as [v|]; [destruct (pred v)|];
    repeat constructor; exact Hpq.
Qed.

(** *** The schemas of the form *)

Lemma symptomSchema_consistent p s : consistent (symptomSchema p s).
Proof.
  repeat apply ap_consistent;
    auto using pure_consistent, run_checks_consistent.
Qed.

Lemma symptomSchema_within p s : within p (symptomSchema p s).
Proof.
  repeat apply ap_within; try apply pure_within;
    (eapply within_weaken; [| apply run_checks_within]);
    by apply prefix_app_r.
Qed.

Lemma symptomSchema_valueOf p s : valueOf (symptomSchema p s) = Some s.
Proof.
  unfold symptomSchema, z_string.
  rewrite !ap_valueOf, !run_checks_valueOf; destruct s; reflexivity.
Qed.

Lemma parse_items_symptoms p i l :
  consistent (parse_items symptomSchema p i l)
  /\ within p (parse_items symptomSchema p i l)
  /\ valueOf (parse_items symptomSchema p i l) = Some l.
Proof.
  revert i; induction l as [|s l IH]; intros i; simpl.
  - split; [apply pure_consistent | split; [apply pure_within | reflexivity]].
  - destruct (IH (S i)) as (Hc & Hw & Hv).
    split; [| split].
    + apply ap_consistent; [apply ap_consistent |]; trivial.
      * apply pure_consistent.
      * apply symptomSchema_consistent.
    + apply ap_within; [apply ap_within |]; trivial.
      * apply pure_within.
      * eapply within_weaken; [| apply symptomSchema_within].
        by apply prefix_app_r.
    + rewrite !ap_valueOf, symptomSchema_valueOf, Hv; reflexivity.
Qed.

Lemma symptoms_array p l :
  let r := z_array_min symptomSchema 1 "Please add at least one symptom." p l in
  consistent r /\ within p r /\ valueOf r = Some l.
Proof.
  destruct (parse_items_symptoms p 0 l) as (Hc & Hw & Hv).
  unfold z_array_min; simpl.
  split; [| split].
  - apply ap_consistent; [| exact Hc].
    destruct (length l <? 1)%nat; split; done.
  - apply ap_within; [| exact Hw].
    destruct (length l <? 1)%nat; [| apply pure_within].
    constructor; [reflexivity | constructor].
  - rewrite ap_valueOf, Hv.
    destruct (length l <? 1)%nat; reflexivity.
Qed.

Lemma medicalHistorySchema_facts p h :
  consistent (medicalHistorySchema p h)
  /\ issues (medicalHistorySchema p h) = []
  /\ valueOf (medicalHistorySchema p h) = Some h.
Proof.
  destruct h as [[c|] [m|]]; repeat split; reflexivity.
Qed.

Lemma medicalImageSchema_facts p v :
  let r := medicalImageSchema p v in
  consistent r /\ within p r /\ valueOf r = Some v.
Proof.
  unfold medicalImageSchema; simpl; split; [| split].
  - apply z_optional_consistent; intros files.
    repeat apply refine_consistent; apply pure_consistent.
  - apply z_optional_within; intros files.
    repeat apply refine_within; try reflexivity; apply pure_within.
  - rewrite z_optional_valueOf; destruct v as [files|]; [| reflexivity].
    rewrite !refine_valueOf; reflexivity.
Qed.

Lemma formObject_valueOf v :
  valueOf (formObject v) = if numbersParse v then Some (coerced v) else None.
Proof.
  unfold formObject, z_string, numbersParse.
  rewrite !ap_valueOf, !run_checks_valueOf, !z_optional_valueOf,
    !z_coerce_number_valueOf.
  destruct (symptoms_array [Key "symptoms"] (symptoms v)) as (_ & _ & ->).
  destruct (medicalHistorySchema_facts [Key "medicalHistory"]
              (medicalHistory v)) as (_ & _ & ->).
  destruct (medicalImageSchema_facts [Key "medicalImage"] (medicalImage v))
    as (_ & _ & ->).
  destruct v as [n a w wu h hu g s mh mi d]; unfold coerced; simpl.
  destruct (Number_ a); simpl; try reflexivity;
    destruct w as [[]|], h as [[]|], wu, hu, d; simpl;
    rewrite ?run_checks_valueOf; reflexivity.
Qed.

Lemma formObject_consistent v : consistent (formObject v).
Proof.
  unfold formObject, z_string.
  repeat (apply ap_consistent;
          [| first [ apply run_checks_consistent
                   | apply z_coerce_number_consistent
                   | apply z_optional_consistent; intros;
                     first [ apply run_checks_consistent
                           | apply z_coerce_number_consistent ]
                   | apply symptoms_array
                   | apply medicalHistorySchema_facts
                   | apply medicalImageSchema_facts ]]).
  apply pure_consistent.
Qed.

Lemma formSchema_valueOf v : valueOf (formSchema v) = valueOf (formObject v).
Proof. unfold formSchema; rewrite !refine_valueOf; reflexivity. Qed.

(** The issues of a full validation: those of the keys, then those of the
    refinements, which run only when no key aborted. *)
Lemma formSchema_issues v :
  issues (formSchema v)
  = issues (formObject v)
    ++ (if numbersParse v then ruleIssues (coerced v) else []).
Proof.
  unfold formSchema.
  rewrite !refine_issues, !refine_valueOf, formObject_valueOf.
  unfold ruleIssues.
  destruct (numbersParse v); rewrite <- ?app_assoc; reflexivity.
Qed.

Lemma formSchema_consistent v : consistent (formSchema v).
Proof. repeat apply refine_consistent; apply formObject_consistent. Qed.

Lemma fullValidation_issues v :
  fullValidation v = true <-> issues (formSchema v) = [].
Proof. apply formSchema_consistent. Qed.

Lemma fullValidation_data v :
  fullValidation v = true -> result (formSchema v) = OK (coerced v).
Proof.
  unfold fullValidation, success; intros H.
  pose proof (formSchema_valueOf v) as Hv.
  rewrite formObject_valueOf in Hv; unfold valueOf in Hv.
  destruct (result (formSchema v)); try discriminate.
  destruct (numbersParse v); congruence.
Qed.

(** An error on a field makes full validation fail. *)
Lemma errorOn_fails k v : errorOn k v -> fullValidation v = false.
Proof.
  unfold errorOn; intros H.
  destruct (fullValidation v) eqn:E; [| reflexivity].
  apply fullValidation_issues in E; rewrite E in H.
  by apply Exists_nil in H.
Qed.

Lemma issue_errorOn k i v :
  i ∈ issues (formSchema v) -> [Key k] `prefix_of` path i -> errorOn k v.
Proof. intros Hi Hp; apply Exists_exists; exists i; split; assumption. Qed.

Lemma object_issue i v : i ∈ issues (formObject v) -> i ∈ issues (formSchema v).
Proof. rewrite formSchema_issues, elem_of_app; auto. Qed.

(** *** Which field an issue is attached to *)

Lemma foreign_issue {O} k k' (r : ParseReturn O) :
  within [Key k'] r -> k <> k' -> ~ Exists (attachedTo k) (issues r).
Proof.
  unfold within, attachedTo; rewrite Forall_forall, Exists_exists.
  intros Hw Hne (i & Hi & [t Ht]).
  destruct (Hw i Hi) as [t' Ht'].
  rewrite Ht in Ht'; simpl in Ht'; congruence.
Qed.

Lemma medicalHistorySchema_within p h : within p (medicalHistorySchema p h).
Proof.
  unfold within.
  destruct (medicalHistorySchema_facts p h) as (_ & -> & _); constructor.
Qed.

Ltac within_field :=
  first [ apply run_checks_within
        | apply z_coerce_number_within
        | apply z_optional_within; intros;
          first [ apply run_checks_within | apply z_coerce_number_within ]
        | apply symptoms_array
        | apply medicalHistorySchema_within
        | apply medicalImageSchema_facts ].

(** Splits a hypothesis on the issues of the keys into the keys, and
    dismisses those with another name. *)
Ltac own_field H :=
  unfold formObject, z_string in H;
  rewrite !ap_issues, !Exists_app in H;
  repeat match type of H with
    | _ \/ _ => destruct H as [H | H]
    end;
  try (apply Exists_nil in H; contradiction);
  try (exfalso; revert H; eapply foreign_issue; [within_field | discriminate]).

Lemma weightUnit_no_key_issue v :
  ~ Exists (attachedTo "weightUnit") (issues (formObject v)).
Proof.
  intros H; own_field H.
  destruct (weightUnit v); apply Exists_nil in H; contradiction.
Qed.

Lemma heightUnit_no_key_issue v :
  ~ Exists (attachedTo "heightUnit") (issues (formObject v)).
Proof.
  intros H; own_field H.
  destruct (heightUnit v); apply Exists_nil in H; contradiction.
Qed.

Lemma medicalImage_key_issue v :
  Exists (attachedTo "medicalImage") (issues (formObject v)) ->
  exists files, medicalImage v = Some files
                /\ (sizeAccepted files = false \/ typeAccepted files = false).
Proof.
  intros H; own_field H.
  destruct (medicalImage v) as [files|];
    [| apply Exists_nil in H; contradiction].
  exists files; split; [reflexivity |].
  destruct (sizeAccepted files) eqn:Es; [| by left].
  destruct (typeAccepted files) eqn:Et; [| by right].
  exfalso; revert H; unfold medicalImageSchema; simpl.
  rewrite !refine_issues, !refine_valueOf; simpl.
  rewrite Es, Et; simpl; apply Exists_nil.
Qed.

Lemma imageDescription_key_issue v :
  Exists (attachedTo "imageDescription") (issues (formObject v)) ->
  exists d, imageDescription v = Some d /\ (1000 < length d)%nat.
Proof.
  intros H; own_field H.
  destruct (imageDescription v) as [d|];
    [| apply Exists_nil in H; contradiction].
  exists d; split; [reflexivity |].
  revert H; unfold run_checks; simpl.
  destruct (1000 <? length d)%nat eqn:E; simpl.
  - intros _; by apply Nat.ltb_lt.
  - intros H; apply Exists_nil in H; contradiction.
Qed.

(** The refinement issues, by field. *)
Lemma rule_attached k data :
  Exists (attachedTo k) (ruleIssues data) <->
  (k = "weightUnit" /\ weightUnitRule data = false)
  \/ (k = "heightUnit" /\ heightUnitRule data = false)
  \/ (k = "imageDescription" /\ imageDescriptionRule data = false).
Proof.
  unfold ruleIssues, attachedTo; rewrite !Exists_app.
  destruct (weightUnitRule data), (heightUnitRule data),
    (imageDescriptionRule data);
    rewrite ?Exists_cons, ?Exists_nil; simpl;
    split; intros H;
    repeat match goal with
      | H : _ \/ _ |- _ => destruct H as [H | H]
      | H : _ /\ _ |- _ => destruct H as [? H]
      | H : False |- _ => contradiction
      | H : _ `prefix_of` _ |- _ =>
          let t := fresh in destruct H as [t H]; simpl in H; simplify_eq
      | H : false = true |- _ => discriminate
      | H : true = false |- _ => discriminate
      end; subst; auto 7 using prefix_cons, prefix_nil.
Qed.

(** Errors of a full validation on the three fields the refinements
    guard, in terms of the record. *)
Lemma errorOn_weightUnit v :
  errorOn "weightUnit" v <->
  numbersParse v = true /\ truthy_number (weight v) = true
  /\ truthy_string (weightUnit v) = false.
Proof.
  unfold errorOn; rewrite formSchema_issues, Exists_app.
  split.
  - intros [H | H]; [by apply weightUnit_no_key_issue in H |].
    destruct (numbersParse v); [| by apply Exists_nil in H].
    apply rule_attached in H as [[_ H] | [[? _] | [? _]]]; try discriminate.
    unfold weightUnitRule in H; simpl in H.
    destruct (truthy_number (weight v)); [auto | discriminate].
  - intros (-> & Hw & Hu); right; apply rule_attached; left.
    split; [reflexivity |].
    unfold weightUnitRule; simpl; rewrite Hw; exact Hu.
Qed.

Lemma errorOn_heightUnit v :
  errorOn "heightUnit" v <->
  numbersParse v = true /\ truthy_number (height v) = true
  /\ truthy_string (heightUnit v) = false.
Proof.
  unfold errorOn; rewrite formSchema_issues, Exists_app.
  split.
  - intros [H | H]; [by apply heightUnit_no_key_issue in H |].
    destruct (numbersParse v); [| by apply Exists_nil in H].
    apply rule_attached in H as [[? _] | [[_ H] | [? _]]]; try discriminate.
    unfold heightUnitRule in H; simpl in H.
    destruct (truthy_number (height v)); [auto | discriminate].
  - intros (-> & Hw & Hu); right; apply rule_attached; right; left.
    split; [reflexivity |].
    unfold heightUnitRule; simpl; rewrite Hw; exact Hu.
Qed.

Lemma errorOn_imageDescription v :
  errorOn "imageDescription" v <->
  (exists d, imageDescription v = Some d /\ (1000 < length d)%nat)
  \/ (numbersParse v = true /\ hasFiles (medicalImage v) = true
      /\ truthy_string (imageDescription v) = false).
Proof.
  unfold errorOn; rewrite formSchema_issues, Exists_app.
  split.
  - intros [H | H]; [left; by apply imageDescription_key_issue |].
    destruct (numbersParse v); [| by apply Exists_nil in H].
    apply rule_attached in H as [[? _] | [[? _] | [_ H]]]; try discriminate.
    right; unfold imageDescriptionRule in H; simpl in H.
    destruct (hasFiles (medicalImage v)); [auto | discriminate].
  - intros [(d & Hd & Hlen) | (-> & Hf & Hd)].
    + left; apply Exists_exists.
      exists (mkIssue [Key "imageDescription"]
                "Description must be less than 1000 characters").
      split; [| by exists []].
      unfold formObject; rewrite !ap_issues, !elem_of_app; right.
      rewrite Hd; unfold z_optional, z_string, run_checks; simpl.
      apply Nat.ltb_lt in Hlen; rewrite Hlen; simpl; by left.
    + right; apply rule_attached; right; right.
      split; [reflexivity |].
      unfold imageDescriptionRule; simpl; rewrite Hf; exact Hd.
Qed.

Lemma errorOn_medicalImage v :
  errorOn "medicalImage" v ->
  exists files, medicalImage v = Some files
                /\ (sizeAccepted files = false \/ typeAccepted files = false).
Proof.
  unfold errorOn; rewrite formSchema_issues, Exists_app.
  intros [H | H]; [by apply medicalImage_key_issue |].
  destruct (numbersParse v); [| by apply Exists_nil in H].
  apply rule_attached in H as [[? _] | [[? _] | [? _]]]; discriminate.
Qed.

(** ** Facts about the form's [methods] *)

Lemma get_lookup (errs : gmap (list seg) string) n p :
  RHF.get errs n !! p = if decide (n `prefix_of` p) then errs !! p else None.
Proof.
  unfold RHF.get; rewrite map_lookup_filter.
  destruct (decide (n `prefix_of` p)), (errs !! p); simpl;
    try reflexivity; by case_guard.
Qed.

Lemma unset_lookup (errs : gmap (list seg) string) n p :
  RHF.unset errs n !! p = if decide (n `prefix_of` p) then None else errs !! p.
Proof.
  unfold RHF.unset; rewrite map_lookup_filter.
  destruct (decide (n `prefix_of` p)), (errs !! p); simpl;
    try reflexivity; by case_guard.
Qed.

(** Writing the outcome of a validation for [n]: below [n] the errors are
    the resolver's, elsewhere they are as before. *)
Lemma updateError_lookup (new errs : gmap (list seg) string) n p :
  RHF.updateError new errs n !! p
  = if decide (n `prefix_of` p) then new !! p else errs !! p.
Proof.
  unfold RHF.updateError, RHF.set.
  case_bool_decide as He.
  - rewrite unset_lookup; case_decide; [| reflexivity].
    pose proof (get_lookup new n p) as Hg.
    rewrite He, lookup_empty in Hg.
    by rewrite decide_True in Hg.
  - rewrite lookup_union, get_lookup, unset_lookup.
    case_decide; [| by rewrite (left_id None _)].
    by rewrite (right_id None _).
Qed.

Lemma trigger_lookup names m p :
  RHF.errors (RHF.trigger names m).2 !! p
  = if decide (Exists (fun n => n `prefix_of` p) names)
    then (RHF.zodResolver (RHF.values m)).2 !! p
    else RHF.errors m !! p.
Proof.
  unfold RHF.trigger.
  change (RHF.errors (_, ?m).2) with (RHF.errors m).
  change (RHF.errors (RHF.mkFormState _ ?e)) with e.
  generalize (RHF.errors m) as errs.
  set (new := (RHF.zodResolver (RHF.values m)).2).
  induction names as [|n names IH]; intros errs.
  - destruct (decide _) as [H|]; [by apply Exists_nil in H | reflexivity].
  - change (foldl ?f errs (n :: names)) with (foldl f (f errs n) names).
    rewrite IH, updateError_lookup.
    destruct (decide (Exists _ names)), (decide (n `prefix_of` p)),
      (decide (Exists _ (n :: names))) as [H|H];
      try reflexivity; exfalso; rewrite Exists_cons in H; tauto.
Qed.

Lemma hasError_true (errs : gmap (list seg) string) n :
  RHF.hasError errs n = true <->
  exists p, n `prefix_of` p /\ is_Some (errs !! p).
Proof.
  unfold RHF.hasError; rewrite bool_decide_eq_true; split.
  - intros H; apply map_choose in H as (p & x & Hp).
    rewrite get_lookup in Hp; case_decide; [| discriminate].
    exists p; split; [assumption | by exists x].
  - intros (p & Hn & [x Hx]) He.
    pose proof (get_lookup errs n p) as Hg.
    rewrite He, lookup_empty, decide_True, Hx in Hg by assumption.
    discriminate.
Qed.

Lemma hasError_false (errs : gmap (list seg) string) n :
  RHF.hasError errs n = false <->
  forall p, n `prefix_of` p -> errs !! p = None.
Proof.
  rewrite <- not_true_iff_false, hasError_true; split.
  - intros H p Hp; destruct (errs !! p) eqn:E; [| reflexivity].
    exfalso; apply H; exists p; split; [assumption | by rewrite E].
  - intros H (p & Hp & [x Hx]); rewrite (H p Hp) in Hx; discriminate.
Qed.

Lemma toErrors_lookup zodErrors p :
  is_Some (RHF.toErrors zodErrors !! p) <->
  exists i, i ∈ zodErrors /\ path i = p.
Proof.
  unfold RHF.toErrors.
  rewrite <- not_eq_None_Some, <- not_elem_of_list_to_map.
  rewrite <- list_fmap_compose.
  split.
  - intros H; apply dec_stable in H.
    apply list_elem_of_fmap in H as (i & -> & Hi); by exists i.
  - intros (i & Hi & <-) H; apply H.
    apply list_elem_of_fmap; by exists i.
Qed.

Lemma zodResolver_errors v p :
  is_Some ((RHF.zodResolver v).2 !! p) <->
  exists i, i ∈ issues (formSchema v) /\ path i = p.
Proof.
  unfold RHF.zodResolver.
  destruct (result (formSchema v)) eqn:E; simpl;
    try apply toErrors_lookup.
  assert (Hs : fullValidation v = true)
    by (unfold fullValidation, success; by rewrite E).
  apply fullValidation_issues in Hs; rewrite Hs, lookup_empty.
  split; [by intros [? ?] | intros (i & Hi & _); by apply elem_of_nil in Hi].
Qed.

Lemma zodResolver_data v :
  (RHF.zodResolver v).1 = if fullValidation v then Some (coerced v) else None.
Proof.
  unfold RHF.zodResolver.
  destruct (fullValidation v) eqn:Hs.
  - by rewrite (fullValidation_data v Hs).
  - unfold fullValidation, success in Hs.
    destruct (result (formSchema v)); simpl; congruence.
Qed.

Lemma zodResolver_valid v : fullValidation v = true -> (RHF.zodResolver v).2 = ∅.
Proof.
  intros Hs; unfold RHF.zodResolver; by rewrite (fullValidation_data v Hs).
Qed.

(** The resolver reports an error below a field exactly when full
    validation attaches an issue to it. *)
Lemma zodResolver_hasError v k :
  RHF.hasError (RHF.zodResolver v).2 (RHF.field k) = true <-> errorOn k v.
Proof.
  rewrite hasError_true; unfold errorOn, attachedTo, RHF.field.
  rewrite Exists_exists; split.
  - intros (p & Hp & Hs); apply zodResolver_errors in Hs as (i & Hi & <-).
    by exists i.
  - intros (i & Hi & Hp); exists (path i); split; [assumption |].
    apply zodResolver_errors; by exists i.
Qed.

Lemma forallb_false {A} (f : A -> bool) (l : list A) :
  forallb f l = false <-> exists x, x ∈ l /\ f x = false.
Proof.
  induction l as [|a l IH]; simpl.
  - split; [discriminate | intros (x & Hx & _); by apply elem_of_nil in Hx].
  - rewrite andb_false_iff, IH; split.
    + intros [Ha | (x & Hx & Hf)]; [exists a | exists x]; split; trivial;
        [apply list_elem_of_here | by apply list_elem_of_further].
    + intros (x & Hx & Hf); apply elem_of_cons in Hx as [-> | Hx];
        [by left | right; by exists x].
Qed.

Lemma trigger_valid names m :
  (RHF.trigger names m).1 = false <-> scopeInvalid names (RHF.values m).
Proof.
  unfold RHF.trigger, scopeInvalid; simpl.
  rewrite forallb_false, !Exists_exists. split.
  - intros (n & Hn & Hb).
    apply negb_false_iff, hasError_true in Hb as (p & Hp & Hs).
    apply zodResolver_errors in Hs as (i & Hi & <-).
    exists i; split; [assumption |].
    apply Exists_exists; by exists n.
  - intros (i & Hi & Hex); apply Exists_exists in Hex as (n & Hn & Hp).
    exists n; split; [assumption |].
    apply negb_false_iff, hasError_true.
    exists (path i); split; [assumption |].
    apply zodResolver_errors; by exists i.
Qed.

Lemma complete_values m vs :
  RHF.values (foldl RHF.complete m vs) = RHF.values m.
Proof.
  revert m; induction vs as [|v vs IH]; intros m; [done |].
  exact (IH (RHF.complete m v)).
Qed.

Lemma stepId_inv i id :
  stepId i = Some id ->
  (i = 0 /\ id = "profile") \/ (i = 1 /\ id = "symptoms")
  \/ (i = 2 /\ id = "medical-image") \/ (i = 3 /\ id = "medical-history")
  \/ (i = 4 /\ id = "review").
Proof.
  unfold stepId; destruct (i <? 0) eqn:E; [discriminate |].
  apply Z.ltb_ge in E.
  destruct (Z.to_nat i) as [|[|[|[|[|n]]]]] eqn:En; simpl; intros [= <-];
    [ left | right; left | do 2 right; left | do 3 right; left
    | do 4 right ]; split; (lia || reflexivity).
Qed.

(** *** Aborted parses and the profile scope *)

(** The parse of a record is aborted exactly when one of its three
    numbers does not parse. *)
Lemma formObject_aborted v : isAborted (formObject v) = negb (numbersParse v).
Proof.
  pose proof (formObject_valueOf v) as H.
  unfold valueOf in H; unfold isAborted.
  destruct (result (formObject v)), (numbersParse v); simpl; congruence.
Qed.

Lemma formSchema_aborted v : isAborted (formSchema v) = negb (numbersParse v).
Proof.
  pose proof (formSchema_valueOf v) as H.
  rewrite formObject_valueOf in H.
  unfold valueOf in H; unfold isAborted.
  destruct (result (formSchema v)), (numbersParse v); simpl; congruence.
Qed.

Lemma errorOn_scope k names v :
  RHF.field k ∈ names -> errorOn k v -> scopeInvalid names v.
Proof.
  intros Hk He; unfold scopeInvalid.
  eapply Exists_impl; [exact He |].
  intros i Hi; apply Exists_exists; by exists (RHF.field k).
Qed.

Lemma nan_issue v :
  numbersParse v = false ->
  errorOn "age" v \/ errorOn "weight" v \/ errorOn "height" v.
Proof.
  unfold numbersParse; rewrite !andb_false_iff, !negb_false_iff.
  set (i := fun k => mkIssue [Key k] "Expected number, received nan").
  intros [[H | H] | H]; [left | right; left | right; right].
  - apply (issue_errorOn _ (i "age")); [| by exists []].
    apply object_issue; unfold formObject; rewrite !ap_issues, !elem_of_app.
    do 9 left; right.
    destruct (Number_ (age v)); try discriminate; apply list_elem_of_here.
  - apply (issue_errorOn _ (i "weight")); [| by exists []].
    apply object_issue; unfold formObject; rewrite !ap_issues, !elem_of_app.
    do 8 left; right.
    destruct (weight v) as [[]|]; try discriminate; apply list_elem_of_here.
  - apply (issue_errorOn _ (i "height")); [| by exists []].
    apply object_issue; unfold formObject; rewrite !ap_issues, !elem_of_app.
    do 6 left; right.
    destruct (height v) as [[]|]; try discriminate; apply list_elem_of_here.
Qed.

Lemma profileFields_keys k :
  k ∈ ["name"; "age"; "gender"; "weight"; "weightUnit"; "height";
       "heightUnit"] ->
  RHF.field k ∈ profileFields.
Proof.
  intros H; change profileFields
    with (RHF.field <$> ["name"; "age"; "gender"; "weight"; "weightUnit";
                         "height"; "heightUnit"]).
  apply list_elem_of_fmap; by exists k.
Qed.

Lemma weight_without_unit_rejected v :
  truthy_number (weight v) = true -> truthy_string (weightUnit v) = false ->
  scopeInvalid profileFields v.
Proof.
  intros Hw Hu; destruct (numbersParse v) eqn:Hp.
  - apply (errorOn_scope "weightUnit");
      [apply profileFields_keys; set_solver | by apply errorOn_weightUnit].
  - apply nan_issue in Hp as [H | [H | H]];
      [ apply (errorOn_scope "age") | apply (errorOn_scope "weight")
      | apply (errorOn_scope "height") ]; trivial;
      apply profileFields_keys; set_solver.
Qed.

Lemma toErrors_first l1 p m l2 :
  (forall j, j ∈ l1 -> path j <> p) ->
  RHF.toErrors (l1 ++ mkIssue p m :: l2) !! p = Some m.
Proof.
  unfold RHF.toErrors; induction l1 as [|j l1 IH]; intros H; simpl.
  - apply lookup_insert_eq.
  - rewrite lookup_insert_ne; [apply IH | apply H, list_elem_of_here].
    intros j' Hj; by apply H, list_elem_of_further.
Qed.

Lemma weightUnit_message v :
  numbersParse v = true -> truthy_number (weight v) = true ->
  truthy_string (weightUnit v) = false ->
  (RHF.zodResolver v).2 !! [Key "weightUnit"]
  = Some "Weight unit is required if weight is provided.".
Proof.
  intros Hp Hw Hu.
  assert (He : errorOn "weightUnit" v) by by apply errorOn_weightUnit.
  apply errorOn_fails in He.
  unfold RHF.zodResolver.
  unfold fullValidation, success in He.
  destruct (result (formSchema v)) eqn:Er; try discriminate; simpl;
    rewrite formSchema_issues, Hp; unfold ruleIssues, weightUnitRule;
    simpl; rewrite Hw, Hu; simpl;
    apply toErrors_first; intros j Hj Hpath;
    apply (weightUnit_no_key_issue v), Exists_exists;
    exists j; (split; [exact Hj |]); unfold attachedTo; by rewrite Hpath.
Qed.

(** ** Navigation *)

(** A validated forward move: the record is kept, the errors of the
    scope are replaced by the resolver's and no other; the step moves
    exactly when the scope is valid. *)
Lemma validateThenAdvance_facts {Output} names (st : State Output) :
  let st' := validateThenAdvance names st in
  record st' = record st
  /\ (forall p,
        formErrors st' !! p
        = if decide (Exists (fun n => n `prefix_of` p) names)
          then (RHF.zodResolver (record st)).2 !! p
          else formErrors st !! p)
  /\ (scopeInvalid names (record st) -> currentStep st' = currentStep st)
  /\ (~ scopeInvalid names (record st) ->
      currentStep st' = Z.min (currentStep st + 1) lastStep).
Proof.
  unfold validateThenAdvance.
  pose proof (trigger_valid names (methods st)) as Hv.
  pose proof (trigger_lookup names (methods st)) as Hl.
  destruct (RHF.trigger names (methods st)) as [valid m] eqn:E.
  simpl in Hv, Hl.
  assert (Hm : RHF.values m = record st)
    by (change m with (valid, m).2; rewrite <- E; reflexivity).
  destruct valid; simpl; (split; [exact Hm |]); (split; [exact Hl |]);
    split; intros H; try reflexivity.
  - apply Hv in H; discriminate.
  - exfalso; apply H, Hv; reflexivity.
Qed.

(** C1. [next()] on the profile step validates the seven profile
    fields and no other: the record is kept, the errors at or below those
    names become the resolver's, all others stay; when the scope is
    invalid the step index is unchanged and every issue of the scope is
    exposed in the form's errors; when it is valid the step index becomes
    [min (index + 1) last].  A record with a weight (a non-zero number) and
    no unit is always rejected, with the weight-unit message on
    [weightUnit] whenever no number aborts the parse; so is the record
    Jane (weight 70, no unit), and with unit kg the wizard is on the
    symptoms step afterwards. *)
Theorem next_from_profile {Output} (st : State Output) :
  stepId (currentStep st) = Some "profile" ->
  exists st',
    goToNextStep st = Some st'
    /\ record st' = record st
    /\ (forall p,
          formErrors st' !! p
          = if decide (Exists (fun n => n `prefix_of` p) profileFields)
            then (RHF.zodResolver (record st)).2 !! p
            else formErrors st !! p)
    /\ (scopeInvalid profileFields (record st) ->
        currentStep st' = currentStep st
        /\ forall i,
             i ∈ issues (formSchema (record st)) ->
             Exists (fun n => n `prefix_of` path i) profileFields ->
             is_Some (formErrors st' !! path i))
    /\ (~ scopeInvalid profileFields (record st) ->
        currentStep st' = Z.min (currentStep st + 1) lastStep)
    /\ (truthy_number (weight (record st)) = true ->
        truthy_string (weightUnit (record st)) = false ->
        currentStep st' = currentStep st
        /\ (numbersParse (record st) = true ->
            formErrors st' !! [Key "weightUnit"]
            = Some "Weight unit is required if weight is provided."))
    /\ (record st = jane ->
        currentStep st' = currentStep st
        /\ formErrors st' !! [Key "weightUnit"]
           = Some "Weight unit is required if weight is provided.")
    /\ (record st = janeKg -> stepId (currentStep st') = Some "symptoms").
Proof.
  intros Hid.
  exists (validateThenAdvance profileFields st).
  split; [unfold goToNextStep; rewrite Hid; reflexivity |].
  destruct (validateThenAdvance_facts profileFields st)
    as (Hrec & Herr & Hbad & Hgood).
  split; [exact Hrec |]; split; [exact Herr |].
  assert (Hweight :
            truthy_number (weight (record st)) = true ->
            truthy_string (weightUnit (record st)) = false ->
            currentStep (validateThenAdvance profileFields st)
            = currentStep st
            /\ (numbersParse (record st) = true ->
                formErrors (validateThenAdvance profileFields st)
                  !! [Key "weightUnit"]
                = Some "Weight unit is required if weight is provided.")).
  { intros Hw Hu; split.
    - by apply Hbad, weight_without_unit_rejected.
    - intros Hp; rewrite Herr, decide_True; [by apply weightUnit_message |].
      do 4 apply Exists_cons_tl; apply Exists_cons_hd; reflexivity. }
  split; [| split; [exact Hgood | split; [exact Hweight | split]]].
  - intros Hs; split; [by apply Hbad |].
    intros i Hi Hex; rewrite Herr, decide_True by assumption.
    apply zodResolver_errors; by exists i.
  - intros Hj; rewrite Hj in Hweight.
    destruct (Hweight eq_refl eq_refl) as [Hstay Hmsg].
    split; [exact Hstay | exact (Hmsg eq_refl)].
  - intros Hj.
    apply stepId_inv in Hid as [[Hi _]|[[_ H]|[[_ H]|[[_ H]|[_ H]]]]];
      try discriminate.
    rewrite Hgood, Hi; [reflexivity |].
    rewrite Hj; unfold scopeInvalid.
    replace (issues (formSchema janeKg)) with (@nil ZodIssue)
      by reflexivity.
    intros H; by apply Exists_nil in H.
Qed.

Lemma next_from_profile_witness :
  exists st',
    goToNextStep (wizardAt 0 jane) = Some st'
    /\ currentStep st' = 0
    /\ formErrors st' !! [Key "weightUnit"]
       = Some "Weight unit is required if weight is provided.".
Proof.
  destruct (next_from_profile (wizardAt 0 jane) eq_refl)
    as (st' & Hnext & _ & _ & _ & _ & _ & Hjane & _).
  exists st'; split; [exact Hnext |].
  exact (Hjane eq_refl).
Defined.

(** ** Full validation *)

Lemma aborted_fails v : numbersParse v = false -> fullValidation v = false.
Proof.
  intros H; pose proof (formSchema_valueOf v) as Hv.
  rewrite formObject_valueOf, H in Hv.
  unfold fullValidation, success; unfold valueOf in Hv.
  destruct (result (formSchema v)); congruence.
Qed.

(** C2, as the code has it.  A weight that is a non-zero number without a
    unit (absent or empty) makes full validation fail, and the error is on
    [weightUnit] whenever no number aborts the parse (age is a number,
    weight and height are not NaN); the same for height and
    [heightUnit]. *)
Theorem unit_required_with_magnitude (v : FormValues) :
  (truthy_number (weight v) = true -> truthy_string (weightUnit v) = false ->
   fullValidation v = false
   /\ (numbersParse v = true -> errorOn "weightUnit" v))
  /\ (truthy_number (height v) = true ->
      truthy_string (heightUnit v) = false ->
      fullValidation v = false
      /\ (numbersParse v = true -> errorOn "heightUnit" v)).
Proof.
  split; intros Hm Hu.
  - assert (He : numbersParse v = true -> errorOn "weightUnit" v)
      by (intros Hp; by apply errorOn_weightUnit).
    split; [| exact He].
    destruct (numbersParse v) eqn:Hp; [| by apply aborted_fails].
    eapply errorOn_fails; by apply He.
  - assert (He : numbersParse v = true -> errorOn "heightUnit" v)
      by (intros Hp; by apply errorOn_heightUnit).
    split; [| exact He].
    destruct (numbersParse v) eqn:Hp; [| by apply aborted_fails].
    eapply errorOn_fails; by apply He.
Qed.

Lemma unit_required_with_magnitude_witness :
  fullValidation jane = false /\ errorOn "weightUnit" jane.
Proof.
  destruct (unit_required_with_magnitude jane) as [Hw _].
  destruct (Hw eq_refl eq_refl) as [Hf He].
  split; [exact Hf | exact (He eq_refl)].
Defined.

(** C2 as stated fails: with weight 0 and no unit the only issue is on
    [weight], and with weight 70, no unit and the age left empty the only
    issue is on [age]; no error is attached to [weightUnit]. *)
Lemma weight_without_unit_no_unit_error :
  (weight janeWeightZero = Some (num 0) /\ weightUnit janeWeightZero = None
   /\ issues (formSchema janeWeightZero)
      = [mkIssue [Key "weight"] "Weight must be positive"]
   /\ ~ errorOn "weightUnit" janeWeightZero)
  /\ (weight janeNoAge = Some (num 70) /\ weightUnit janeNoAge = None
      /\ issues (formSchema janeNoAge)
         = [mkIssue [Key "age"] "Expected number, received nan"]
      /\ ~ errorOn "weightUnit" janeNoAge).
Proof.
  repeat split; rewrite errorOn_weightUnit; intros (H1 & H2 & H3);
    discriminate.
Qed.

(** C3, as the code has it.  A non-empty [medicalImage] with an empty or
    absent [imageDescription] makes full validation fail.  The error is on
    [imageDescription] whenever no number aborts the parse; when one does,
    the rule is not run: no error is on [imageDescription], and there is one
    on the number that aborted ([age], [weight] or [height]). *)
Theorem description_required_with_image (v : FormValues) :
  hasFiles (medicalImage v) = true ->
  truthy_string (imageDescription v) = false ->
  fullValidation v = false
  /\ (numbersParse v = true -> errorOn "imageDescription" v)
  /\ (numbersParse v = false ->
      ~ errorOn "imageDescription" v
      /\ (errorOn "age" v \/ errorOn "weight" v \/ errorOn "height" v)).
Proof.
  intros Hf Hd.
  assert (He : numbersParse v = true -> errorOn "imageDescription" v)
    by (intros Hp; apply errorOn_imageDescription; by right).
  split; [| split; [exact He |]].
  - destruct (numbersParse v) eqn:Hp; [| by apply aborted_fails].
    eapply errorOn_fails; by apply He.
  - intros Hp; split; [| by apply nan_issue].
    rewrite errorOn_imageDescription.
    intros [(d & Hsome & Hlong) | (Hp' & _)]; [| congruence].
    rewrite Hsome in Hd; destruct d; [simpl in Hlong; lia | discriminate].
Qed.

Lemma description_required_with_image_witness :
  (fullValidation janeScan = false /\ errorOn "imageDescription" janeScan)
  /\ (fullValidation janeScanNoAge = false
      /\ ~ errorOn "imageDescription" janeScanNoAge
      /\ (errorOn "age" janeScanNoAge \/ errorOn "weight" janeScanNoAge
          \/ errorOn "height" janeScanNoAge)).
Proof.
  destruct (description_required_with_image janeScan eq_refl eq_refl)
    as (Hf & He & _).
  destruct (description_required_with_image janeScanNoAge eq_refl eq_refl)
    as (Hf' & _ & Hno).
  split; [split; [exact Hf | exact (He eq_refl)] |].
  split; [exact Hf' | exact (Hno eq_refl)].
Defined.

(** C3 as stated fails: with an image, no description and the age left
    empty, the only issue is on [age]; no error is attached to
    [imageDescription]. *)
Lemma image_without_description_no_description_error :
  hasFiles (medicalImage janeScanNoAge) = true
  /\ imageDescription janeScanNoAge = None
  /\ issues (formSchema janeScanNoAge)
     = [mkIssue [Key "age"] "Expected number, received nan"]
  /\ ~ errorOn "imageDescription" janeScanNoAge.
Proof.
  repeat split; rewrite errorOn_imageDescription.
  intros [(d & Hd & _) | (Hp & _)]; discriminate.
Qed.

(** ** Submission *)

Lemma handleSubmit_valid {Output} analyze read (st : State Output) :
  fullValidation (record st) = true ->
  handleSubmit analyze read st
  = onSubmit analyze read (coerced (record st))
      (withMethods (RHF.mkFormState (record st) ∅) st).
Proof.
  intros Hv; unfold handleSubmit.
  pose proof (zodResolver_data (record st)) as Hd.
  pose proof (zodResolver_valid (record st) Hv) as He.
  destruct (RHF.zodResolver (record st)) as [data errs]; simpl in Hd, He.
  rewrite Hv in Hd; subst; reflexivity.
Qed.

Lemma handleSubmit_invalid {Output} analyze read (st : State Output) :
  fullValidation (record st) = false ->
  handleSubmit analyze read st
  = (withMethods
       (RHF.mkFormState (record st) (RHF.zodResolver (record st)).2) st,
     []).
Proof.
  intros Hv; unfold handleSubmit.
  pose proof (zodResolver_data (record st)) as Hd.
  destruct (RHF.zodResolver (record st)) as [data errs]; simpl in Hd.
  rewrite Hv in Hd; subst; reflexivity.
Qed.

(** [onSubmit] never touches the step, and whatever happens it ends with
    [isLoading] false. *)
Lemma onSubmit_settles {Output} analyze read data (st : State Output) :
  let r := onSubmit analyze read data st in
  currentStep r.1 = currentStep st /\ isLoading r.1 = false
  /\ methods r.1 = methods st.
Proof.
  unfold onSubmit.
  destruct (medicalImage data) as [[|file files]|]; simpl;
    try destruct (read file); simpl;
    try destruct (analyze _); simpl; auto.
Qed.

Lemma onSubmit_failure {Output} analyze read data (st : State Output) input :
  let r := onSubmit analyze read data st in
  input ∈ r.2 -> analyze input = None ->
  results r.1 = None /\ error r.1 = Some analysisFailure.
Proof.
  unfold onSubmit.
  destruct (medicalImage data) as [[|file files]|]; simpl;
    try destruct (read file); simpl;
    intros Hin Hfail;
    try (apply elem_of_nil in Hin; contradiction);
    apply list_elem_of_singleton in Hin; subst input; rewrite Hfail;
    simpl; auto.
Qed.

(** C4. When the analysis call made by a submission from the review step
    fails, the wizard is on the review step afterwards, not loading, with
    no results and with the analysis message, which is not empty, as its
    error.  No submission changes the step, and none leaves [isLoading]
    set: it is false after every submission that passed validation, and
    untouched by one that did not. *)
Theorem failed_analysis_returns_to_review {Output}
    (analyze : AnalyzeSymptomsInput -> option Output)
    (read : File -> option jsstring) (st : State Output) :
  stepId (currentStep st) = Some "review" ->
  let r := handleSubmit analyze read st in
  (forall input,
     input ∈ r.2 -> analyze input = None ->
     stepId (currentStep r.1) = Some "review"
     /\ isLoading r.1 = false
     /\ results r.1 = None
     /\ error r.1 = Some analysisFailure
     /\ analysisFailure <> "")
  /\ currentStep r.1 = currentStep st
  /\ isLoading r.1 = (if fullValidation (record st) then false
                      else isLoading st).
Proof.
  intros Hid r; subst r.
  destruct (fullValidation (record st)) eqn:Hv.
  - rewrite (handleSubmit_valid analyze read st Hv).
    destruct (onSubmit_settles analyze read (coerced (record st))
                (withMethods (RHF.mkFormState (record st) ∅) st))
      as (Hstep & Hload & _).
    simpl in Hstep.
    split; [| split; assumption].
    intros input Hin Hfail.
    destruct (onSubmit_failure analyze read _ _ input Hin Hfail)
      as (Hres & Herr).
    rewrite Hstep; repeat split; try assumption; discriminate.
  - rewrite (handleSubmit_invalid analyze read st Hv); simpl.
    split; [| split; reflexivity].
    intros input Hin; apply elem_of_nil in Hin; contradiction.
Qed.

Lemma failed_analysis_returns_to_review_witness :
  let r := handleSubmit failingAnalysis someReader (wizardAt 4 janeKg) in
  r.2 = [analysisInput (coerced janeKg) None]
  /\ stepId (currentStep r.1) = Some "review"
  /\ isLoading r.1 = false
  /\ results r.1 = None
  /\ error r.1 = Some analysisFailure.
Proof.
  split; [reflexivity |].
  destruct (failed_analysis_returns_to_review failingAnalysis someReader
              (wizardAt 4 janeKg) eq_refl) as [H _].
  destruct (H (analysisInput (coerced janeKg) None))
    as (H1 & H2 & H3 & H4 & _).
  - apply list_elem_of_here.
  - reflexivity.
  - repeat split; assumption.
Defined.

(** *** Comma-separated text *)

Lemma split_nonempty sep s : split sep s <> [].
Proof.
  destruct s as [|c s]; simpl; [discriminate |].
  destruct (c =? sep)%N; [discriminate |].
  destruct (split sep s); discriminate.
Qed.

Lemma join_split sep s : join sep (split sep s) = s.
Proof.
  induction s as [|c s IH]; simpl; [reflexivity |].
  destruct (c =? sep)%N eqn:E.
  - apply N.eqb_eq in E; subst c.
    pose proof (split_nonempty sep s) as Hne.
    destruct (split sep s) as [|piece rest]; [contradiction |].
    simpl in *; by rewrite IH.
  - pose proof (split_nonempty sep s) as Hne.
    destruct (split sep s) as [|piece rest]; [contradiction |].
    rewrite <- IH; destruct rest; reflexivity.
Qed.

Lemma split_pieces (P : N -> Prop) sep s :
  Forall P s -> Forall (fun piece => Forall P piece /\ sep ∉ piece) (split sep s).
Proof.
  induction 1 as [|c s Hc Hs IH]; simpl.
  - repeat constructor; apply not_elem_of_nil.
  - destruct (c =? sep)%N eqn:E.
    + constructor; [| exact IH].
      split; [constructor | apply not_elem_of_nil].
    + apply N.eqb_neq in E.
      destruct (split sep s) as [|piece rest].
      { repeat constructor; trivial.
        rewrite not_elem_of_cons; split;
          [congruence | apply not_elem_of_nil]. }
      apply Forall_cons in IH as [[Hp Hn] Hrest].
      constructor; [| exact Hrest].
      split; [by constructor |].
      rewrite not_elem_of_cons; split; [congruence | exact Hn].
Qed.

Lemma trimStart_spec s :
  exists l, s = l ++ trimStart s /\ blank l /\ startsClean (trimStart s).
Proof.
  induction s as [|c s (l & Hs & Hl & Hc)]; simpl.
  - exists []; repeat split; [constructor | intros ? ? [=]].
  - destruct (isWhiteSpace c) eqn:E.
    + exists (c :: l); repeat split; [by rewrite Hs at 1 | by constructor
                                      | exact Hc].
    + exists []; repeat split; [constructor |].
      intros c' t' [= <- _]; exact E.
Qed.

Lemma trimStart_blank s : blank s -> trimStart s = [].
Proof.
  induction 1 as [|c s Hc _ IH]; simpl; [reflexivity | by rewrite Hc].
Qed.

Lemma blank_rev s : blank s -> blank (rev s).
Proof. apply Forall_rev. Qed.

Lemma trimEnd_spec s :
  exists r, s = trimEnd s ++ r /\ blank r /\ startsClean (rev (trimEnd s)).
Proof.
  unfold trimEnd.
  destruct (trimStart_spec (rev s)) as (l & Hs & Hl & Hc).
  exists (rev l); split; [| split].
  - rewrite <- rev_app_distr, <- Hs; by rewrite rev_involutive.
  - by apply blank_rev.
  - by rewrite rev_involutive.
Qed.

Lemma trim_spec piece : trimmedFrom piece (trim piece).
Proof.
  unfold trim.
  destruct (trimStart_spec piece) as (l & Hs & Hl & Hc).
  destruct (trimEnd_spec (trimStart piece)) as (r & He & Hr & Hce).
  exists l, r; split; [| split; [| split; [| split]]]; trivial.
  - by rewrite <- He.
  - intros c t' Ht; rewrite Ht in He.
    apply (Hc c (t' ++ r)); exact He.
Qed.

Lemma trim_blank s : blank s -> trim s = [].
Proof. intros H; unfold trim; by rewrite (trimStart_blank s H). Qed.

Lemma commaList_itemsOf pieces :
  itemsOf pieces
    (List.filter (fun piece => truthy_string (Some piece)) (map trim pieces)).
Proof.
  induction pieces as [|piece pieces IH]; simpl; [constructor |].
  pose proof (trim_spec piece) as Ht.
  destruct (trim piece) as [|c t] eqn:E; simpl.
  - by apply itemsOf_blank.
  - apply itemsOf_item; [exact Ht | discriminate | exact IH].
Qed.

(** What [commaList] computes is the list of the design notes. *)
Lemma commaList_spec text :
  commaSeparatedItems text (commaList (Some text)).
Proof.
  exists (split comma text); split; [apply join_split |].
  split; [apply split_nonempty |].
  split; [| apply commaList_itemsOf].
  eapply Forall_impl; [apply (split_pieces (fun _ => True)) |].
  - apply Forall_forall; trivial.
  - by intros piece [_ H].
Qed.

(** Text made of white space and commas only gives the empty list. *)
Lemma commaList_blank text :
  Forall (fun c => isWhiteSpace c = true \/ c = comma) text ->
  commaList (Some text) = [].
Proof.
  intros H; apply (split_pieces _ comma) in H.
  unfold commaList; induction H as [|piece pieces [Hp Hn] _ IH];
    [reflexivity |].
  simpl; rewrite trim_blank; [exact IH |].
  unfold blank; rewrite Forall_forall in *; intros c Hc.
  destruct (Hp c Hc) as [Hw | ->]; [exact Hw | contradiction].
Qed.

Lemma split_piece sep piece rest :
  sep ∉ piece -> split sep (piece ++ sep :: rest) = piece :: split sep rest.
Proof.
  induction piece as [|c piece IH]; simpl; intros Hn.
  - by rewrite N.eqb_refl.
  - apply not_elem_of_cons in Hn as [Hc Hn].
    rewrite IH by exact Hn.
    destruct (c =? sep)%N eqn:E; [| reflexivity].
    apply N.eqb_eq in E; congruence.
Qed.

Lemma split_whole sep piece : sep ∉ piece -> split sep piece = [piece].
Proof.
  induction piece as [|c piece IH]; simpl; intros Hn; [reflexivity |].
  apply not_elem_of_cons in Hn as [Hc Hn].
  rewrite IH by exact Hn.
  destruct (c =? sep)%N eqn:E; [| reflexivity].
  apply N.eqb_eq in E; congruence.
Qed.

Lemma split_join sep pieces :
  pieces <> [] -> Forall (fun piece => sep ∉ piece) pieces ->
  split sep (join sep pieces) = pieces.
Proof.
  induction pieces as [|piece [|next rest] IH]; intros Hne Hall;
    [contradiction | |].
  - apply Forall_cons in Hall as [Hp _]; by apply split_whole.
  - apply Forall_cons in Hall as [Hp Hrest].
    change (join sep (piece :: next :: rest))
      with (piece ++ sep :: join sep (next :: rest)).
    rewrite split_piece by exact Hp.
    by rewrite IH.
Qed.

Lemma trimStart_clean t : startsClean t -> trimStart t = t.
Proof.
  destruct t as [|c t]; simpl; intros H; [reflexivity |].
  by rewrite (H c t eq_refl).
Qed.

Lemma trimStart_app l t : blank l -> trimStart (l ++ t) = trimStart t.
Proof.
  induction 1 as [|c l Hc _ IH]; simpl; [reflexivity | by rewrite Hc].
Qed.

Lemma trimmedFrom_trim piece t : trimmedFrom piece t -> t = trim piece.
Proof.
  intros (l & r & -> & Hl & Hr & Hs & He).
  unfold trim, trimEnd; rewrite (trimStart_app l _ Hl).
  destruct t as [|c t].
  - simpl; by rewrite (trimStart_blank r Hr).
  - rewrite (trimStart_clean ((c :: t) ++ r)).
    + rewrite rev_app_distr, (trimStart_app (rev r)) by by apply blank_rev.
      rewrite (trimStart_clean _ He); by rewrite rev_involutive.
    + intros c' t' [= <- _]; exact (Hs c t eq_refl).
Qed.

Lemma itemsOf_commaList pieces items :
  itemsOf pieces items ->
  items
  = List.filter (fun piece => truthy_string (Some piece)) (map trim pieces).
Proof.
  induction 1 as [|piece pieces items Ht _ IH|piece t pieces items Ht Hne _ IH];
    simpl; [reflexivity | |]; apply trimmedFrom_trim in Ht; rewrite <- Ht.
  - exact IH.
  - destruct t; [contradiction | simpl; by rewrite IH].
Qed.

(** The list of the design notes is the one [commaList] computes, and no
    other. *)
Lemma commaList_unique text items :
  commaSeparatedItems text items <-> items = commaList (Some text).
Proof.
  split; [| intros ->; apply commaList_spec].
  intros (pieces & <- & Hne & Hall & Hitems).
  unfold commaList; rewrite (split_join comma pieces Hne Hall).
  by apply itemsOf_commaList.
Qed.

Lemma commaList_derived text items :
  derivedFrom text items <-> items = commaList text.
Proof. destruct text as [s|]; [apply commaList_unique | reflexivity]. Qed.

Lemma commaList_blankText text : blankText text -> commaList text = [].
Proof.
  destruct text as [s|]; [| reflexivity].
  intros H; apply commaList_blank.
  eapply Forall_impl; [exact H | by left].
Qed.

Lemma onSubmit_calls {Output} analyze read data (st : State Output) input :
  input ∈ (onSubmit analyze read data st).2 ->
  exists uri,
    input = analysisInput data uri
    /\ (hasFiles (medicalImage data) = false -> uri = None).
Proof.
  unfold onSubmit.
  destruct (medicalImage data) as [[|file files]|]; simpl;
    try destruct (read file) as [uri|]; simpl; intros Hin;
    try (apply elem_of_nil in Hin; contradiction);
    apply list_elem_of_singleton in Hin; subst input;
    eexists; (split; [reflexivity |]); intros; (reflexivity || discriminate).
Qed.

(** C5. A submission of a record that passes full validation hands the
    analysis service payloads made from the parsed record; without an
    image there is exactly one, its [imageDataUri] absent.  In every
    payload [pastConditions] and [currentMedications] are the ordered
    trimmed non-empty pieces of the comma-separated raw text, and no other
    list is; they are empty when the text is absent or blank. *)
Theorem submission_payload {Output}
    (analyze : AnalyzeSymptomsInput -> option Output)
    (read : File -> option jsstring) (st : State Output) :
  fullValidation (record st) = true ->
  (hasFiles (medicalImage (record st)) = false ->
   (handleSubmit analyze read st).2
   = [analysisInput (coerced (record st)) None])
  /\ (forall input,
        input ∈ (handleSubmit analyze read st).2 ->
        let history := input_medicalHistory input in
        let raw := medicalHistory (record st) in
        (hasFiles (medicalImage (record st)) = false ->
         imageDataUri input = None)
        /\ (forall items,
              derivedFrom (pastConditions raw) items <->
              items = history_pastConditions history)
        /\ (forall items,
              derivedFrom (currentMedications raw) items <->
              items = history_currentMedications history)
        /\ (blankText (pastConditions raw) ->
            history_pastConditions history = [])
        /\ (blankText (currentMedications raw) ->
            history_currentMedications history = [])).
Proof.
  intros Hv; rewrite (handleSubmit_valid analyze read st Hv); split.
  - intros Hf; unfold onSubmit.
    change (medicalImage (coerced (record st)))
      with (medicalImage (record st)).
    destruct (medicalImage (record st)) as [[|file files]|];
      try discriminate; reflexivity.
  - intros input Hin.
    apply onSubmit_calls in Hin as (uri & -> & Huri); simpl.
    split; [exact Huri |].
    split; [intros items; apply commaList_derived |].
    split; [intros items; apply commaList_derived |].
    split; apply commaList_blankText.
Qed.

Lemma submission_payload_witness :
  let input := analysisInput (coerced janeHistory) None in
  (handleSubmit failingAnalysis someReader (wizardAt 4 janeHistory)).2
  = [input]
  /\ imageDataUri input = None
  /\ history_pastConditions (input_medicalHistory input)
     = [str "Asthma"; str "Type 2 diabetes"]
  /\ history_currentMedications (input_medicalHistory input) = [].
Proof.
  destruct (submission_payload failingAnalysis someReader
              (wizardAt 4 janeHistory) eq_refl) as [Hcalls Hall].
  split; [exact (Hcalls eq_refl) |].
  destruct (Hall (analysisInput (coerced janeHistory) None))
    as (Huri & _ & _ & _ & Hblank).
  - rewrite (Hcalls eq_refl); apply list_elem_of_here.
  - split; [exact (Huri eq_refl) |]; split; [reflexivity |].
    apply Hblank; repeat constructor.
Defined.

Example commaList_example :
  commaList (Some (str " Asthma ,, Type 2 diabetes , "))
  = [str "Asthma"; str "Type 2 diabetes"]
  /\ commaList (Some (str "")) = [] /\ commaList (Some (str "  ")) = [].
Proof. repeat split; reflexivity. Qed.

(** ** The image step *)

Lemma resolver_silent v k :
  ~ errorOn k v ->
  forall p, RHF.field k `prefix_of` p -> (RHF.zodResolver v).2 !! p = None.
Proof.
  intros H; apply hasError_false.
  destruct (RHF.hasError _ _) eqn:E; [| reflexivity].
  apply zodResolver_hasError in E; contradiction.
Qed.

Lemma fields_apart k k' p :
  RHF.field k `prefix_of` p -> RHF.field k' `prefix_of` p -> k = k'.
Proof. intros [t ->] [t' [= ->]]; reflexivity. Qed.

Lemma removeImage_returns {Output} (st : State Output) :
  let v1 := set_medicalImage None (record st) in
  let v2 := set_imageDescription None v1 in
  removeImage st
  = (mkState (currentStep st) (isLoading st) (results st) (error st) None
       (RHF.mkFormState v2
          (RHF.unset (RHF.unset (formErrors st) (RHF.field "medicalImage"))
             (RHF.field "imageDescription"))),
     [RHF.mkValidation (RHF.field "medicalImage") (RHF.zodResolver v1).2;
      RHF.mkValidation (RHF.field "imageDescription")
        (RHF.zodResolver v2).2]).
Proof. reflexivity. Qed.

(** C9. Whatever the state, after [removeImage] both [medicalImage] and
    [imageDescription] are absent, the preview is gone, and no error is
    attached to either field; this holds when the handler returns and still
    holds once the validations it started have completed.  Image and
    description are then both absent, so one is present exactly when the
    other is. *)
Theorem removeImage_clears {Output} (st : State Output) :
  forall st',
    st' = (removeImage st).1 \/ st' = settle (removeImage st) ->
    medicalImage (record st') = None
    /\ imageDescription (record st') = None
    /\ imagePreview st' = None
    /\ RHF.hasError (formErrors st') (RHF.field "medicalImage") = false
    /\ RHF.hasError (formErrors st') (RHF.field "imageDescription") = false
    /\ hasFiles (medicalImage (record st'))
       = truthy_string (imageDescription (record st')).
Proof.
  pose proof (removeImage_returns st) as Hr; simpl in Hr.
  set (v1 := set_medicalImage None (record st)) in *.
  set (v2 := set_imageDescription None v1) in *.
  assert (Hsilent1 : ~ errorOn "medicalImage" v1).
  { intros H; apply errorOn_medicalImage in H as (files & Hf & _).
    discriminate. }
  assert (Hsilent3 : ~ errorOn "imageDescription" v2).
  { intros H; apply errorOn_imageDescription in H
      as [(d & Hd & _) | (_ & Hf & _)]; discriminate. }
  intros st' [-> | ->]; rewrite Hr; unfold settle, RHF.complete;
    cbn [fst snd foldl methods RHF.values RHF.errors RHF.validated
           RHF.outcome withMethods currentStep isLoading results error
           imagePreview record formErrors];
    (split; [reflexivity |]); (split; [reflexivity |]);
    (split; [reflexivity |]);
    (split; [| split; [| reflexivity]]);
    apply hasError_false; intros p Hp;
    rewrite ?unset_lookup, ?updateError_lookup.
  - destruct (decide (_ `prefix_of` p)); [reflexivity |].
    by rewrite decide_True.
  - by rewrite decide_True.
  - rewrite decide_False, decide_True; trivial.
    + by apply (resolver_silent v1 "medicalImage").
    + intros Hp'; by pose proof (fields_apart _ _ _ Hp Hp').
  - rewrite decide_True by exact Hp.
    by apply (resolver_silent v2 "imageDescription").
Qed.

Lemma removeImage_clears_witness :
  let st' := settle (removeImage wizardWithImage) in
  hasFiles (medicalImage (record wizardWithImage)) = true
  /\ truthy_string (imageDescription (record wizardWithImage)) = true
  /\ medicalImage (record st') = None
  /\ imageDescription (record st') = None
  /\ RHF.hasError (formErrors st') (RHF.field "medicalImage") = false
  /\ RHF.hasError (formErrors st') (RHF.field "imageDescription") = false.
Proof.
  destruct (removeImage_clears wizardWithImage
              (settle (removeImage wizardWithImage)) (or_intror eq_refl))
    as (H1 & H2 & _ & H3 & H4 & _).
  repeat split; assumption || reflexivity.
Defined.

(** C8, as the code has it.  [next()] on the image step validates
    nothing: the record and the errors are left as they are; the move is
    rejected exactly when the errors currently hold one on [medicalImage],
    and otherwise the wizard is on the history step. *)
Theorem next_from_medical_image {Output} (st : State Output) :
  stepId (currentStep st) = Some "medical-image" ->
  exists st',
    goToNextStep st = Some st'
    /\ methods st' = methods st
    /\ (RHF.hasError (formErrors st) (RHF.field "medicalImage") = true ->
        currentStep st' = currentStep st)
    /\ (RHF.hasError (formErrors st) (RHF.field "medicalImage") = false ->
        currentStep st' = Z.min (currentStep st + 1) lastStep
        /\ stepId (currentStep st') = Some "medical-history").
Proof.
  intros Hid; unfold goToNextStep; rewrite Hid; simpl.
  apply stepId_inv in Hid as [[_ H]|[[_ H]|[[Hi _]|[[_ H]|[_ H]]]]];
    try discriminate.
  destruct (RHF.hasError _ _); eexists; (split; [reflexivity |]);
    (split; [reflexivity |]); split; intros ?; try discriminate;
    try reflexivity.
  simpl; rewrite Hi; split; reflexivity.
Qed.

Lemma next_from_medical_image_witness :
  exists st',
    goToNextStep (wizardAt 2 janeScan) = Some st'
    /\ methods st' = methods (wizardAt 2 janeScan)
    /\ stepId (currentStep st') = Some "medical-history".
Proof.
  destruct (next_from_medical_image (wizardAt 2 janeScan) eq_refl)
    as (st' & Hnext & Hm & _ & Hgo).
  exists st'; split; [exact Hnext |]; split; [exact Hm |].
  by apply Hgo.
Defined.

(** C8 as stated fails: on the image step with an accepted image and no
    description, the description rule is broken, yet [next()] moves to the
    history step and exposes no error. *)
Lemma next_from_medical_image_ignores_description :
  stepId (currentStep (wizardAt 2 janeScan)) = Some "medical-image"
  /\ hasFiles (medicalImage janeScan) = true
  /\ imageDescription janeScan = None
  /\ errorOn "imageDescription" janeScan
  /\ exists st',
       goToNextStep (wizardAt 2 janeScan) = Some st'
       /\ currentStep st' = 3
       /\ formErrors st' = ∅.
Proof.
  split; [reflexivity |]; split; [reflexivity |]; split; [reflexivity |].
  split.
  - apply errorOn_imageDescription; right; repeat split; reflexivity.
  - eexists; split; [reflexivity |]; split; reflexivity.
Qed.

Lemma run_reachable {Output} analyze read actions (st st' : State Output) :
  reachable analyze read st -> run analyze read actions st = Some st' ->
  reachable analyze read st'.
Proof.
  revert st; induction actions as [|a actions IH]; simpl; intros st Hr.
  - by intros [= <-].
  - destruct (offered a st) eqn:Ho; [| discriminate].
    destruct (perform analyze read a st) as [st1|] eqn:Hp; [| discriminate].
    simpl; apply IH; by eapply reachable_step.
Qed.

(** The same in a session from the initial state, every action on a
    control the page offers. *)
Example undescribed_image_session :
  exists st,
    reachable failingAnalysis someReader st
    /\ stepId (currentStep st) = Some "medical-history"
    /\ hasFiles (medicalImage (record st)) = true
    /\ truthy_string (imageDescription (record st)) = false
    /\ formErrors st = ∅.
Proof.
  destruct (run failingAnalysis someReader undescribedImageSession initial)
    as [st|] eqn:E; [| by vm_compute in E].
  exists st; split;
    [eapply run_reachable; [apply reachable_initial | exact E] |].
  vm_compute in E; injection E as <-.
  repeat split; reflexivity.
Qed.

Lemma validateThenAdvance_step {Output} names (st : State Output) :
  currentStep (validateThenAdvance names st)
  = if (RHF.trigger names (methods st)).1
    then Z.min (currentStep st + 1) lastStep
    else currentStep st.
Proof.
  unfold validateThenAdvance.
  destruct (RHF.trigger names (methods st)) as [[] m]; reflexivity.
Qed.

(** What any [next()] does to the record and to the step index. *)
Lemma goToNextStep_moves {Output} (st st' : State Output) :
  goToNextStep st = Some st' ->
  record st' = record st
  /\ 0 <= currentStep st <= 4
  /\ (currentStep st' = currentStep st
      \/ currentStep st' = Z.min (currentStep st + 1) 4).
Proof.
  unfold goToNextStep.
  destruct (stepId (currentStep st)) as [id|] eqn:Hid; [| discriminate].
  assert (Hrange : 0 <= currentStep st <= 4)
    by (apply stepId_inv in Hid; lia).
  destruct (validateThenAdvance_facts profileFields st) as (Hrec1 & _).
  destruct (validateThenAdvance_facts [RHF.field "symptoms"] st)
    as (Hrec2 & _).
  intros [= <-].
  repeat case_bool_decide; try destruct (RHF.hasError _ _);
    (split; [trivial |]); (split; [exact Hrange |]);
    rewrite ?validateThenAdvance_step;
    try destruct (RHF.trigger _ _).1; try (by left); by right.
Qed.

(** C10, as the code has it.  [previous()] is always carried out, runs no
    validation (the form, record and errors, is untouched) and sets the
    step index to [max (index - 1) 0].  After a [next()] that moved the
    step index forward, or from index 0, [previous()] is back on the index
    [next()] started from; the record is the same after any [next()]
    followed by [previous()]. *)
Theorem previous_and_round_trip {Output}
    (analyze : AnalyzeSymptomsInput -> option Output)
    (read : File -> option jsstring) (st : State Output) :
  perform analyze read Previous st = Some (goToPreviousStep st)
  /\ currentStep (goToPreviousStep st) = Z.max (currentStep st - 1) 0
  /\ methods (goToPreviousStep st) = methods st
  /\ forall st',
       goToNextStep st = Some st' ->
       record (goToPreviousStep st') = record st
       /\ (currentStep st' = currentStep st + 1 \/ currentStep st = 0 ->
           currentStep (goToPreviousStep st') = currentStep st).
Proof.
  split; [reflexivity |]; split; [reflexivity |]; split; [reflexivity |].
  intros st' Hnext.
  apply goToNextStep_moves in Hnext as (Hrec & Hrange & Hstep).
  split; [exact Hrec |].
  change (currentStep (goToPreviousStep st'))
    with (Z.max (currentStep st' - 1) 0).
  lia.
Qed.

Lemma previous_and_round_trip_witness :
  exists st',
    goToNextStep (wizardAt 0 janeKg) = Some st'
    /\ currentStep st' = 1
    /\ currentStep (goToPreviousStep st') = 0
    /\ record (goToPreviousStep st') = janeKg.
Proof.
  destruct (previous_and_round_trip failingAnalysis someReader
              (wizardAt 0 janeKg)) as (_ & _ & _ & H).
  destruct (goToNextStep (wizardAt 0 janeKg)) as [st'|] eqn:E;
    [| by vm_compute in E].
  destruct (H st' eq_refl) as [Hrec Hstep].
  exists st'; split; [reflexivity |].
  vm_compute in E; injection E as <-.
  split; [reflexivity |]; split; [by apply Hstep; right | exact Hrec].
Defined.

(** C10 as stated fails: on the symptoms step with the symptom left
    unnamed, [next()] is rejected and [previous()] then lands on the
    profile step; on the last step [next()] stays and [previous()] then
    lands one step before. *)
Lemma next_then_previous_leaves_step :
  (exists st',
     goToNextStep (wizardAt 1 defaultValues) = Some st'
     /\ currentStep st' = 1
     /\ currentStep (goToPreviousStep st') = 0)
  /\ (exists st',
        goToNextStep (wizardAt 4 janeKg) = Some st'
        /\ currentStep st' = 4
        /\ currentStep (goToPreviousStep st') = 3).
Proof.
  split; eexists; (split; [vm_compute; reflexivity |]); split; reflexivity.
Qed.

(** ** What holds in every state of a session *)

Lemma settle_keeps {Output} (r : State Output * list RHF.Validation) :
  record (settle r) = record r.1
  /\ currentStep (settle r) = currentStep r.1
  /\ results (settle r) = results r.1.
Proof.
  unfold settle, record; simpl; by rewrite complete_values.
Qed.

Lemma handleImageChange_keeps {Output} read files (st : State Output) :
  currentStep (handleImageChange read files st).1 = currentStep st
  /\ exists image,
       record (handleImageChange read files st).1
       = set_medicalImage image (record st).
Proof.
  unfold handleImageChange.
  destruct files as [|file files]; [split; [| eexists]; reflexivity |].
  destruct (_ <? _)%N; [split; [| eexists]; reflexivity |].
  destruct (negb _); [split; [| eexists]; reflexivity |].
  destruct (read file); (split; [| eexists]; reflexivity).
Qed.

Lemma handleSubmit_keeps {Output} analyze read (st : State Output) :
  currentStep (handleSubmit analyze read st).1 = currentStep st
  /\ record (handleSubmit analyze read st).1 = record st.
Proof.
  destruct (fullValidation (record st)) eqn:Hv.
  - rewrite (handleSubmit_valid analyze read st Hv).
    destruct (onSubmit_settles analyze read (coerced (record st))
                (withMethods (RHF.mkFormState (record st) ∅) st))
      as (Hstep & _ & Hm).
    split; [exact Hstep | exact (f_equal RHF.values Hm)].
  - rewrite (handleSubmit_invalid analyze read st Hv); split; reflexivity.
Qed.

Lemma onStep_index {Output} id (st : State Output) :
  onStep id st = true -> stepId (currentStep st) = Some id.
Proof. apply bool_decide_eq_true. Qed.

Lemma skipStep_moves {Output} (st st' : State Output) :
  onStep "medical-image" st || onStep "medical-history" st = true ->
  skipStep st = Some st' ->
  record st' = record st /\ currentStep st' = currentStep st + 1
  /\ 2 <= currentStep st <= 3.
Proof.
  unfold skipStep; intros Ho.
  destruct (stepId (currentStep st)) as [id|] eqn:Hid; [| discriminate].
  intros [= <-].
  apply orb_true_iff in Ho as [Ho | Ho]; apply onStep_index in Ho;
    rewrite Hid in Ho; injection Ho as ->;
    apply stepId_inv in Hid as [[? Hs]|[[? Hs]|[[? Hs]|[[? Hs]|[? Hs]]]]];
    try discriminate Hs; simpl; (split; [reflexivity |]); lia.
Qed.

(** In every state of a session the step index is one of the five steps,
    the record holds at least one symptom, and its gender is empty or one
    of the options. *)
Lemma session_invariant {Output} analyze read (st : State Output) :
  reachable analyze read st ->
  0 <= currentStep st <= lastStep
  /\ (1 <= length (symptoms (record st)))%nat
  /\ (gender (record st) = [] \/ gender (record st) ∈ genderOptions).
Proof.
  induction 1 as [|a st st' _ (Hstep & Hsym & Hgen) Hoff Hper].
  - split; [done |]; split; [done | by left].
  - unfold offered in Hoff.
    assert (Hlast : lastStep = 4) by reflexivity.
    destruct (results st), a; try discriminate;
      repeat match type of Hoff with
        | _ && _ = true => apply andb_true_iff in Hoff as [Hoff ?]
        end;
      simpl in Hper; try injection Hper as <-;
      try (apply goToNextStep_moves in Hper as (Hrec & _ & Hmove));
      try (apply (skipStep_moves _ _ Hoff) in Hper as (Hrec & Hmove & ?));
      try match goal with
        | |- context [handleSubmit ?f ?g ?s] =>
            destruct (handleSubmit_keeps f g s) as [Hmove Hrec]
        | |- context [settle (handleImageChange ?g ?fs ?s)] =>
            destruct (settle_keeps (handleImageChange g fs s))
              as (Hrec & Hmove & _);
            destruct (handleImageChange_keeps g fs s)
              as (Hmove' & image & Hrec');
            rewrite Hrec' in Hrec; rewrite Hmove' in Hmove
        end;
      try rewrite Hrec; try rewrite Hmove;
      (split; [try exact Hstep | split; [try exact Hsym | try exact Hgen]]).
    + (* StartNew *) done.
    + done.
    + by left.
    + (* Next *) lia.
    + (* Previous *)
      change (currentStep (goToPreviousStep st))
        with (Z.max (currentStep st - 1) 0); lia.
    + (* Skip *) lia.
    + (* SelectGender *)
      right; match goal with
             | H : bool_decide _ = true |- _ =>
                 exact (proj1 (bool_decide_eq_true _) H)
             end.
    + (* ChangeSymptomName *)
      change (length (alter (renameSymptom x) index (symptoms (record st)))
              >= 1)%nat.
      rewrite length_alter; lia.
    + (* SelectSeverity *)
      change (length (alter (regradeSymptom x) index (symptoms (record st)))
              >= 1)%nat.
      rewrite length_alter; lia.
    + (* AddSymptom *)
      change (length (symptoms (record st) ++ [mkSymptom [] []]) >= 1)%nat.
      rewrite length_app; lia.
    + (* RemoveSymptom *)
      change (length (delete index (symptoms (record st))) >= 1)%nat.
      match goal with
      | H1 : negb _ = true, H2 : bool_decide _ = true |- _ =>
          apply negb_true_iff, Nat.leb_gt in H1;
          apply bool_decide_eq_true in H2
      end.
      rewrite length_delete by (by apply lookup_lt_is_Some).
      lia.
Qed.

(** ** Symptoms and gender *)

Lemma no_symptom_issue v :
  symptoms v = [] ->
  mkIssue [Key "symptoms"] "Please add at least one symptom."
  ∈ issues (formSchema v).
Proof.
  intros H; apply object_issue.
  unfold formObject; rewrite !ap_issues, !elem_of_app.
  do 3 left; right; rewrite H; apply list_elem_of_here.
Qed.

Lemma no_gender_issue v :
  gender v = [] ->
  mkIssue [Key "gender"] "Gender is required." ∈ issues (formSchema v).
Proof.
  intros H; apply object_issue.
  unfold formObject; rewrite !ap_issues, !elem_of_app.
  do 4 left; right; rewrite H; apply list_elem_of_here.
Qed.

(** C6. A record without symptoms fails full validation with an error
    on [symptoms].  The initial record holds exactly one symptom, removing
    a symptom is not offered while at most one is left, and in every state
    of a session, whichever the step, the record holds at least one. *)
Theorem symptoms_never_empty {Output}
    (analyze : AnalyzeSymptomsInput -> option Output)
    (read : File -> option jsstring) :
  (forall v : FormValues,
     symptoms v = [] -> fullValidation v = false /\ errorOn "symptoms" v)
  /\ length (symptoms (record (@initial Output))) = 1%nat
  /\ (forall (st : State Output) index,
        (length (symptoms (record st)) <= 1)%nat ->
        offered (RemoveSymptom index) st = false)
  /\ (forall st : State Output,
        reachable analyze read st ->
        (1 <= length (symptoms (record st)))%nat).
Proof.
  split; [| split; [reflexivity | split]].
  - intros v Hv.
    assert (He : errorOn "symptoms" v).
    { eapply issue_errorOn; [by apply no_symptom_issue | by exists []]. }
    split; [by eapply errorOn_fails | exact He].
  - intros st index Hlen; unfold offered.
    destruct (results st); [reflexivity |].
    apply Nat.leb_le in Hlen; rewrite Hlen.
    by rewrite andb_false_r.
  - intros st Hr; by apply (session_invariant analyze read).
Qed.

Lemma symptoms_never_empty_witness :
  fullValidation (set_symptoms [] janeKg) = false
  /\ errorOn "symptoms" (set_symptoms [] janeKg)
  /\ offered (RemoveSymptom 0) (wizardAt 1 janeKg) = false.
Proof.
  destruct (symptoms_never_empty failingAnalysis someReader)
    as (Hv & _ & Hoff & _).
  destruct (Hv (set_symptoms [] janeKg) eq_refl) as [Hf He].
  split; [exact Hf |]; split; [exact He |].
  apply Hoff; simpl; lia.
Defined.

(** C7, as the code has it.  Full validation accepts a record only if its
    gender is not empty, and an empty gender fails with an error on
    [gender]; the options are what the profile step's select offers, so
    that in a session every record that passes full validation has one of
    them as its gender. *)
Theorem gender_required {Output}
    (analyze : AnalyzeSymptomsInput -> option Output)
    (read : File -> option jsstring) :
  (forall v : FormValues, fullValidation v = true -> gender v <> [])
  /\ (forall v : FormValues,
        gender v = [] -> fullValidation v = false /\ errorOn "gender" v)
  /\ (forall (st : State Output) x,
        offered (SelectGender x) st = true -> x ∈ genderOptions)
  /\ (forall st : State Output,
        reachable analyze read st -> fullValidation (record st) = true ->
        gender (record st) ∈ genderOptions).
Proof.
  assert (Hempty : forall v : FormValues,
             gender v = [] -> fullValidation v = false /\ errorOn "gender" v).
  { intros v Hv.
    assert (He : errorOn "gender" v).
    { eapply issue_errorOn; [by apply no_gender_issue | by exists []]. }
    split; [by eapply errorOn_fails | exact He]. }
  split; [| split; [exact Hempty | split]].
  - intros v Hv Hg; destruct (Hempty v Hg) as [Hf _]; congruence.
  - intros st x; unfold offered.
    destruct (results st); [discriminate |].
    intros H; apply andb_true_iff in H as [_ H].
    by apply bool_decide_eq_true in H.
  - intros st Hr Hv.
    destruct (session_invariant analyze read st Hr) as (_ & _ & [Hg | Hg]);
      [| exact Hg].
    destruct (Hempty _ Hg) as [Hf _]; congruence.
Qed.

Lemma gender_required_witness :
  fullValidation (set_gender [] janeKg) = false
  /\ errorOn "gender" (set_gender [] janeKg)
  /\ gender janeKg <> [].
Proof.
  destruct (gender_required failingAnalysis someReader)
    as (Hne & Hempty & _ & _).
  destruct (Hempty (set_gender [] janeKg) eq_refl) as [Hf He].
  split; [exact Hf |]; split; [exact He |].
  by apply Hne.
Defined.

(** C7 as stated fails: a record whose gender is none of the options
    passes full validation, with no issue at all. *)
Lemma gender_outside_options_accepted :
  (gender janeRobot ∉ genderOptions)
  /\ fullValidation janeRobot = true
  /\ issues (formSchema janeRobot) = []
  /\ ~ errorOn "gender" janeRobot.
Proof.
  split; [| split; [reflexivity | split; [reflexivity |]]].
  - apply (proj1 (bool_decide_eq_false _)); reflexivity.
  - unfold errorOn.
    replace (issues (formSchema janeRobot)) with (@nil ZodIssue)
      by reflexivity.
    intros H; by apply Exists_nil in H.
Qed.

(** ** What the schema accepts

    The outcome of [formSchema] in terms of the record alone. *)

Lemma run_checks_success {A} (checks : list (Check A)) p x :
  success (run_checks checks p x)
  = forallb (fun c => negb (fails c x)) checks.
Proof.
  unfold success, run_checks; simpl.
  induction checks as [|c checks IH]; simpl; [reflexivity |].
  destruct (fails c x); simpl; [reflexivity | exact IH].
Qed.

Lemma required_string_success msg p s :
  success (z_string [min_length 1 msg] p s) = nonEmpty s.
Proof. destruct s; reflexivity. Qed.

Lemma above_one_positive q : Qle_bool (inject_Z 1) q = true ->
  Qle_bool q (inject_Z 0) = false.
Proof.
  intros H; apply Qle_bool_iff in H.
  destruct (Qle_bool q (inject_Z 0)) eqn:E; [| reflexivity].
  apply Qle_bool_iff in E.
  pose proof (Qle_trans _ _ _ H E) as Hc.
  exfalso; revert Hc; unfold Qle; simpl; lia.
Qed.

Lemma age_success p a :
  success (z_coerce_number
             [int; positive "Age must be a positive number.";
              min 1 "Age is required."] p (Number_ a))
  = ageAccepted a.
Proof.
  unfold ageAccepted.
  destruct (Number_ a) as [| | |q]; try reflexivity.
  unfold z_coerce_number; rewrite run_checks_success; simpl.
  destruct (Qle_bool (inject_Z 1) q) eqn:E.
  - rewrite (above_one_positive q E); simpl.
    by rewrite !andb_true_r, negb_involutive.
  - simpl; by rewrite !andb_false_r.
Qed.

Lemma magnitude_success msg p w :
  success (z_optional (z_coerce_number [positive msg]) p w)
  = magnitudeAccepted w.
Proof.
  destruct w as [[| | |q]|]; try reflexivity.
  unfold success, z_optional, z_coerce_number, run_checks; simpl.
  destruct (Qle_bool q (inject_Z 0)); reflexivity.
Qed.

Lemma optional_string_success p u :
  success (z_optional (z_string []) p u) = true.
Proof. destruct u; reflexivity. Qed.

Lemma symptomSchema_success p s :
  success (symptomSchema p s) = symptomAccepted s.
Proof.
  unfold symptomSchema; rewrite !ap_success, !required_string_success.
  reflexivity.
Qed.

Lemma parse_items_success p i l :
  success (parse_items symptomSchema p i l) = forallb symptomAccepted l.
Proof.
  revert i; induction l as [|s l IH]; intros i; simpl; [reflexivity |].
  by rewrite !ap_success, symptomSchema_success, IH.
Qed.

Lemma symptoms_success msg p l :
  success (z_array_min symptomSchema 1 msg p l)
  = negb (length l =? 0)%nat && forallb symptomAccepted l.
Proof.
  unfold z_array_min; rewrite ap_success, parse_items_success.
  destruct l; reflexivity.
Qed.

Lemma medicalHistory_success p h : success (medicalHistorySchema p h) = true.
Proof. destruct h as [[c|] [m|]]; reflexivity. Qed.

Lemma medicalImage_success p v :
  success (medicalImageSchema p v)
  = match v with
    | None => true
    | Some files => sizeAccepted files && typeAccepted files
    end.
Proof.
  destruct v as [files|]; [| reflexivity].
  unfold medicalImageSchema, z_optional, success; simpl.
  unfold refine at 2; simpl.
  destruct (sizeAccepted files); simpl; unfold refine; simpl;
    destruct (typeAccepted files); reflexivity.
Qed.

Lemma description_success msg p d :
  success (z_optional (z_string [max_length 1000 msg]) p d)
  = match d with
    | None => true
    | Some d => (length d <=? 1000)%nat
    end.
Proof.
  destruct d as [d|]; [| reflexivity].
  unfold success, z_optional, z_string, run_checks; simpl.
  destruct (1000 <? length d)%nat eqn:E; simpl.
  - apply Nat.ltb_lt in E; symmetry; apply Nat.leb_gt; lia.
  - apply Nat.ltb_ge in E; symmetry; by apply Nat.leb_le.
Qed.

Lemma formObject_success v :
  success (formObject v)
  = nonEmpty (name v) && ageAccepted (age v)
    && magnitudeAccepted (weight v) && magnitudeAccepted (height v)
    && nonEmpty (gender v) && symptomsAccepted v && imageAccepted v
    && match imageDescription v with
       | None => true
       | Some d => (length d <=? 1000)%nat
       end.
Proof.
  unfold formObject, symptomsAccepted, imageAccepted.
  rewrite !ap_success, !required_string_success, age_success,
    !magnitude_success, !optional_string_success, symptoms_success,
    medicalHistory_success, medicalImage_success, description_success.
  simpl; btauto.
Qed.

Lemma aborted_not_accepted v :
  numbersParse v = false ->
  ageAccepted (age v) && magnitudeAccepted (weight v)
  && magnitudeAccepted (height v) = false.
Proof.
  unfold numbersParse, ageAccepted.
  destruct (Number_ (age v)), (weight v) as [[]|], (height v) as [[]|];
    simpl; intros H; try discriminate; try reflexivity;
    rewrite ?andb_false_r; reflexivity.
Qed.

(** Full validation as one boolean: the conjunction of the conditions on
    the four parts of the record. *)
Lemma fullValidation_accepts (v : FormValues) :
  fullValidation v
  = profileAccepted v && symptomsAccepted v && imageAccepted v
    && descriptionAccepted v.
Proof.
  unfold fullValidation, formSchema.
  rewrite !refine_success, !refine_valueOf, formObject_valueOf,
    formObject_success.
  unfold profileAccepted, descriptionAccepted.
  destruct (numbersParse v) eqn:Hp.
  - unfold weightUnitRule, heightUnitRule, imageDescriptionRule, unitGiven;
      simpl; btauto.
  - pose proof (aborted_not_accepted v Hp) as Ha.
    destruct (ageAccepted (age v)), (magnitudeAccepted (weight v)),
      (magnitudeAccepted (height v)); try discriminate; simpl;
      rewrite ?andb_false_r; reflexivity.
Qed.

Lemma own_errors {O} k (r : ParseReturn O) :
  within [Key k] r -> consistent r ->
  (Exists (attachedTo k) (issues r) <-> success r = false).
Proof.
  unfold within, consistent; intros Hw Hc; split.
  - intros He; destruct (success r); [| reflexivity].
    rewrite (proj1 Hc eq_refl) in He; by apply Exists_nil in He.
  - intros Hs; destruct (issues r) as [|i l] eqn:E.
    + rewrite (proj2 Hc eq_refl) in Hs; discriminate.
    + apply Exists_cons_hd; by apply Forall_cons in Hw as [Hi _].
Qed.

(** An error on a key that no refinement names comes from the key's own
    parse. *)
Ltac key_errors :=
  unfold errorOn; rewrite formSchema_issues, Exists_app; split;
  [ let H := fresh "H" in
    intros [H | H];
    [ own_field H; exact H
    | destruct (numbersParse _); [| by apply Exists_nil in H];
      apply rule_attached in H as [[? _] | [[? _] | [? _]]]; discriminate ]
  | let H := fresh "H" in
    intros H; left; unfold formObject, z_string;
    rewrite !ap_issues, !Exists_app; tauto ].

Lemma errorOn_name v : errorOn "name" v <-> nonEmpty (name v) = false.
Proof.
  rewrite <- (required_string_success "Name is required." [Key "name"]).
  unfold z_string.
  rewrite <- (own_errors "name");
    [| apply run_checks_within | apply run_checks_consistent].
  key_errors.
Qed.

Lemma errorOn_gender v : errorOn "gender" v <-> nonEmpty (gender v) = false.
Proof.
  rewrite <- (required_string_success "Gender is required." [Key "gender"]).
  unfold z_string.
  rewrite <- (own_errors "gender");
    [| apply run_checks_within | apply run_checks_consistent].
  key_errors.
Qed.

Lemma errorOn_age v : errorOn "age" v <-> ageAccepted (age v) = false.
Proof.
  rewrite <- (age_success [Key "age"]).
  rewrite <- (own_errors "age");
    [| apply z_coerce_number_within | apply z_coerce_number_consistent].
  key_errors.
Qed.

Lemma errorOn_weight v :
  errorOn "weight" v <-> magnitudeAccepted (weight v) = false.
Proof.
  rewrite <- (magnitude_success "Weight must be positive" [Key "weight"]).
  rewrite <- (own_errors "weight");
    [| apply z_optional_within; intros; apply z_coerce_number_within
     | apply z_optional_consistent; intros;
       apply z_coerce_number_consistent].
  key_errors.
Qed.

Lemma errorOn_height v :
  errorOn "height" v <-> magnitudeAccepted (height v) = false.
Proof.
  rewrite <- (magnitude_success "Height must be positive" [Key "height"]).
  rewrite <- (own_errors "height");
    [| apply z_optional_within; intros; apply z_coerce_number_within
     | apply z_optional_consistent; intros;
       apply z_coerce_number_consistent].
  key_errors.
Qed.

Lemma errorOn_symptoms v : errorOn "symptoms" v <-> symptomsAccepted v = false.
Proof.
  unfold symptomsAccepted.
  rewrite <- (symptoms_success "Please add at least one symptom."
                [Key "symptoms"]).
  rewrite <- (own_errors "symptoms"); [| apply symptoms_array ..].
  key_errors.
Qed.

Lemma errorOn_medicalImage_iff v :
  errorOn "medicalImage" v <-> imageAccepted v = false.
Proof.
  unfold imageAccepted.
  rewrite <- (medicalImage_success [Key "medicalImage"]).
  rewrite <- (own_errors "medicalImage");
    [| apply medicalImageSchema_facts ..].
  key_errors.
Qed.

Lemma errorOn_medicalHistory v : ~ errorOn "medicalHistory" v.
Proof.
  assert (Hiff : errorOn "medicalHistory" v <->
                 Exists (attachedTo "medicalHistory")
                   (issues (medicalHistorySchema [Key "medicalHistory"]
                              (medicalHistory v))))
    by key_errors.
  intros H; apply Hiff in H as He.
  destruct (medicalHistorySchema_facts [Key "medicalHistory"]
              (medicalHistory v)) as (_ & Hi & _).
  rewrite Hi in He; by apply Exists_nil in He.
Qed.

Lemma nonEmpty_true s : nonEmpty s = true <-> s <> [].
Proof. destruct s; simpl; split; (discriminate || congruence). Qed.

Lemma nonEmpty_false s : nonEmpty s = false <-> s = [].
Proof. destruct s; simpl; split; (discriminate || congruence). Qed.

Lemma unitGiven_true w u :
  unitGiven w u = true <->
  (truthy_number w = true -> truthy_string u = true).
Proof.
  unfold unitGiven; destruct (truthy_number w), (truthy_string u);
    split; auto; intros H; try reflexivity; discriminate (H eq_refl).
Qed.

Lemma symptomsAccepted_true v :
  symptomsAccepted v = true <->
  symptoms v <> []
  /\ Forall (fun s => symptom_name s <> [] /\ symptom_severity s <> [])
       (symptoms v).
Proof.
  unfold symptomsAccepted.
  rewrite andb_true_iff, negb_true_iff, Nat.eqb_neq, forallb_forall,
    Forall_forall.
  split; intros [Hl Hs]; split.
  - intros E; by rewrite E in Hl.
  - intros s Hin; apply list_elem_of_In, Hs in Hin.
    unfold symptomAccepted in Hin; apply andb_true_iff in Hin as [H1 H2].
    by rewrite <- !nonEmpty_true.
  - destruct (symptoms v); [done | simpl; lia].
  - intros s Hin; apply list_elem_of_In, Hs in Hin as [H1 H2].
    unfold symptomAccepted; apply andb_true_iff.
    by rewrite !nonEmpty_true.
Qed.

Lemma imageAccepted_true v :
  imageAccepted v = true <->
  forall files, medicalImage v = Some files ->
                sizeAccepted files = true /\ typeAccepted files = true.
Proof.
  unfold imageAccepted; destruct (medicalImage v) as [files|]; split.
  - intros H f [= <-]; by apply andb_true_iff.
  - intros H; apply andb_true_iff; by apply H.
  - discriminate.
  - reflexivity.
Qed.

Lemma descriptionAccepted_true v :
  descriptionAccepted v = true <->
  (forall d, imageDescription v = Some d -> (length d <= 1000)%nat)
  /\ (hasFiles (medicalImage v) = true ->
      truthy_string (imageDescription v) = true).
Proof.
  unfold descriptionAccepted; rewrite andb_true_iff.
  assert (H1 : match imageDescription v with
               | Some d => (length d <=? 1000)%nat
               | None => true
               end = true
               <-> forall d, imageDescription v = Some d ->
                             (length d <= 1000)%nat);
    [| assert (H2 : (if hasFiles (medicalImage v)
                     then truthy_string (imageDescription v) else true)
                    = true
                    <-> (hasFiles (medicalImage v) = true ->
                         truthy_string (imageDescription v) = true));
       [| by rewrite H1, H2]].
  - destruct (imageDescription v) as [d|]; split.
    + intros H d' [= <-]; by apply Nat.leb_le.
    + intros H; apply Nat.leb_le; by apply H.
    + discriminate.
    + reflexivity.
  - destruct (hasFiles _), (truthy_string _); split; auto;
      intros H; try reflexivity; discriminate (H eq_refl).
Qed.

(** X1. Full validation accepts a record exactly when: name and gender are
    not empty; age is an integer of at least 1; weight and height are each
    absent or above 0; a weight (height) that is a non-zero number comes with
    a non-empty unit; there is at least one symptom and every symptom has a
    name and a severity; the first file of an image, if any, is within the
    size limit and of an accepted type; the description has at most 1000
    code units and is not empty when there is an image.  The medical history
    plays no part. *)
Theorem formSchema_accepts (v : FormValues) :
  fullValidation v = true <->
  name v <> [] /\ gender v <> []
  /\ ageAccepted (age v) = true
  /\ magnitudeAccepted (weight v) = true
  /\ magnitudeAccepted (height v) = true
  /\ (truthy_number (weight v) = true ->
      truthy_string (weightUnit v) = true)
  /\ (truthy_number (height v) = true ->
      truthy_string (heightUnit v) = true)
  /\ symptoms v <> []
  /\ Forall (fun s => symptom_name s <> [] /\ symptom_severity s <> [])
       (symptoms v)
  /\ (forall files,
        medicalImage v = Some files ->
        sizeAccepted files = true /\ typeAccepted files = true)
  /\ (forall d, imageDescription v = Some d -> (length d <= 1000)%nat)
  /\ (hasFiles (medicalImage v) = true ->
      truthy_string (imageDescription v) = true).
Proof.
  rewrite fullValidation_accepts; unfold profileAccepted.
  rewrite !andb_true_iff, !nonEmpty_true, !unitGiven_true,
    symptomsAccepted_true, imageAccepted_true, descriptionAccepted_true.
  tauto.
Qed.

Lemma formSchema_accepts_witness :
  name janeKg <> [] /\ gender janeKg <> []
  /\ ageAccepted (age janeKg) = true
  /\ fullValidation jane = false.
Proof.
  destruct (proj1 (formSchema_accepts janeKg) eq_refl)
    as (Hn & Hg & Ha & _).
  split; [exact Hn |]; split; [exact Hg |]; split; [exact Ha |].
  destruct (fullValidation jane) eqn:E; [| reflexivity].
  apply formSchema_accepts in E as (_ & _ & _ & _ & _ & Hu & _).
  discriminate (Hu eq_refl).
Defined.

(** X2. Which record puts an error on which key.  An error sits on [name]
    ([gender]) exactly when it is empty, on [age] exactly when it is not an
    integer of at least 1, on [weight] ([height]) exactly when it is present
    and not above 0, on [symptoms] exactly when the list is empty or one of
    its entries lacks a name or a severity, on [medicalImage] exactly when
    its first file is too large or of another type; never on
    [medicalHistory].  None of this depends on the other keys. *)
Theorem field_errors (v : FormValues) :
  (errorOn "name" v <-> name v = [])
  /\ (errorOn "gender" v <-> gender v = [])
  /\ (errorOn "age" v <-> ageAccepted (age v) = false)
  /\ (errorOn "weight" v <-> magnitudeAccepted (weight v) = false)
  /\ (errorOn "height" v <-> magnitudeAccepted (height v) = false)
  /\ (errorOn "symptoms" v <-> symptomsAccepted v = false)
  /\ (errorOn "medicalImage" v <-> imageAccepted v = false)
  /\ ~ errorOn "medicalHistory" v.
Proof.
  rewrite <- !nonEmpty_false.
  split_and!;
    [ apply errorOn_name | apply errorOn_gender | apply errorOn_age
    | apply errorOn_weight | apply errorOn_height | apply errorOn_symptoms
    | apply errorOn_medicalImage_iff | apply errorOn_medicalHistory ].
Qed.

Lemma field_errors_witness :
  errorOn "name" (set_name [] janeKg)
  /\ errorOn "age" janeNoAge
  /\ ~ errorOn "medicalHistory" janeHistory.
Proof.
  destruct (field_errors (set_name [] janeKg)) as (Hn & _).
  destruct (field_errors janeNoAge) as (_ & _ & Ha & _).
  destruct (field_errors janeHistory) as (_ & _ & _ & _ & _ & _ & _ & Hh).
  split; [exact (proj2 Hn eq_refl) |].
  split; [exact (proj2 Ha eq_refl) | exact Hh].
Defined.

Lemma isInteger_Fin q :
  isInteger (Fin q) = true <-> exists z, (q == inject_Z z)%Q.
Proof.
  unfold isInteger; rewrite Z.eqb_eq; split.
  - intros H; exists (Qnum q / Z.pos (Qden q)).
    unfold Qeq; simpl.
    rewrite Z.mul_1_r, Z.mul_comm.
    apply Z.div_exact; [lia | exact H].
  - intros [z Hz]; unfold Qeq in Hz; simpl in Hz.
    rewrite Z.mul_1_r in Hz; rewrite Hz.
    apply Z.mod_mul; lia.
Qed.

(** X3. The age the schema lets through: no error sits on [age] exactly
    when the field holds a finite number equal to an integer of at least 1
    (so not when it is left empty, NaN, an infinity, a fraction, 0 or
    negative). *)
Theorem age_error_free (v : FormValues) :
  ~ errorOn "age" v <->
  exists q z, age v = Some (Fin q) /\ (q == inject_Z z)%Q /\ 1 <= z.
Proof.
  rewrite errorOn_age, not_false_iff_true; unfold ageAccepted.
  rewrite andb_true_iff; split.
  - intros [Hi Hle].
    destruct (age v) as [[| | |q]|]; try discriminate; simpl in *.
    apply isInteger_Fin in Hi as [z Hz].
    exists q, z; split; [reflexivity |]; split; [exact Hz |].
    apply Qle_bool_iff in Hle; rewrite Hz in Hle.
    unfold Qle in Hle; simpl in Hle; lia.
  - intros (q & z & -> & Hz & Hle); simpl; split.
    + apply isInteger_Fin; by exists z.
    + apply Qle_bool_iff; rewrite Hz; unfold Qle; simpl; lia.
Qed.

Lemma age_error_free_witness :
  ~ errorOn "age" janeKg /\ errorOn "age" (set_age (Some (Fin (5 # 2))) janeKg).
Proof.
  split.
  - apply (proj2 (age_error_free janeKg)).
    exists (inject_Z 30), 30; split; [reflexivity |].
    split; [reflexivity | lia].
  - by apply errorOn_age.
Defined.

(** X4. The medical history and validation.  Whatever the two history
    texts hold, the schema reports the same issues: the history step can
    neither make a record invalid nor repair one, and what is typed there
    is checked nowhere before it is split at submission. *)
Theorem history_not_validated (v : FormValues) (h : MedicalHistoryText) :
  issues (formSchema (set_medicalHistory h v)) = issues (formSchema v)
  /\ fullValidation (set_medicalHistory h v) = fullValidation v.
Proof.
  split.
  - rewrite !formSchema_issues.
    change (numbersParse (set_medicalHistory h v)) with (numbersParse v).
    change (ruleIssues (coerced (set_medicalHistory h v)))
      with (ruleIssues (coerced v)).
    f_equal.
    unfold formObject; rewrite !ap_issues.
    change (medicalHistory (set_medicalHistory h v)) with h.
    destruct (medicalHistorySchema_facts [Key "medicalHistory"] h)
      as (_ & -> & _).
    destruct (medicalHistorySchema_facts [Key "medicalHistory"]
                (medicalHistory v)) as (_ & -> & _).
    reflexivity.
  - rewrite !fullValidation_accepts; reflexivity.
Qed.

Lemma history_not_validated_witness :
  issues (formSchema janeHistory) = issues (formSchema janeKg)
  /\ fullValidation janeHistory = fullValidation janeKg.
Proof.
  exact (history_not_validated janeKg
           (mkMedicalHistoryText (Some (str " Asthma ,, Type 2 diabetes , "))
              (Some (str "  ")))).
Defined.

(** ** The gates of the steps *)

Lemma scope_of_fields ks v :
  scopeInvalid (RHF.field <$> ks) v <-> exists k, k ∈ ks /\ errorOn k v.
Proof.
  unfold scopeInvalid, errorOn; rewrite Exists_exists; split.
  - intros (i & Hi & Hn); apply Exists_exists in Hn as (n & Hn & Hp).
    apply list_elem_of_fmap in Hn as (k & -> & Hk).
    exists k; split; [exact Hk |].
    apply Exists_exists; by exists i.
  - intros (k & Hk & He); apply Exists_exists in He as (i & Hi & Hp).
    exists i; split; [exact Hi |].
    apply Exists_exists; exists (RHF.field k); split; [| exact Hp].
    apply list_elem_of_fmap; by exists k.
Qed.

Lemma unitGiven_false w u :
  unitGiven w u = false <-> truthy_number w = true /\ truthy_string u = false.
Proof.
  unfold unitGiven; destruct (truthy_number w), (truthy_string u);
    split; (intros [? ?] || intros ?); try discriminate; auto.
Qed.

Lemma profile_scope v :
  scopeInvalid profileFields v <-> profileAccepted v = false.
Proof.
  change profileFields
    with (RHF.field <$> ["name"; "age"; "gender"; "weight"; "weightUnit";
                         "height"; "heightUnit"]).
  rewrite scope_of_fields; unfold profileAccepted; split.
  - intros (k & Hk & He).
    repeat (apply elem_of_cons in Hk as [-> | Hk]);
      [ apply errorOn_name in He | apply errorOn_age in He
      | apply errorOn_gender in He | apply errorOn_weight in He
      | apply errorOn_weightUnit in He as (_ & Hw & Hu);
        assert (He : unitGiven (weight v) (weightUnit v) = false)
          by by apply unitGiven_false
      | apply errorOn_height in He
      | apply errorOn_heightUnit in He as (_ & Hw & Hu);
        assert (He : unitGiven (height v) (heightUnit v) = false)
          by by apply unitGiven_false
      | by apply elem_of_nil in Hk ];
      rewrite He; btauto.
  - intros H.
    destruct (nonEmpty (name v)) eqn:E1;
      [| exists "name"; split; [set_solver | by apply errorOn_name]].
    destruct (ageAccepted (age v)) eqn:E2;
      [| exists "age"; split; [set_solver | by apply errorOn_age]].
    destruct (magnitudeAccepted (weight v)) eqn:E3;
      [| exists "weight"; split; [set_solver | by apply errorOn_weight]].
    destruct (magnitudeAccepted (height v)) eqn:E4;
      [| exists "height"; split; [set_solver | by apply errorOn_height]].
    destruct (nonEmpty (gender v)) eqn:E5;
      [| exists "gender"; split; [set_solver | by apply errorOn_gender]].
    assert (Hp : numbersParse v = true).
    { destruct (numbersParse v) eqn:Hp; [reflexivity |].
      apply aborted_not_accepted in Hp; rewrite E2, E3, E4 in Hp.
      discriminate. }
    simpl in H.
    destruct (unitGiven (weight v) (weightUnit v)) eqn:E6.
    + simpl in H; apply unitGiven_false in H as [Hh Hu].
      exists "heightUnit"; split; [set_solver |].
      by apply errorOn_heightUnit.
    + apply unitGiven_false in E6 as [Hw Hu].
      exists "weightUnit"; split; [set_solver |].
      by apply errorOn_weightUnit.
Qed.

Lemma symptoms_scope v :
  scopeInvalid [RHF.field "symptoms"] v <-> symptomsAccepted v = false.
Proof.
  change [RHF.field "symptoms"] with (RHF.field <$> ["symptoms"]).
  rewrite scope_of_fields, <- errorOn_symptoms; split.
  - intros (k & Hk & He); apply list_elem_of_singleton in Hk; by subst.
  - intros He; exists "symptoms"; split; [apply list_elem_of_here | exact He].
Qed.

Lemma trigger_profile m :
  (RHF.trigger profileFields m).1 = profileAccepted (RHF.values m).
Proof.
  pose proof (trigger_valid profileFields m) as Hv.
  rewrite profile_scope in Hv.
  destruct (RHF.trigger profileFields m).1, (profileAccepted (RHF.values m));
    try reflexivity;
    [discriminate (proj2 Hv eq_refl) | discriminate (proj1 Hv eq_refl)].
Qed.

Lemma trigger_symptoms m :
  (RHF.trigger [RHF.field "symptoms"] m).1 = symptomsAccepted (RHF.values m).
Proof.
  pose proof (trigger_valid [RHF.field "symptoms"] m) as Hv.
  rewrite symptoms_scope in Hv.
  destruct (RHF.trigger [RHF.field "symptoms"] m).1,
    (symptomsAccepted (RHF.values m));
    try reflexivity;
    [discriminate (proj2 Hv eq_refl) | discriminate (proj1 Hv eq_refl)].
Qed.

(** What [validateThenAdvance] leaves alone. *)
Lemma validateThenAdvance_cells {Output} names (st : State Output) :
  let st' := validateThenAdvance names st in
  isLoading st' = isLoading st /\ results st' = results st
  /\ error st' = error st /\ imagePreview st' = imagePreview st.
Proof.
  unfold validateThenAdvance.
  destruct (RHF.trigger names (methods st)) as [[] m]; by repeat split.
Qed.

(** [next()], step by step: where it lands and what it keeps. *)
Lemma goToNextStep_lands {Output} (st st' : State Output) :
  goToNextStep st = Some st' ->
  record st' = record st /\ isLoading st' = isLoading st
  /\ results st' = results st /\ error st' = error st
  /\ imagePreview st' = imagePreview st
  /\ currentStep st'
     = (if currentStep st =? 0 then
          if profileAccepted (record st) then 1 else 0
        else if currentStep st =? 1 then
          if symptomsAccepted (record st) then 2 else 1
        else if currentStep st =? 2 then
          if RHF.hasError (formErrors st) (RHF.field "medicalImage")
          then 2 else 3
        else 4).
Proof.
  unfold goToNextStep.
  destruct (stepId (currentStep st)) as [id|] eqn:Hid; [| discriminate].
  intros [= <-].
  destruct (validateThenAdvance_facts profileFields st) as (Hr1 & _).
  destruct (validateThenAdvance_facts [RHF.field "symptoms"] st)
    as (Hr2 & _).
  destruct (validateThenAdvance_cells profileFields st)
    as (Ha1 & Hb1 & Hc1 & Hd1).
  destruct (validateThenAdvance_cells [RHF.field "symptoms"] st)
    as (Ha2 & Hb2 & Hc2 & Hd2).
  pose proof (validateThenAdvance_step profileFields st) as Hs1.
  pose proof (validateThenAdvance_step [RHF.field "symptoms"] st) as Hs2.
  rewrite trigger_profile in Hs1; rewrite trigger_symptoms in Hs2.
  apply stepId_inv in Hid
    as [[Hi ->]|[[Hi ->]|[[Hi ->]|[[Hi ->]|[Hi ->]]]]];
    rewrite Hi in *; simpl;
    try destruct (RHF.hasError (formErrors st) _);
    repeat (split; [first [assumption | reflexivity] |]).
  - rewrite Hs1; by destruct (profileAccepted _).
  - rewrite Hs2; by destruct (symptomsAccepted _).
  - exact Hi.
  - simpl; by rewrite Hi.
  - simpl; by rewrite Hi.
  - simpl; by rewrite Hi.
Qed.

Lemma stepId_defined i : is_Some (stepId i) <-> 0 <= i <= lastStep.
Proof.
  change lastStep with 4; split.
  - intros [id Hid].
    apply stepId_inv in Hid
      as [[-> _]|[[-> _]|[[-> _]|[[-> _]|[-> _]]]]]; lia.
  - intros H.
    assert (Hi : i = 0 \/ i = 1 \/ i = 2 \/ i = 3 \/ i = 4) by lia.
    destruct Hi as [->|[->|[->|[->| ->]]]]; by eexists.
Qed.

Lemma hasError_ext (errs errs' : gmap (list seg) string) n :
  (forall p, n `prefix_of` p -> errs !! p = errs' !! p) ->
  RHF.hasError errs n = RHF.hasError errs' n.
Proof.
  intros H.
  destruct (RHF.hasError errs' n) eqn:E.
  - apply hasError_true in E as (p & Hp & Hs).
    apply hasError_true; exists p; split; [exact Hp |].
    by rewrite (H p Hp).
  - apply hasError_false; intros p Hp; rewrite (H p Hp).
    revert p Hp; by apply hasError_false.
Qed.

Lemma advance_at_review {Output} (st : State Output) :
  currentStep st = lastStep -> advance st = st.
Proof. destruct st; simpl; intros ->; reflexivity. Qed.

(** X5. The gate of the profile step.  From [profile], [next()] lands on
    [symptoms] exactly when the profile part of the record is accepted
    (name, age, gender, weight and height with their units), and stays
    otherwise; symptoms, image, description and history play no part. *)
Theorem profile_gate {Output} (st : State Output) :
  stepId (currentStep st) = Some "profile" ->
  exists st',
    goToNextStep st = Some st'
    /\ (profileAccepted (record st) = true ->
        stepId (currentStep st') = Some "symptoms")
    /\ (profileAccepted (record st) = false ->
        currentStep st' = currentStep st).
Proof.
  intros Hid.
  destruct (goToNextStep st) as [st'|] eqn:Hnext;
    [| unfold goToNextStep in Hnext; rewrite Hid in Hnext; discriminate].
  exists st'; split; [reflexivity |].
  apply goToNextStep_lands in Hnext as (_ & _ & _ & _ & _ & Hstep).
  apply stepId_inv in Hid
    as [[Hi _]|[[Hi H]|[[Hi H]|[[Hi H]|[Hi H]]]]]; try discriminate H.
  rewrite Hi in *; simpl in Hstep; rewrite Hstep.
  split; intros ->; reflexivity.
Qed.

Lemma profile_gate_witness :
  exists st',
    goToNextStep (wizardAt 0 janeKg) = Some st'
    /\ stepId (currentStep st') = Some "symptoms".
Proof.
  destruct (profile_gate (wizardAt 0 janeKg) eq_refl)
    as (st' & Hnext & Hgo & _).
  exists st'; split; [exact Hnext | exact (Hgo eq_refl)].
Defined.

(** X6. The gate of the symptoms step.  From [symptoms], [next()] leaves
    the record as it is and lands on [medical-image] exactly when there is at
    least one symptom and every symptom has a name and a severity; otherwise
    it stays.  Afterwards the form holds an error below [symptoms] exactly
    in the second case, and the errors of every other field are the ones it
    held before. *)
Theorem next_from_symptoms {Output} (st : State Output) :
  stepId (currentStep st) = Some "symptoms" ->
  exists st',
    goToNextStep st = Some st'
    /\ record st' = record st
    /\ (symptomsAccepted (record st) = true ->
        stepId (currentStep st') = Some "medical-image")
    /\ (symptomsAccepted (record st) = false ->
        currentStep st' = currentStep st)
    /\ RHF.hasError (formErrors st') (RHF.field "symptoms")
       = negb (symptomsAccepted (record st))
    /\ (forall p,
          ~ RHF.field "symptoms" `prefix_of` p ->
          formErrors st' !! p = formErrors st !! p).
Proof.
  intros Hid.
  destruct (goToNextStep st) as [st'|] eqn:Hnext;
    [| unfold goToNextStep in Hnext; rewrite Hid in Hnext; discriminate].
  exists st'; split; [reflexivity |].
  destruct (goToNextStep_lands _ _ Hnext) as (Hrec & _ & _ & _ & _ & Hstep).
  unfold goToNextStep in Hnext; rewrite Hid in Hnext; simpl in Hnext.
  injection Hnext as <-.
  destruct (validateThenAdvance_facts [RHF.field "symptoms"] st)
    as (_ & Herr & _).
  apply stepId_inv in Hid
    as [[Hi H]|[[Hi _]|[[Hi H]|[[Hi H]|[Hi H]]]]]; try discriminate H.
  rewrite Hi in *; simpl in Hstep.
  split; [exact Hrec |].
  split; [intros Ha; by rewrite Hstep, Ha |].
  split; [intros Ha; by rewrite Hstep, Ha |].
  split.
  - rewrite (hasError_ext _ (RHF.zodResolver (record st)).2).
    + destruct (symptomsAccepted (record st)) eqn:Ha; simpl.
      * destruct (RHF.hasError _ _) eqn:E; [| reflexivity].
        apply zodResolver_hasError, errorOn_symptoms in E; congruence.
      * by apply zodResolver_hasError, errorOn_symptoms.
    + intros p Hp; rewrite Herr.
      destruct (decide _) as [|n]; [reflexivity |].
      exfalso; apply n, Exists_cons_hd, Hp.
  - intros p Hp; rewrite Herr.
    destruct (decide _) as [e|]; [| reflexivity].
    apply Exists_cons in e as [e | e]; [contradiction |].
    by apply Exists_nil in e.
Qed.

Lemma next_from_symptoms_witness :
  exists st',
    goToNextStep (wizardAt 1 janeKg) = Some st'
    /\ stepId (currentStep st') = Some "medical-image"
    /\ RHF.hasError (formErrors st') (RHF.field "symptoms") = false.
Proof.
  destruct (next_from_symptoms (wizardAt 1 janeKg) eq_refl)
    as (st' & Hnext & _ & Hgo & _ & Herr & _).
  exists st'; split; [exact Hnext |].
  split; [exact (Hgo eq_refl) | exact Herr].
Defined.

(** X7. The last two steps.  From [medical-history], [next()] always
    lands on [review], whatever the record and the errors, and leaves the
    form as it is; on [review], [next()] changes nothing at all. *)
Theorem next_on_last_steps {Output} (st : State Output) :
  (stepId (currentStep st) = Some "medical-history" ->
   exists st',
     goToNextStep st = Some st'
     /\ stepId (currentStep st') = Some "review"
     /\ methods st' = methods st)
  /\ (stepId (currentStep st) = Some "review" -> goToNextStep st = Some st).
Proof.
  split; intros Hid; unfold goToNextStep; rewrite Hid; simpl.
  - apply stepId_inv in Hid
      as [[Hi H]|[[Hi H]|[[Hi H]|[[Hi _]|[Hi H]]]]]; try discriminate H.
    eexists; split; [reflexivity |].
    split; [| reflexivity].
    simpl; by rewrite Hi.
  - apply stepId_inv in Hid
      as [[Hi H]|[[Hi H]|[[Hi H]|[[Hi H]|[Hi _]]]]]; try discriminate H.
    by rewrite advance_at_review.
Qed.

Lemma next_on_last_steps_witness :
  (exists st',
     goToNextStep (wizardAt 3 janeKg) = Some st'
     /\ stepId (currentStep st') = Some "review")
  /\ goToNextStep (wizardAt 4 janeKg) = Some (wizardAt 4 janeKg).
Proof.
  split.
  - destruct (proj1 (next_on_last_steps (wizardAt 3 janeKg)) eq_refl)
      as (st' & Hnext & Hid & _).
    by exists st'.
  - exact (proj2 (next_on_last_steps (wizardAt 4 janeKg)) eq_refl).
Defined.

(** X8. Skip against Next on the optional steps.  [skipStep] moves one
    step on and leaves the form as it is.  It does what [next()] does, except
    on the image step while an error sits on [medicalImage]: there [next()]
    changes nothing and Skip still moves on. *)
Theorem skip_against_next {Output} (st : State Output) :
  onStep "medical-image" st || onStep "medical-history" st = true ->
  exists st',
    skipStep st = Some st'
    /\ methods st' = methods st
    /\ currentStep st' = currentStep st + 1
    /\ (if onStep "medical-image" st
           && RHF.hasError (formErrors st) (RHF.field "medicalImage")
        then goToNextStep st = Some st
        else goToNextStep st = Some st').
Proof.
  intros Hon.
  assert (Hid : stepId (currentStep st) = Some "medical-image"
                \/ stepId (currentStep st) = Some "medical-history").
  { apply orb_true_iff in Hon as [Hon | Hon]; apply onStep_index in Hon;
      auto. }
  unfold skipStep, goToNextStep, onStep.
  destruct Hid as [Hid | Hid]; rewrite Hid; simpl;
    (eexists; split; [reflexivity |]);
    (split; [reflexivity |]); (split; [reflexivity |]);
    apply stepId_inv in Hid
      as [[Hi H]|[[Hi H]|[[Hi H]|[[Hi H]|[Hi H]]]]]; try discriminate H.
  - destruct (RHF.hasError _ _); [reflexivity |].
    destruct st; simpl in *; subst; reflexivity.
  - destruct st; simpl in *; subst; reflexivity.
Qed.

Lemma skip_against_next_witness :
  RHF.hasError (formErrors wizardWithImage) (RHF.field "medicalImage") = true
  /\ goToNextStep wizardWithImage = Some wizardWithImage
  /\ exists st',
       skipStep wizardWithImage = Some st' /\ currentStep st' = 3.
Proof.
  assert (He : RHF.hasError (formErrors wizardWithImage)
                 (RHF.field "medicalImage") = true)
    by (vm_compute; reflexivity).
  destruct (skip_against_next wizardWithImage eq_refl)
    as (st' & Hskip & _ & Hstep & Hnext).
  rewrite He in Hnext.
  split; [exact He |]; split; [exact Hnext |].
  exists st'; split; [exact Hskip | exact Hstep].
Defined.

(** X9. No handler throws in a session.  [goToNextStep] and [skipStep]
    read [steps[currentStep].id], which throws exactly when the index is
    outside the five steps; in every state of a session every handler
    returns. *)
Theorem session_never_throws {Output}
    (analyze : AnalyzeSymptomsInput -> option Output)
    (read : File -> option jsstring) :
  (forall st : State Output,
     (is_Some (goToNextStep st) <-> 0 <= currentStep st <= lastStep)
     /\ (is_Some (skipStep st) <-> 0 <= currentStep st <= lastStep))
  /\ (forall (st : State Output) a,
        reachable analyze read st -> is_Some (perform analyze read a st)).
Proof.
  assert (Hdef : forall st : State Output,
             (is_Some (goToNextStep st) <-> 0 <= currentStep st <= lastStep)
             /\ (is_Some (skipStep st) <-> 0 <= currentStep st <= lastStep)).
  { intros st; rewrite <- stepId_defined.
    unfold goToNextStep, skipStep.
    destruct (stepId (currentStep st)); simpl; split; split;
      intros [x Hx]; try discriminate; by eexists. }
  split; [exact Hdef |].
  intros st a Hreach.
  destruct (session_invariant analyze read st Hreach) as (Hrange & _).
  destruct (Hdef st) as [Hnext Hskip].
  destruct a; simpl; try (by eexists); [by apply Hnext | by apply Hskip].
Qed.

Lemma session_never_throws_witness :
  exists st,
    run someAnalysis someReader shortestSession initial = Some st
    /\ is_Some (perform someAnalysis someReader Next st)
    /\ is_Some (perform someAnalysis someReader Skip st).
Proof.
  destruct (run someAnalysis someReader shortestSession initial)
    as [st|] eqn:E; [| by vm_compute in E].
  assert (Hreach : reachable someAnalysis someReader st)
    by (eapply run_reachable; [apply reachable_initial | exact E]).
  exists st; split; [reflexivity |].
  split; by apply (proj2 (session_never_throws someAnalysis someReader)).
Defined.

(** ** What the gates guarantee in a session *)

Lemma handleImageChange_effect {Output} read files (st : State Output) :
  let st' := settle (handleImageChange read files st) in
  isLoading st' = isLoading st /\ results st' = results st
  /\ error st' = error st /\ currentStep st' = currentStep st
  /\ exists image,
       record st' = set_medicalImage image (record st)
       /\ (image = None /\ imagePreview st' = None
           \/ image = Some files /\ hasFiles image = true
              /\ sizeAccepted files && typeAccepted files = true).
Proof.
  unfold handleImageChange.
  destruct files as [|file files];
    [repeat split; exists None; split; [reflexivity | by left] |].
  destruct (_ <? _)%N eqn:Esize;
    [repeat split; exists None; split; [reflexivity | by left] |].
  destruct (negb _) eqn:Etype;
    [repeat split; exists None; split; [reflexivity | by left] |].
  assert (Hok : sizeAccepted (file :: files) && typeAccepted (file :: files)
                = true).
  { simpl; apply negb_false_iff in Etype; rewrite Etype, andb_true_r.
    apply N.ltb_ge in Esize; by apply N.leb_le. }
  destruct (read file) as [uri|]; repeat split;
    [ exists (Some (file :: files)); split; [reflexivity | by right]
    | exists None; split; [reflexivity | by left] ].
Qed.

Lemma onSubmit_preview {Output} analyze read data (st : State Output) :
  imagePreview (onSubmit analyze read data st).1 = imagePreview st.
Proof.
  unfold onSubmit.
  destruct (medicalImage data) as [[|file files]|]; simpl;
    try destruct (read file); simpl;
    try destruct (analyze _); reflexivity.
Qed.

Lemma onSubmit_outcome {Output} analyze read data (st : State Output) :
  let st' := (onSubmit analyze read data st).1 in
  is_Some (results st') -> error st' = None.
Proof.
  unfold onSubmit.
  destruct (medicalImage data) as [[|file files]|]; simpl;
    try destruct (read file); simpl;
    try destruct (analyze _); simpl; intros [x Hx];
    (reflexivity || discriminate).
Qed.

Lemma handleSubmit_effect {Output} analyze read (st : State Output) :
  let st' := (handleSubmit analyze read st).1 in
  currentStep st' = currentStep st /\ record st' = record st
  /\ imagePreview st' = imagePreview st
  /\ (isLoading st = false -> isLoading st' = false)
  /\ (results st = None -> is_Some (results st') -> error st' = None).
Proof.
  destruct (handleSubmit_keeps analyze read st) as [Hs Hr].
  split; [exact Hs |]; split; [exact Hr |].
  destruct (fullValidation (record st)) eqn:Hv.
  - rewrite (handleSubmit_valid analyze read st Hv).
    destruct (onSubmit_settles analyze read (coerced (record st))
                (withMethods (RHF.mkFormState (record st) ∅) st))
      as (_ & Hl & _).
    split; [by rewrite onSubmit_preview |].
    split; [intros _; exact Hl | intros _; apply onSubmit_outcome].
  - rewrite (handleSubmit_invalid analyze read st Hv); simpl.
    split; [reflexivity |]; split; [trivial |].
    intros -> [x Hx]; discriminate.
Qed.

Lemma skipStep_cells {Output} (st st' : State Output) :
  skipStep st = Some st' ->
  isLoading st' = isLoading st /\ results st' = results st
  /\ error st' = error st /\ methods st' = methods st
  /\ imagePreview st' = imagePreview st.
Proof.
  unfold skipStep.
  destruct (stepId (currentStep st)) as [id|]; [| discriminate].
  intros [= <-]; destruct (_ || _); by repeat split.
Qed.

(** A conjunct of the session invariant that the action leaves as it
    was, or that speaks of a step the wizard is not on. *)
Ltac kept :=
  try first
    [ assumption
    | match goal with
      | H : forall s, results s = None -> _ |- _ => by apply H
      end
    | match goal with
      | |- _ <= _ -> _ =>
          let Hge := fresh "Hge" in intros Hge; simpl in Hge; lia
      end
    | match goal with H : _ |- _ => exact H end ].

(** What the wizard's gates guarantee in every state of a session. *)
Lemma session_gates {Output} analyze read (st : State Output) :
  reachable analyze read st ->
  isLoading st = false
  /\ (is_Some (results st) -> error st = None)
  /\ (1 <= currentStep st -> profileAccepted (record st) = true)
  /\ (2 <= currentStep st -> symptomsAccepted (record st) = true)
  /\ imageAccepted (record st) = true
  /\ unitOffered weightUnits (weightUnit (record st))
  /\ unitOffered heightUnits (heightUnit (record st))
  /\ (is_Some (imagePreview st) ->
      hasFiles (medicalImage (record st)) = true).
Proof.
  induction 1 as [|a st st' Hreach
                    (Hload & Hres & Hprof & Hsym & Himg & Hwu & Hhu & Hpre)
                    Hoff Hper].
  { repeat split; try done; try (intros; simpl in *; lia);
      intros [x Hx]; discriminate. }
  destruct (session_invariant analyze read st Hreach) as (Hrange & _).
  unfold offered in Hoff.
  destruct (results st) as [r|] eqn:Eres.
  { destruct a; try discriminate.
    injection Hper as <-.
    repeat split; try done; simpl; try lia; intros [x Hx]; discriminate. }
  assert (Hnone : forall s : State Output,
             results s = None -> is_Some (results s) -> error s = None)
    by (intros s -> [x Hx]; discriminate).
  destruct a; try discriminate;
    repeat match type of Hoff with
      | _ && _ = true => apply andb_true_iff in Hoff as [Hoff ?]
      end;
    simpl in Hper; try injection Hper as <-;
    try (apply onStep_index, stepId_inv in Hoff
           as [[Hi Hs]|[[Hi Hs]|[[Hi Hs]|[[Hi Hs]|[Hi Hs]]]]];
         try discriminate Hs; clear Hs).
  - (* Next *)
    apply goToNextStep_lands in Hper as (-> & -> & Hr & He & -> & Hstep).
    split_and!; try assumption; [apply Hnone; congruence | |];
      intros Hge; rewrite Hstep in Hge.
    + destruct (currentStep st =? 0) eqn:E0.
      { destruct (profileAccepted (record st)); [reflexivity | lia]. }
      apply Hprof; apply Z.eqb_neq in E0; lia.
    + destruct (currentStep st =? 0) eqn:E0.
      { destruct (profileAccepted (record st)); lia. }
      destruct (currentStep st =? 1) eqn:E1.
      { destruct (symptomsAccepted (record st)); [reflexivity | lia]. }
      apply Hsym; apply Z.eqb_neq in E0, E1; lia.
  - (* Previous *)
    apply Z.ltb_lt in Hoff.
    split_and!; try assumption; [by apply Hnone | |]; intros Hge;
      change (currentStep (goToPreviousStep st))
        with (Z.max (currentStep st - 1) 0) in Hge;
      [apply Hprof | apply Hsym]; lia.
  - (* Skip *)
    destruct (skipStep_cells _ _ Hper) as (Hl & Hr & _ & _ & Hp).
    apply (skipStep_moves _ _ Hoff) in Hper as (-> & Hmove & Hstep).
    rewrite Hl, Hp.
    split_and!; try assumption; [apply Hnone; congruence | |]; intros _;
      [apply Hprof | apply Hsym]; lia.
  - (* Submit *)
    destruct (handleSubmit_effect analyze read st)
      as (-> & -> & -> & Hl & Hr).
    split_and!; try assumption; [by apply Hl | by apply Hr].
  - (* ChangeName *) split_and!; kept.
  - (* ChangeAge *) split_and!; kept.
  - (* SelectGender *) split_and!; kept.
  - (* ChangeWeight *) split_and!; kept.
  - (* SelectWeightUnit *)
    split_and!; kept.
    match goal with
    | H : bool_decide _ = true |- _ => exact (proj1 (bool_decide_eq_true _) H)
    end.
  - (* ChangeHeight *) split_and!; kept.
  - (* SelectHeightUnit *)
    split_and!; kept.
    match goal with
    | H : bool_decide _ = true |- _ => exact (proj1 (bool_decide_eq_true _) H)
    end.
  - (* ChangeSymptomName *) split_and!; kept.
  - (* SelectSeverity *) split_and!; kept.
  - (* AddSymptom *) split_and!; kept.
  - (* RemoveSymptom *) split_and!; kept.
  - (* ChooseFile *)
    destruct (handleImageChange_effect read files st)
      as (-> & Hr & _ & -> & image & -> & Himage).
    split_and!; try assumption; [apply Hnone; congruence | |].
    + destruct Himage as [[-> _] | (-> & _ & Hok)]; [reflexivity | exact Hok].
    + destruct Himage as [[_ ->] | (_ & Hfiles & _)];
        [intros [x Hx]; discriminate | intros _; exact Hfiles].
  - (* RemoveImage *)
    split_and!; kept;
      first [reflexivity | intros [x Hx]; discriminate].
  - (* ChangeImageDescription *) split_and!; kept.
  - (* ChangePastConditions *) split_and!; kept.
  - (* ChangeCurrentMedications *) split_and!; kept.
Qed.

(** X10. What a session's step index says about its record.  On every
    step after [profile] the profile part of the record is accepted, and on
    every step after [symptoms] so is the list of symptoms: the two gates
    cannot be passed around, neither by Skip nor by Previous, nor by
    starting again. *)
Theorem session_steps_validated {Output}
    (analyze : AnalyzeSymptomsInput -> option Output)
    (read : File -> option jsstring) (st : State Output) :
  reachable analyze read st ->
  (1 <= currentStep st -> profileAccepted (record st) = true)
  /\ (2 <= currentStep st -> symptomsAccepted (record st) = true).
Proof.
  intros Hreach.
  destruct (session_gates analyze read st Hreach)
    as (_ & _ & Hprof & Hsym & _).
  by split.
Qed.

Lemma session_steps_validated_witness :
  exists st,
    run someAnalysis someReader shortestSession initial = Some st
    /\ stepId (currentStep st) = Some "review"
    /\ profileAccepted (record st) = true
    /\ symptomsAccepted (record st) = true.
Proof.
  destruct (run someAnalysis someReader shortestSession initial)
    as [st|] eqn:E; [| by vm_compute in E].
  assert (Hreach : reachable someAnalysis someReader st)
    by (eapply run_reachable; [apply reachable_initial | exact E]).
  destruct (session_steps_validated someAnalysis someReader st Hreach)
    as [Hp Hs].
  assert (Hstep : currentStep st = 4)
    by (vm_compute in E; by injection E as <-).
  exists st; split; [reflexivity |].
  split; [by rewrite Hstep |].
  split; [apply Hp | apply Hs]; lia.
Defined.



(** X12. The units a session holds.  A unit is set only through its
    select, so in a session the weight unit is absent or one of kg, lbs, and
    the height unit is absent or one of cm, in, ft. *)
Theorem session_units {Output}
    (analyze : AnalyzeSymptomsInput -> option Output)
    (read : File -> option jsstring) (st : State Output) :
  reachable analyze read st ->
  unitOffered weightUnits (weightUnit (record st))
  /\ unitOffered heightUnits (heightUnit (record st)).
Proof.
  intros Hreach.
  destruct (session_gates analyze read st Hreach)
    as (_ & _ & _ & _ & _ & Hwu & Hhu & _).
  by split.
Qed.

Lemma session_units_witness :
  exists st,
    run someAnalysis someReader unitSession initial = Some st
    /\ weightUnit (record st) = Some (str "kg")
    /\ unitOffered weightUnits (weightUnit (record st))
    /\ unitOffered heightUnits (heightUnit (record st)).
Proof.
  destruct (run someAnalysis someReader unitSession initial)
    as [st|] eqn:E; [| by vm_compute in E].
  assert (Hreach : reachable someAnalysis someReader st)
    by (eapply run_reachable; [apply reachable_initial | exact E]).
  destruct (session_units someAnalysis someReader st Hreach) as [Hw Hh].
  assert (Hunit : weightUnit (record st) = Some (str "kg"))
    by (vm_compute in E; by injection E as <-).
  exists st; split; [reflexivity |].
  split; [exact Hunit |]; split; [exact Hw | exact Hh].
Defined.

(** X13. Full validation on the review step of a session.  The record
    has passed the gates of the profile and symptoms steps and its image is
    accepted, so full validation comes down to the description: at most
    1000 code units, and not empty while the record holds an image.  A
    submission from the review step hands the record to [onSubmit] exactly
    when that holds; otherwise the analysis is not called and the form holds
    an error on [imageDescription]. *)
Theorem review_rests_on_description {Output}
    (analyze : AnalyzeSymptomsInput -> option Output)
    (read : File -> option jsstring) (st : State Output) :
  reachable analyze read st ->
  stepId (currentStep st) = Some "review" ->
  fullValidation (record st) = descriptionAccepted (record st)
  /\ (descriptionAccepted (record st) = true ->
      handleSubmit analyze read st
      = onSubmit analyze read (coerced (record st))
          (withMethods (RHF.mkFormState (record st) ∅) st))
  /\ (descriptionAccepted (record st) = false ->
      let r := handleSubmit analyze read st in
      r.2 = []
      /\ RHF.hasError (formErrors r.1) (RHF.field "imageDescription")
         = true).
Proof.
  intros Hreach Hid.
  destruct (session_gates analyze read st Hreach)
    as (_ & _ & Hprof & Hsym & Himg & _).
  apply stepId_inv in Hid
    as [[Hi H]|[[Hi H]|[[Hi H]|[[Hi H]|[Hi _]]]]]; try discriminate H.
  specialize (Hprof ltac:(lia)); specialize (Hsym ltac:(lia)).
  assert (Hv : fullValidation (record st) = descriptionAccepted (record st)).
  { rewrite fullValidation_accepts, Hprof, Hsym, Himg; reflexivity. }
  split; [exact Hv |]; split.
  - intros Hd; apply handleSubmit_valid; congruence.
  - intros Hd; rewrite Hd in Hv.
    rewrite (handleSubmit_invalid analyze read st Hv); simpl.
    split; [reflexivity |].
    apply zodResolver_hasError, errorOn_imageDescription.
    unfold descriptionAccepted in Hd; apply andb_false_iff in Hd as [Hd | Hd].
    + left; destruct (imageDescription (record st)) as [d|];
        [| discriminate].
      exists d; split; [reflexivity | by apply Nat.leb_gt].
    + right.
      destruct (hasFiles (medicalImage (record st))); [| discriminate].
      split; [| by split].
      destruct (numbersParse (record st)) eqn:Hp; [reflexivity |].
      apply aborted_not_accepted in Hp.
      unfold profileAccepted in Hprof.
      destruct (ageAccepted _), (magnitudeAccepted (weight _)),
        (magnitudeAccepted (height _)); simpl in *;
        rewrite ?andb_false_r in Hprof; discriminate.
Qed.

Lemma review_rests_on_description_witness :
  exists st,
    run failingAnalysis someReader (undescribedImageSession ++ [Next]) initial
    = Some st
    /\ stepId (currentStep st) = Some "review"
    /\ fullValidation (record st) = false
    /\ (handleSubmit failingAnalysis someReader st).2 = []
    /\ RHF.hasError (formErrors (handleSubmit failingAnalysis someReader st).1)
         (RHF.field "imageDescription") = true.
Proof.
  destruct (run failingAnalysis someReader
              (undescribedImageSession ++ [Next]) initial)
    as [st|] eqn:E; [| by vm_compute in E].
  assert (Hreach : reachable failingAnalysis someReader st)
    by (eapply run_reachable; [apply reachable_initial | exact E]).
  assert (Hst : stepId (currentStep st) = Some "review"
                /\ descriptionAccepted (record st) = false)
    by (vm_compute in E; by injection E as <-).
  destruct Hst as (Hid & Hd).
  destruct (review_rests_on_description failingAnalysis someReader st
              Hreach Hid) as (Hv & _ & Hno).
  destruct (Hno Hd) as [Hcalls Herr].
  exists st; split; [reflexivity |].
  split; [exact Hid |]; split; [congruence |].
  split; [exact Hcalls | exact Herr].
Defined.

(** X14. Start New Assessment in a session.  The button is there only
    while results are shown; pressing it gives back the initial state of the
    wizard: first step, default record, no errors, no preview, no message. *)
Theorem start_new_restores_initial {Output}
    (analyze : AnalyzeSymptomsInput -> option Output)
    (read : File -> option jsstring) (st : State Output) :
  reachable analyze read st -> offered StartNew st = true ->
  perform analyze read StartNew st = Some initial.
Proof.
  intros Hreach Hoff.
  destruct (session_gates analyze read st Hreach)
    as (Hload & Herr & _).
  unfold offered in Hoff.
  destruct (results st) as [r|] eqn:Hres; [| discriminate].
  simpl; unfold startNewAssessment, initial.
  destruct st; simpl in *.
  rewrite Hload, Herr by by eexists.
  reflexivity.
Qed.

Lemma start_new_restores_initial_witness :
  exists st,
    run someAnalysis someReader (shortestSession ++ [Submit]) initial
    = Some st
    /\ results st = Some tt
    /\ name (record st) = str "Jane"
    /\ perform someAnalysis someReader StartNew st = Some initial.
Proof.
  destruct (run someAnalysis someReader (shortestSession ++ [Submit])
              initial) as [st|] eqn:E; [| by vm_compute in E].
  assert (Hreach : reachable someAnalysis someReader st)
    by (eapply run_reachable; [apply reachable_initial | exact E]).
  assert (Hst : results st = Some tt /\ name (record st) = str "Jane"
                /\ offered StartNew st = true)
    by (vm_compute in E; by injection E as <-).
  destruct Hst as (Hres & Hname & Hoff).
  exists st; split; [reflexivity |].
  split; [exact Hres |]; split; [exact Hname |].
  exact (start_new_restores_initial someAnalysis someReader st Hreach Hoff).
Defined.

(** ** Submission, case by case *)

(** X15. A submission of a record that full validation rejects.  The
    analysis is not called and no cell of the wizard changes; the errors the
    form held are replaced by those of the record, one at the path of each
    issue, and there is at least one. *)
Theorem handleSubmit_rejects {Output}
    (analyze : AnalyzeSymptomsInput -> option Output)
    (read : File -> option jsstring) (st : State Output) :
  fullValidation (record st) = false ->
  let r := handleSubmit analyze read st in
  r.2 = []
  /\ record r.1 = record st /\ currentStep r.1 = currentStep st
  /\ isLoading r.1 = isLoading st /\ results r.1 = results st
  /\ error r.1 = error st /\ imagePreview r.1 = imagePreview st
  /\ (forall p,
        is_Some (formErrors r.1 !! p) <->
        exists i, i ∈ issues (formSchema (record st)) /\ path i = p)
  /\ formErrors r.1 <> ∅.
Proof.
  intros Hv; rewrite (handleSubmit_invalid analyze read st Hv); simpl.
  split_and!; try reflexivity.
  - intros p; apply zodResolver_errors.
  - unfold formErrors; simpl; intros He.
    destruct (issues (formSchema (record st))) as [|i l] eqn:Ei.
    + apply fullValidation_issues in Ei; congruence.
    + assert (Hs : is_Some ((RHF.zodResolver (record st)).2 !! path i)).
      { apply zodResolver_errors; exists i; split; [| reflexivity].
        rewrite Ei; apply list_elem_of_here. }
      rewrite He, lookup_empty in Hs; by destruct Hs.
Qed.

Lemma handleSubmit_rejects_witness :
  let r := handleSubmit someAnalysis someReader (wizardAt 4 jane) in
  r.2 = [] /\ results r.1 = None /\ formErrors r.1 <> ∅.
Proof.
  destruct (handleSubmit_rejects someAnalysis someReader (wizardAt 4 jane)
              eq_refl)
    as (Hcalls & _ & _ & _ & Hres & _ & _ & _ & Herr).
  split; [exact Hcalls |]; split; [exact Hres | exact Herr].
Defined.

(** X16. How [onSubmit] settles.  It ends not loading, on the same step,
    with the form and the preview as they were.  The analysis is called at
    most once, and not at all exactly when the record holds an image whose
    first file cannot be read; then the message is the one about the image.
    Results are set exactly when the one call succeeds, to what it returned,
    and there is then no message; otherwise there is a message and no
    results. *)
Theorem onSubmit_outcomes {Output}
    (analyze : AnalyzeSymptomsInput -> option Output)
    (read : File -> option jsstring) (data : FormData) (st : State Output) :
  let r := onSubmit analyze read data st in
  isLoading r.1 = false /\ currentStep r.1 = currentStep st
  /\ methods r.1 = methods st /\ imagePreview r.1 = imagePreview st
  /\ (length r.2 <= 1)%nat
  /\ (r.2 = [] <->
      exists file rest,
        medicalImage data = Some (file :: rest) /\ read file = None)
  /\ (r.2 = [] -> error r.1 = Some imageFailure)
  /\ (forall out,
        results r.1 = Some out <->
        exists input, r.2 = [input] /\ analyze input = Some out)
  /\ (results r.1 = None <-> is_Some (error r.1)).
Proof.
  unfold onSubmit.
  destruct (medicalImage data) as [[|file rest]|] eqn:Ei; simpl;
    try destruct (read file) as [uri|] eqn:Er; simpl;
    try destruct (analyze _) as [out|] eqn:Ea; simpl;
    split_and!; try reflexivity; try lia;
    try (split; [discriminate | intros (f & l & H & ?); congruence]);
    try (split; [eauto | reflexivity]);
    try discriminate;
    try (intros out'; split;
         [ intros [= <-]; eauto
         | intros (input & [= <-] & H); congruence ]);
    try (intros out'; split;
         [ discriminate | intros (input & H & ?); congruence ]);
    try (split; [discriminate | intros [x Hx]; discriminate]);
    try (split; [by eexists | reflexivity]).
Qed.

Lemma onSubmit_outcomes_witness :
  let r := onSubmit someAnalysis failingReader (coerced janeDescribed)
             (wizardAt 4 janeDescribed) in
  r.2 = [] /\ results r.1 = None /\ is_Some (error r.1).
Proof.
  destruct (onSubmit_outcomes someAnalysis failingReader
              (coerced janeDescribed) (wizardAt 4 janeDescribed))
    as (_ & _ & _ & _ & _ & Hnone & _ & _ & Herr).
  assert (Hcalls : (onSubmit someAnalysis failingReader
                      (coerced janeDescribed) (wizardAt 4 janeDescribed)).2
                   = [])
    by (apply Hnone; exists scan, []; by split).
  split; [exact Hcalls |]; split; [reflexivity |].
  by apply Herr.
Defined.

(** X17. A submission of an accepted record that holds an image.  If the
    first file can be read, the analysis is called once, with the record's
    data and the data URI of that file; the other files are not looked at.
    If it cannot, the analysis is not called and the wizard settles on the
    same step, not loading, with the message about the image and no
    results. *)
Theorem submission_with_image {Output}
    (analyze : AnalyzeSymptomsInput -> option Output)
    (read : File -> option jsstring) (st : State Output) file rest :
  fullValidation (record st) = true ->
  medicalImage (record st) = Some (file :: rest) ->
  let r := handleSubmit analyze read st in
  match read file with
  | Some uri => r.2 = [analysisInput (coerced (record st)) (Some uri)]
  | None =>
      r.2 = [] /\ results r.1 = None /\ error r.1 = Some imageFailure
      /\ isLoading r.1 = false /\ currentStep r.1 = currentStep st
  end.
Proof.
  intros Hv Hi; rewrite (handleSubmit_valid analyze read st Hv).
  unfold onSubmit; simpl; rewrite Hi.
  destruct (read file) as [uri|]; simpl; [reflexivity |].
  by repeat split.
Qed.

Lemma submission_with_image_witness :
  (handleSubmit someAnalysis someReader (wizardAt 4 janeDescribed)).2
  = [analysisInput (coerced janeDescribed)
       (Some (str "data:image/png;base64,AA=="))]
  /\ (let r := handleSubmit someAnalysis failingReader
                 (wizardAt 4 janeDescribed) in
      r.2 = [] /\ results r.1 = None /\ error r.1 = Some imageFailure).
Proof.
  split.
  - exact (submission_with_image someAnalysis someReader
             (wizardAt 4 janeDescribed) scan [] eq_refl eq_refl).
  - destruct (submission_with_image someAnalysis failingReader
                (wizardAt 4 janeDescribed) scan [] eq_refl eq_refl)
      as (H1 & H2 & H3 & _).
    by repeat split.
Defined.

(** X18. What the analysis is handed.  Every payload of a submission
    carries the record's own name, age, weight, height, units, gender and
    symptoms, and they are those of an accepted record: name and gender not
    empty, the age an integer of at least 1, a weight or height above 0 if
    there is one, at least one symptom, each with a name and a severity;
    and a data URI only if the record holds an image. *)
Theorem analysis_input_accepted {Output}
    (analyze : AnalyzeSymptomsInput -> option Output)
    (read : File -> option jsstring) (st : State Output) input :
  input ∈ (handleSubmit analyze read st).2 ->
  (input_name input = name (record st)
   /\ input_age input = Number_ (age (record st))
   /\ input_weight input = weight (record st)
   /\ input_weightUnit input = weightUnit (record st)
   /\ input_height input = height (record st)
   /\ input_heightUnit input = heightUnit (record st)
   /\ input_gender input = gender (record st)
   /\ input_symptoms input = symptoms (record st))
  /\ input_name input <> [] /\ input_gender input <> []
  /\ isInteger (input_age input) = true
  /\ num_le (num 1) (input_age input) = true
  /\ (forall x, input_weight input = Some x -> num_lt (num 0) x = true)
  /\ (forall x, input_height input = Some x -> num_lt (num 0) x = true)
  /\ input_symptoms input <> []
  /\ Forall (fun s => symptom_name s <> [] /\ symptom_severity s <> [])
       (input_symptoms input)
  /\ (is_Some (imageDataUri input) ->
      hasFiles (medicalImage (record st)) = true).
Proof.
  intros Hin.
  destruct (fullValidation (record st)) eqn:Hv;
    [| rewrite (handleSubmit_invalid analyze read st Hv) in Hin;
       by apply elem_of_nil in Hin].
  rewrite (handleSubmit_valid analyze read st Hv) in Hin.
  apply onSubmit_calls in Hin as (uri & -> & Huri).
  rewrite fullValidation_accepts in Hv; unfold profileAccepted in Hv.
  rewrite !andb_true_iff, !nonEmpty_true, symptomsAccepted_true in Hv.
  destruct Hv as [[[[[[[[[Hn Ha] Hw] Hh] Hg] _] _] [Hs Hss]] _] _].
  unfold ageAccepted in Ha; apply andb_true_iff in Ha as [Ha1 Ha2].
  simpl; split_and!; try reflexivity; try assumption.
  - intros x Hx; by rewrite Hx in Hw.
  - intros x Hx; by rewrite Hx in Hh.
  - intros [x ->]; simpl in Huri.
    destruct (hasFiles (medicalImage (record st))); [reflexivity |].
    discriminate (Huri eq_refl).
Qed.

Lemma analysis_input_accepted_witness :
  let input := analysisInput (coerced janeKg) None in
  input_name input = str "Jane"
  /\ isInteger (input_age input) = true
  /\ input_symptoms input <> [].
Proof.
  destruct (analysis_input_accepted failingAnalysis someReader
              (wizardAt 4 janeKg) (analysisInput (coerced janeKg) None))
    as (_ & _ & _ & Hint & _ & _ & _ & Hs & _).
  - apply list_elem_of_here.
  - split; [reflexivity |]; split; [exact Hint | exact Hs].
Defined.

(** X19. The description of the image is required but not sent: two
    accepted records that differ in the description only lead to the same
    calls of the analysis. *)
Theorem description_never_sent {Output}
    (analyze : AnalyzeSymptomsInput -> option Output)
    (read : File -> option jsstring) (st st' : State Output) d :
  record st' = set_imageDescription d (record st) ->
  fullValidation (record st) = true -> fullValidation (record st') = true ->
  (handleSubmit analyze read st').2 = (handleSubmit analyze read st).2.
Proof.
  intros Hr Hv Hv'.
  rewrite (handleSubmit_valid analyze read st Hv),
    (handleSubmit_valid analyze read st' Hv'), Hr.
  unfold onSubmit; simpl.
  destruct (medicalImage (record st)) as [[|file rest]|]; simpl;
    try destruct (read file); reflexivity.
Qed.

Lemma description_never_sent_witness :
  (handleSubmit someAnalysis someReader (wizardAt 4 janeDescribed)).2
  = (handleSubmit someAnalysis someReader
       (wizardAt 4 (set_imageDescription (Some (str "Right knee"))
                      janeDescribed))).2.
Proof.
  exact (description_never_sent someAnalysis someReader
           (wizardAt 4 (set_imageDescription (Some (str "Right knee"))
                          janeDescribed))
           (wizardAt 4 janeDescribed) (Some (str "Left knee"))
           eq_refl eq_refl eq_refl).
Defined.

(** ** Choosing a file, adding a symptom *)

Lemma setError_lookup (errs : gmap (list seg) string) n msg :
  RHF.set errs n {[ n := msg ]} !! n = Some msg.
Proof.
  unfold RHF.set; rewrite lookup_union, lookup_singleton_eq, unset_lookup.
  by rewrite decide_True.
Qed.

Lemma handleImageChange_rejects {Output} read file rest (st : State Output) :
  sizeAccepted (file :: rest) && typeAccepted (file :: rest) = false ->
  handleImageChange read (file :: rest) st
  = (mkState (currentStep st) (isLoading st) (results st) (error st) None
       (RHF.mkFormState (set_medicalImage None (record st))
          (RHF.set (formErrors st) (RHF.field "medicalImage")
             {[ RHF.field "medicalImage" := rejection file ]})),
     [RHF.mkValidation (RHF.field "medicalImage")
        (RHF.zodResolver (set_medicalImage None (record st))).2]).
Proof.
  unfold handleImageChange, rejection; simpl; intros H.
  destruct (MAX_FILE_SIZE <? file_size file)%N eqn:Es; [reflexivity |].
  apply N.ltb_ge, N.leb_le in Es; rewrite Es in H; simpl in H.
  rewrite H; reflexivity.
Qed.

Lemma handleImageChange_accepts {Output} read file rest uri
    (st : State Output) :
  sizeAccepted (file :: rest) && typeAccepted (file :: rest) = true ->
  read file = Some uri ->
  handleImageChange read (file :: rest) st
  = (mkState (currentStep st) (isLoading st) (results st) (error st)
       (Some uri)
       (RHF.mkFormState (set_medicalImage (Some (file :: rest)) (record st))
          (RHF.unset (formErrors st) (RHF.field "medicalImage"))),
     [RHF.mkValidation (RHF.field "medicalImage")
        (RHF.zodResolver
           (set_medicalImage (Some (file :: rest)) (record st))).2]).
Proof.
  unfold handleImageChange; simpl; intros H Hr.
  apply andb_true_iff in H as [Hs Ht].
  apply N.leb_le, N.ltb_ge in Hs; rewrite Hs, Ht, Hr; reflexivity.
Qed.

Lemma image_silent v image :
  imageAccepted (set_medicalImage image v) = true ->
  forall p,
    RHF.field "medicalImage" `prefix_of` p ->
    (RHF.zodResolver (set_medicalImage image v)).2 !! p = None.
Proof.
  intros H; apply resolver_silent.
  rewrite errorOn_medicalImage_iff; congruence.
Qed.

Ltac settled :=
  unfold settle, RHF.complete;
  cbn [fst snd foldl methods RHF.values RHF.errors RHF.validated
         RHF.outcome withMethods currentStep isLoading results error
         imagePreview record formErrors].

(** X20. A file that is turned down.  When the first chosen file is above
    the size limit or of a type that is not accepted, [handleImageChange]
    leaves the record without an image and the wizard without a preview,
    with the matching message on [medicalImage].  The message lasts until
    the validation started with the value completes: the record has no image
    then, so no error is left on [medicalImage], and [next()] from the image
    step moves on.  The other keys and the errors of the other fields are
    untouched. *)
Theorem rejected_file {Output} (read : File -> option jsstring)
    file rest (st : State Output) :
  sizeAccepted (file :: rest) && typeAccepted (file :: rest) = false ->
  let r := handleImageChange read (file :: rest) st in
  (record r.1 = set_medicalImage None (record st)
   /\ imagePreview r.1 = None
   /\ formErrors r.1 !! RHF.field "medicalImage" = Some (rejection file))
  /\ record (settle r) = set_medicalImage None (record st)
  /\ imagePreview (settle r) = None
  /\ RHF.hasError (formErrors (settle r)) (RHF.field "medicalImage") = false
  /\ (forall p,
        ~ RHF.field "medicalImage" `prefix_of` p ->
        formErrors r.1 !! p = formErrors st !! p
        /\ formErrors (settle r) !! p = formErrors st !! p)
  /\ (stepId (currentStep st) = Some "medical-image" ->
      exists st',
        goToNextStep (settle r) = Some st'
        /\ stepId (currentStep st') = Some "medical-history").
Proof.
  intros H r; subst r; rewrite (handleImageChange_rejects read _ _ st H).
  set (rejected := (mkState _ _ _ _ _ _, _)).
  assert (Hfalse : RHF.hasError (formErrors (settle rejected))
                     (RHF.field "medicalImage") = false).
  { subst rejected; settled; apply hasError_false; intros p Hp.
    rewrite updateError_lookup, decide_True by exact Hp.
    by apply image_silent. }
  split_and!; try reflexivity.
  - apply setError_lookup.
  - exact Hfalse.
  - intros p Hp; subst rejected; settled.
    rewrite updateError_lookup, decide_False by exact Hp.
    unfold RHF.set; rewrite lookup_union, unset_lookup, decide_False
      by exact Hp.
    rewrite lookup_singleton_ne by (intros <-; by apply Hp).
    destruct (formErrors st !! p); by split.
  - intros Hid; unfold goToNextStep.
    change (currentStep (settle rejected)) with (currentStep st).
    rewrite Hid; simpl; rewrite Hfalse.
    eexists; split; [reflexivity |].
    apply stepId_inv in Hid
      as [[Hi H']|[[Hi H']|[[Hi _]|[[Hi H']|[Hi H']]]]];
      try discriminate H'.
    simpl; by rewrite Hi.
Qed.

Lemma rejected_file_witness :
  let r := handleImageChange someReader [bigScan] (wizardAt 2 janeKg) in
  formErrors r.1 !! RHF.field "medicalImage" = Some "Max image size is 10MB."
  /\ medicalImage (record (settle r)) = None
  /\ RHF.hasError (formErrors (settle r)) (RHF.field "medicalImage") = false
  /\ exists st',
       goToNextStep (settle r) = Some st'
       /\ stepId (currentStep st') = Some "medical-history".
Proof.
  destruct (rejected_file someReader bigScan [] (wizardAt 2 janeKg) eq_refl)
    as ((_ & _ & Hmsg) & Hrec & _ & Herr & _ & Hnext).
  split; [exact Hmsg |]; split; [by rewrite Hrec |].
  split; [exact Herr | exact (Hnext eq_refl)].
Defined.

(** X21. A file that is taken.  When the first chosen file is within the
    size limit and of an accepted type and can be read, then, once the
    validation started with the value has completed, the record holds the
    chosen files, the preview is the data URI of the first, and no error
    sits on [medicalImage]; the other keys and the errors of the other
    fields are untouched, so that choosing an image puts no error on an
    empty description, and [next()] from the image step moves on. *)
Theorem accepted_file {Output} (read : File -> option jsstring)
    file rest uri (st : State Output) :
  sizeAccepted (file :: rest) && typeAccepted (file :: rest) = true ->
  read file = Some uri ->
  let st' := settle (handleImageChange read (file :: rest) st) in
  record st' = set_medicalImage (Some (file :: rest)) (record st)
  /\ imagePreview st' = Some uri
  /\ currentStep st' = currentStep st
  /\ RHF.hasError (formErrors st') (RHF.field "medicalImage") = false
  /\ (forall p,
        ~ RHF.field "medicalImage" `prefix_of` p ->
        formErrors st' !! p = formErrors st !! p)
  /\ (stepId (currentStep st) = Some "medical-image" ->
      exists st'',
        goToNextStep st' = Some st''
        /\ stepId (currentStep st'') = Some "medical-history").
Proof.
  intros H Hr st'; subst st'.
  rewrite (handleImageChange_accepts read _ _ uri st H Hr).
  set (accepted := (mkState _ _ _ _ _ _, _)).
  assert (Hfalse : RHF.hasError (formErrors (settle accepted))
                     (RHF.field "medicalImage") = false).
  { subst accepted; settled; apply hasError_false; intros p Hp.
    rewrite updateError_lookup, decide_True by exact Hp.
    by apply image_silent. }
  split_and!; try reflexivity.
  - exact Hfalse.
  - intros p Hp; subst accepted; settled.
    rewrite updateError_lookup, decide_False by exact Hp.
    by rewrite unset_lookup, decide_False by exact Hp.
  - intros Hid; unfold goToNextStep.
    change (currentStep (settle accepted)) with (currentStep st).
    rewrite Hid; simpl; rewrite Hfalse.
    eexists; split; [reflexivity |].
    apply stepId_inv in Hid
      as [[Hi H']|[[Hi H']|[[Hi _]|[[Hi H']|[Hi H']]]]];
      try discriminate H'.
    simpl; by rewrite Hi.
Qed.

Lemma accepted_file_witness :
  let st' := settle (handleImageChange someReader [scan]
                       (wizardAt 2 janeKg)) in
  medicalImage (record st') = Some [scan]
  /\ imagePreview st' = Some (str "data:image/png;base64,AA==")
  /\ RHF.hasError (formErrors st') (RHF.field "medicalImage") = false
  /\ formErrors st' !! RHF.field "imageDescription" = None.
Proof.
  destruct (accepted_file someReader scan []
              (str "data:image/png;base64,AA==") (wizardAt 2 janeKg)
              eq_refl eq_refl)
    as (Hrec & Hpre & _ & Herr & Hother & _).
  split; [by rewrite Hrec |]; split; [exact Hpre |].
  split; [exact Herr |].
  rewrite Hother; [reflexivity |].
  intros [t Ht]; discriminate.
Defined.

Lemma symptomsAccepted_app v s :
  symptomAccepted s = false ->
  symptomsAccepted (set_symptoms (symptoms v ++ [s]) v) = false.
Proof.
  intros H; unfold symptomsAccepted; simpl.
  rewrite forallb_app; simpl; rewrite H.
  by rewrite andb_false_r, andb_false_r.
Qed.

Lemma symptoms_trigger_errors {Output} (st : State Output) :
  RHF.hasError (formErrors (validateThenAdvance [RHF.field "symptoms"] st))
    (RHF.field "symptoms")
  = negb (symptomsAccepted (record st)).
Proof.
  destruct (validateThenAdvance_facts [RHF.field "symptoms"] st)
    as (_ & Herr & _).
  rewrite (hasError_ext _ (RHF.zodResolver (record st)).2).
  - destruct (symptomsAccepted (record st)) eqn:Ha; simpl.
    + destruct (RHF.hasError _ _) eqn:E; [| reflexivity].
      apply zodResolver_hasError, errorOn_symptoms in E; congruence.
    + by apply zodResolver_hasError, errorOn_symptoms.
  - intros p Hp; rewrite Herr.
    destruct (decide _) as [|n]; [reflexivity |].
    exfalso; apply n, Exists_cons_hd, Hp.
Qed.

(** X22. Add Symptom.  The button appends an entry without name and
    severity and by itself changes no error of the form.  [next()] from the
    symptoms step then stays there, and it is [next()] that puts the error
    below [symptoms]. *)
Theorem added_symptom_blocks_next {Output}
    (analyze : AnalyzeSymptomsInput -> option Output)
    (read : File -> option jsstring) (st : State Output) :
  stepId (currentStep st) = Some "symptoms" ->
  exists st',
    perform analyze read AddSymptom st = Some st'
    /\ symptoms (record st') = symptoms (record st) ++ [mkSymptom [] []]
    /\ formErrors st' = formErrors st
    /\ exists st'',
         goToNextStep st' = Some st''
         /\ currentStep st'' = currentStep st
         /\ RHF.hasError (formErrors st'') (RHF.field "symptoms") = true.
Proof.
  intros Hid; eexists; split; [reflexivity |].
  set (st' := settle _).
  assert (Hrec : record st'
                 = set_symptoms (symptoms (record st) ++ [mkSymptom [] []])
                     (record st)) by reflexivity.
  assert (Hno : symptomsAccepted (record st') = false)
    by (rewrite Hrec; by apply symptomsAccepted_app).
  split; [by rewrite Hrec |]; split; [reflexivity |].
  assert (Hnext : goToNextStep st'
                  = Some (validateThenAdvance [RHF.field "symptoms"] st')).
  { unfold goToNextStep.
    change (currentStep st') with (currentStep st); by rewrite Hid. }
  eexists; split; [exact Hnext |]; split.
  - apply goToNextStep_lands in Hnext as (_ & _ & _ & _ & _ & Hstep).
    change (currentStep st') with (currentStep st) in Hstep.
    apply stepId_inv in Hid
      as [[Hi H]|[[Hi _]|[[Hi H]|[[Hi H]|[Hi H]]]]]; try discriminate H.
    rewrite Hstep, Hi, Hno; reflexivity.
  - by rewrite symptoms_trigger_errors, Hno.
Qed.

Lemma added_symptom_blocks_next_witness :
  exists st',
    perform someAnalysis someReader AddSymptom (wizardAt 1 janeKg) = Some st'
    /\ length (symptoms (record st')) = 2%nat
    /\ formErrors st' = ∅
    /\ exists st'',
         goToNextStep st' = Some st'' /\ currentStep st'' = 1
         /\ RHF.hasError (formErrors st'') (RHF.field "symptoms") = true.
Proof.
  destruct (added_symptom_blocks_next someAnalysis someReader
              (wizardAt 1 janeKg) eq_refl)
    as (st' & Hadd & Hs & Herr & st'' & Hnext & Hstep & Hafter).
  exists st'; split; [exact Hadd |].
  split; [by rewrite Hs |]; split; [exact Herr |].
  exists st''; split; [exact Hnext |]; split; [exact Hstep | exact Hafter].
Defined.

(** The errors of the entries follow their entries on a removal. *)
Example remove_moves_errors :
  RHF.removeErrors 0
    {[ [Key "symptoms"; Idx 0%nat; Key "name"] := "Symptom name is required.";
       [Key "symptoms"; Idx 1%nat; Key "severity"] := "Severity is required.";
       [Key "name"] := "Name is required." ]}
  = {[ [Key "symptoms"; Idx 0%nat; Key "severity"] := "Severity is required.";
       [Key "name"] := "Name is required." ]}.
Proof. vm_compute; reflexivity. Qed.

Lemma handleImageChange_unreadable {Output} read file rest
    (st : State Output) :
  sizeAccepted (file :: rest) && typeAccepted (file :: rest) = true ->
  read file = None ->
  handleImageChange read (file :: rest) st
  = (mkState (currentStep st) (isLoading st) (results st) (error st) None
       (RHF.mkFormState (set_medicalImage None (record st))
          (RHF.unset (formErrors st) (RHF.field "medicalImage"))),
     [RHF.mkValidation (RHF.field "medicalImage")
        (RHF.zodResolver (set_medicalImage None (record st))).2;
      RHF.mkValidation (RHF.field "medicalImage")
        (RHF.zodResolver (set_medicalImage None (record st))).2]).
Proof.
  unfold handleImageChange; simpl; intros H Hr.
  apply andb_true_iff in H as [Hs Ht].
  apply N.leb_le, N.ltb_ge in Hs; rewrite Hs, Ht, Hr; reflexivity.
Qed.

(** X23. A file that cannot be read.  When the first chosen file passes
    the checks of size and type but the reader fails, [onerror] empties the
    file input before [onloadend] runs, so the record is left without an
    image and the wizard without a preview; no error sits on
    [medicalImage], and the other keys and the errors of the other fields
    are untouched. *)
Theorem unreadable_file {Output} (read : File -> option jsstring)
    file rest (st : State Output) :
  sizeAccepted (file :: rest) && typeAccepted (file :: rest) = true ->
  read file = None ->
  let r := handleImageChange read (file :: rest) st in
  (record r.1 = set_medicalImage None (record st)
   /\ imagePreview r.1 = None)
  /\ record (settle r) = set_medicalImage None (record st)
  /\ imagePreview (settle r) = None
  /\ currentStep (settle r) = currentStep st
  /\ RHF.hasError (formErrors (settle r)) (RHF.field "medicalImage") = false
  /\ (forall p,
        ~ RHF.field "medicalImage" `prefix_of` p ->
        formErrors (settle r) !! p = formErrors st !! p).
Proof.
  intros H Hr r; subst r.
  rewrite (handleImageChange_unreadable read _ _ st H Hr).
  split_and!; try reflexivity.
  - settled; apply hasError_false; intros p Hp.
    rewrite updateError_lookup, decide_True by exact Hp.
    by apply image_silent.
  - intros p Hp; settled.
    rewrite !updateError_lookup, !decide_False by exact Hp.
    by rewrite unset_lookup, decide_False by exact Hp.
Qed.

Lemma unreadable_file_witness :
  let st' := settle (handleImageChange failingReader [scan]
                       (wizardAt 2 janeKg)) in
  medicalImage (record st') = None
  /\ imagePreview st' = None
  /\ RHF.hasError (formErrors st') (RHF.field "medicalImage") = false.
Proof.
  destruct (unreadable_file failingReader scan [] (wizardAt 2 janeKg)
              eq_refl eq_refl)
    as (_ & Hrec & Hpre & _ & Herr & _).
  split; [by rewrite Hrec |]; split; [exact Hpre | exact Herr].
Defined.
